(** * Process table, PID minting, fork/wait and the system-call layer of
      xv6-armv8 (kern/proc.c, kern/syscall.c, kern/sysproc.c, kern/file.c)

    The kernel code is embedded as functions in a small monad that threads
    the kernel state, stops at [panic], and runs unbounded loops on fuel.
    Collaborators that live outside these files (page allocator, virtual
    memory, inode layer, context switch) are operations of an abstract
    [World]. *)

From Stdlib Require Import ZArith List String Bool Lia.
From stdpp Require Import base list list_numbers.

Local Open Scope Z_scope.

(** ** Machine integers *)

(** [uint64_t]: values are reduced modulo 2^64. *)
Definition u64 (z : Z) : Z := z mod 2 ^ 64.

(** [int]: 32-bit two's complement. Signed overflow of [nextpid++] is
    modelled as the wrap-around the aarch64 add instruction performs. *)
Definition i32 (z : Z) : Z := (z + 2 ^ 31) mod 2 ^ 32 - 2 ^ 31.

(** [int64_t]: 64-bit two's complement. *)
Definition i64 (z : Z) : Z := (z + 2 ^ 63) mod 2 ^ 64 - 2 ^ 63.

Arguments u64 : simpl never.
Arguments i32 : simpl never.
Arguments i64 : simpl never.

Definition INT_MAX : Z := 2147483647.
Definition INT_MIN : Z := -2147483648.

(** ** Data model (inc/proc.h, inc/file.h) *)

Inductive procstate := UNUSED | EMBRYO | SLEEPING | RUNNABLE | RUNNING | ZOMBIE.

#[global] Instance procstate_eq_dec : EqDecision procstate.
Proof. solve_decision. Defined.

(** Pointers to process slots are indices into [ptable.proc]; [None] is
    the null pointer. Other pointers are addresses, 0 being NULL. *)
Record proc := mkProc {
  lock : bool;              (* struct spinlock lock: held or free *)
  state : procstate;
  pid : Z;                  (* int *)
  parent : option nat;      (* struct proc* *)
  chan : option nat;        (* void*: only slot addresses are slept on here *)
  killed : Z;
  xstate : Z;
  sz : Z;                   (* uint64_t *)
  pgdir : Z;
  kstack : Z;
  tf : Z;                   (* struct trapframe* *)
  context : Z;              (* struct context* *)
  ofile : list (option nat);(* struct file* ofile[NOFILE], into ftable.file *)
  cwd : Z;                  (* struct inode* *)
  name : list Z             (* char name[16] *)
}.

Inductive fdtype := FD_NONE | FD_INODE.

Record file := mkFile {
  ref : Z;
  type : fdtype;
  readable : bool;
  writable : bool;
  ip : Z;
  off : Z
}.

(** Layout constants of headers that accompany these files: the kernel
    stack size, the sizes of [struct trapframe] and [struct context] in
    8-byte words, the word index of [x0] inside the trap frame (the
    registers x0..x30 are consecutive, which [argint]'s pointer arithmetic
    [&tf->x1 + n] relies on), the word index of [x30] inside the context,
    the address of [forkret], and [MAXARG]. *)
Class Layout := {
  KSTACKSIZE : Z;
  TF_WORDS : Z;
  TF_X0 : Z;
  CTX_WORDS : Z;
  CTX_X30 : Z;
  FORKRET : Z;
  MAXARG : nat
}.

(** Collaborators outside the core: page allocator (kalloc.c), virtual
    memory (vm.c) and the inode layer (fs.c), acting on their own state. *)
Class Extern := {
  World : Type;
  kalloc : World -> Z * World;
  kfree : Z -> World -> World;
  vm_free : Z -> Z -> World -> World;
  uvm_copy : Z -> Z -> Z -> World -> Z * World;
  uvm_alloc : Z -> Z -> Z -> World -> Z * World;
  uvm_dealloc : Z -> Z -> Z -> World -> Z * World;
  uvm_switch : proc -> World -> World;
  idup : Z -> World -> Z * World
}.

Section Kernel.

Context {L : Layout} {E : Extern}.

(** The kernel state: the globals of proc.c and file.c, the current
    process of this CPU ([thiscpu->proc]), user memory of the current
    address space (bytes), kernel memory holding trap frames and contexts
    (aligned 8-byte words), the console, and a ghost log that records for
    every call of [proc_free] whether the slot's lock was held. *)
Record State := mkState {
  ptable : list proc;
  cur : nat;
  nextpid : Z;
  pid_lock : bool;
  wait_lock : bool;
  ftable_lock : bool;
  ftable : list file;
  umem : Z -> Z;
  kmem : Z -> Z;
  world : World;
  console : list (string * list Z);
  free_log : list (nat * bool)
}.

(** ** The kernel monad *)

Inductive Outcome (A : Type) :=
| Done (a : A) (s : State)          (* returned a *)
| Panic (msg : string) (s : State)  (* panic(): halts *)
| Fault (s : State)                 (* dereferenced a wild slot or file pointer *)
| OutOfFuel (s : State).            (* still looping when the fuel ran out *)

Arguments Done {A}.
Arguments Panic {A}.
Arguments Fault {A}.
Arguments OutOfFuel {A}.

Definition M (A : Type) : Type := nat -> State -> Outcome A.

Definition ret {A} (a : A) : M A := fun _ s => Done a s.

Definition bind {A B} (m : M A) (f : A -> M B) : M B :=
  fun fuel s =>
    match m fuel s with
    | Done a s' => f a fuel s'
    | Panic msg s' => Panic msg s'
    | Fault s' => Fault s'
    | OutOfFuel s' => OutOfFuel s'
    end.

Notation "x <- m ;; k" := (bind m (fun x => k))
  (at level 62, m at next level, right associativity).
Notation "m ;;; k" := (bind m (fun _ => k))
  (at level 62, right associativity).

Definition gets {A} (f : State -> A) : M A := fun _ s => Done (f s) s.
Definition modify (f : State -> State) : M unit := fun _ s => Done tt (f s).
(** [panic(msg)]: the message is written without its leading tab and
    line feed. *)
Definition panic {A} (msg : string) : M A := fun _ s => Panic msg s.
Definition fault {A} : M A := fun _ s => Fault s.

(** [while (cond) body;] *)
Fixpoint while_ (cond : State -> bool) (body : M unit) (fuel : nat) (s : State)
  : Outcome unit :=
  if cond s then
    match fuel with
    | O => OutOfFuel s
    | S k =>
        match body k s with
        | Done _ s' => while_ cond body k s'
        | Panic msg s' => Panic msg s'
        | Fault s' => Fault s'
        | OutOfFuel s' => OutOfFuel s'
        end
    end
  else Done tt s.

(** [while (1) { body }] where the body leaves the loop by [return]. *)
Fixpoint forever {A} (body : M (option A)) (fuel : nat) (s : State) : Outcome A :=
  match fuel with
  | O => OutOfFuel s
  | S k =>
      match body k s with
      | Done (Some a) s' => Done a s'
      | Done None s' => forever body k s'
      | Panic msg s' => Panic msg s'
      | Fault s' => Fault s'
      | OutOfFuel s' => OutOfFuel s'
      end
  end.

(** ** State updates *)

Definition set_ptable (t : list proc) (s : State) : State :=
  mkState t (cur s) (nextpid s) (pid_lock s) (wait_lock s) (ftable_lock s)
    (ftable s) (umem s) (kmem s) (world s) (console s) (free_log s).
Definition set_nextpid (n : Z) (s : State) : State :=
  mkState (ptable s) (cur s) n (pid_lock s) (wait_lock s) (ftable_lock s)
    (ftable s) (umem s) (kmem s) (world s) (console s) (free_log s).
Definition set_pid_lock (b : bool) (s : State) : State :=
  mkState (ptable s) (cur s) (nextpid s) b (wait_lock s) (ftable_lock s)
    (ftable s) (umem s) (kmem s) (world s) (console s) (free_log s).
Definition set_wait_lock (b : bool) (s : State) : State :=
  mkState (ptable s) (cur s) (nextpid s) (pid_lock s) b (ftable_lock s)
    (ftable s) (umem s) (kmem s) (world s) (console s) (free_log s).
Definition set_ftable_lock (b : bool) (s : State) : State :=
  mkState (ptable s) (cur s) (nextpid s) (pid_lock s) (wait_lock s) b
    (ftable s) (umem s) (kmem s) (world s) (console s) (free_log s).
Definition set_ftable (t : list file) (s : State) : State :=
  mkState (ptable s) (cur s) (nextpid s) (pid_lock s) (wait_lock s) (ftable_lock s)
    t (umem s) (kmem s) (world s) (console s) (free_log s).
Definition set_kmem (m : Z -> Z) (s : State) : State :=
  mkState (ptable s) (cur s) (nextpid s) (pid_lock s) (wait_lock s) (ftable_lock s)
    (ftable s) (umem s) m (world s) (console s) (free_log s).
Definition set_world (w : World) (s : State) : State :=
  mkState (ptable s) (cur s) (nextpid s) (pid_lock s) (wait_lock s) (ftable_lock s)
    (ftable s) (umem s) (kmem s) w (console s) (free_log s).
Definition set_console (c : list (string * list Z)) (s : State) : State :=
  mkState (ptable s) (cur s) (nextpid s) (pid_lock s) (wait_lock s) (ftable_lock s)
    (ftable s) (umem s) (kmem s) (world s) c (free_log s).
Definition set_free_log (l : list (nat * bool)) (s : State) : State :=
  mkState (ptable s) (cur s) (nextpid s) (pid_lock s) (wait_lock s) (ftable_lock s)
    (ftable s) (umem s) (kmem s) (world s) (console s) l.

Definition set_lock (b : bool) (p : proc) : proc :=
  mkProc b (state p) (pid p) (parent p) (chan p) (killed p) (xstate p) (sz p)
    (pgdir p) (kstack p) (tf p) (context p) (ofile p) (cwd p) (name p).
Definition set_state (x : procstate) (p : proc) : proc :=
  mkProc (lock p) x (pid p) (parent p) (chan p) (killed p) (xstate p) (sz p)
    (pgdir p) (kstack p) (tf p) (context p) (ofile p) (cwd p) (name p).
Definition set_pid (x : Z) (p : proc) : proc :=
  mkProc (lock p) (state p) x (parent p) (chan p) (killed p) (xstate p) (sz p)
    (pgdir p) (kstack p) (tf p) (context p) (ofile p) (cwd p) (name p).
Definition set_parent (x : option nat) (p : proc) : proc :=
  mkProc (lock p) (state p) (pid p) x (chan p) (killed p) (xstate p) (sz p)
    (pgdir p) (kstack p) (tf p) (context p) (ofile p) (cwd p) (name p).
Definition set_chan (x : option nat) (p : proc) : proc :=
  mkProc (lock p) (state p) (pid p) (parent p) x (killed p) (xstate p) (sz p)
    (pgdir p) (kstack p) (tf p) (context p) (ofile p) (cwd p) (name p).
Definition set_killed (x : Z) (p : proc) : proc :=
  mkProc (lock p) (state p) (pid p) (parent p) (chan p) x (xstate p) (sz p)
    (pgdir p) (kstack p) (tf p) (context p) (ofile p) (cwd p) (name p).
Definition set_xstate (x : Z) (p : proc) : proc :=
  mkProc (lock p) (state p) (pid p) (parent p) (chan p) (killed p) x (sz p)
    (pgdir p) (kstack p) (tf p) (context p) (ofile p) (cwd p) (name p).
Definition set_sz (x : Z) (p : proc) : proc :=
  mkProc (lock p) (state p) (pid p) (parent p) (chan p) (killed p) (xstate p) x
    (pgdir p) (kstack p) (tf p) (context p) (ofile p) (cwd p) (name p).
Definition set_pgdir (x : Z) (p : proc) : proc :=
  mkProc (lock p) (state p) (pid p) (parent p) (chan p) (killed p) (xstate p) (sz p)
    x (kstack p) (tf p) (context p) (ofile p) (cwd p) (name p).
Definition set_kstack (x : Z) (p : proc) : proc :=
  mkProc (lock p) (state p) (pid p) (parent p) (chan p) (killed p) (xstate p) (sz p)
    (pgdir p) x (tf p) (context p) (ofile p) (cwd p) (name p).
Definition set_tf (x : Z) (p : proc) : proc :=
  mkProc (lock p) (state p) (pid p) (parent p) (chan p) (killed p) (xstate p) (sz p)
    (pgdir p) (kstack p) x (context p) (ofile p) (cwd p) (name p).
Definition set_context (x : Z) (p : proc) : proc :=
  mkProc (lock p) (state p) (pid p) (parent p) (chan p) (killed p) (xstate p) (sz p)
    (pgdir p) (kstack p) (tf p) x (ofile p) (cwd p) (name p).
Definition set_ofile (x : list (option nat)) (p : proc) : proc :=
  mkProc (lock p) (state p) (pid p) (parent p) (chan p) (killed p) (xstate p) (sz p)
    (pgdir p) (kstack p) (tf p) (context p) x (cwd p) (name p).
Definition set_cwd (x : Z) (p : proc) : proc :=
  mkProc (lock p) (state p) (pid p) (parent p) (chan p) (killed p) (xstate p) (sz p)
    (pgdir p) (kstack p) (tf p) (context p) (ofile p) x (name p).
Definition set_name (x : list Z) (p : proc) : proc :=
  mkProc (lock p) (state p) (pid p) (parent p) (chan p) (killed p) (xstate p) (sz p)
    (pgdir p) (kstack p) (tf p) (context p) (ofile p) (cwd p) x.

(** ** Primitives *)

(** [thisproc()] *)
Definition thisproc : M nat := gets cur.

(** Read the slot a pointer designates. *)
Definition getp (i : nat) : M proc :=
  fun _ s => match ptable s !! i with
             | Some p => Done p s
             | None => Fault s
             end.

(** Write through a slot pointer: [p->field = v]. *)
Definition modp (i : nat) (f : proc -> proc) : M unit :=
  fun _ s => match ptable s !! i with
             | Some p => Done tt (set_ptable (<[i := f p]> (ptable s)) s)
             | None => Fault s
             end.

(** A call into a collaborator. *)
Definition ext {A} (f : World -> A * World) : M A :=
  fun _ s => let '(a, w) := f (world s) in Done a (set_world w s).
Definition ext_ (f : World -> World) : M unit :=
  modify (fun s => set_world (f (world s)) s).

(** [cprintf(fmt, args...)]: the console receives the format (written
    here without its line feed) and the arguments. *)
Definition cprintf (fmt : string) (args : list Z) : M unit :=
  modify (fun s => set_console ((fmt, args) :: console s) s).

(** Spinlocks (spinlock.c): [acquire] spins until the lock is free and
    takes it, [release] frees it, [holding] tests it. *)
Definition acquire (held : State -> bool) (set : bool -> State -> State) : M unit :=
  while_ held (ret tt) ;;; modify (set true).
Definition release (set : bool -> State -> State) : M unit :=
  modify (set false).

Definition slot_held (i : nat) (s : State) : bool :=
  match ptable s !! i with Some p => lock p | None => false end.
Definition slot_set (i : nat) (b : bool) (s : State) : State :=
  match ptable s !! i with
  | Some p => set_ptable (<[i := set_lock b p]> (ptable s)) s
  | None => s
  end.

Definition acquire_slot (i : nat) : M unit := acquire (slot_held i) (slot_set i).
Definition release_slot (i : nat) : M unit := release (slot_set i).

(** ** proc.c *)

Definition pid_next : M Z :=
  acquire pid_lock set_pid_lock ;;;
  pid <- gets nextpid ;;
  modify (fun s => set_nextpid (i32 (nextpid s + 1)) s) ;;;
  release set_pid_lock ;;;
  ret pid.

(** Kernel memory is accessed in aligned 8-byte words. *)
Definition load (a : Z) : M Z := gets (fun s => u64 (kmem s a)).
Definition store (a v : Z) : M unit :=
  modify (fun s => set_kmem (fun x => if x =? a then v else kmem s x) s).

Definition in_words (dst n x : Z) : bool :=
  (dst <=? x) && (x <? dst + 8 * n) && ((x - dst) mod 8 =? 0).

(** [memset(dst, 0, 8 * n)] *)
Definition memset0 (dst n : Z) : M unit :=
  modify (fun s => set_kmem (fun x => if in_words dst n x then 0 else kmem s x) s).

(** [memcpy(dst, src, 8 * n)]; string.h implements it by [memmove], so
    the destination receives the source as it was before the call. *)
Definition memcpy (dst src n : Z) : M unit :=
  modify (fun s =>
    set_kmem (fun x => if in_words dst n x then kmem s (src + (x - dst)) else kmem s x) s).

(** [strncpy(dst, src, size)] of string.h, on a character array. *)
Fixpoint strncpy (src : list Z) (size : nat) : list Z :=
  match size with
  | O => []
  | S k =>
      match src with
      | c :: rest => c :: strncpy (if c =? 0 then src else rest) k
      | [] => 0 :: strncpy [] k
      end
  end.

(** Free a proc structure and the data hanging from it. The first step
    is ghost: it records whether [p->lock] is held, which the comment on
    the function requires. *)
Definition proc_free (i : nat) : M unit :=
  held <- gets (slot_held i) ;;
  modify (fun s => set_free_log ((i, held) :: free_log s) s) ;;;
  modp i (set_chan None) ;;;
  modp i (set_killed 0) ;;;
  modp i (set_xstate 0) ;;;
  modp i (set_pid 0) ;;;
  modp i (set_parent None) ;;;
  p <- getp i ;;
  (if kstack p =? 0 then ret tt else ext_ (kfree (kstack p))) ;;;
  modp i (set_kstack 0) ;;;
  modp i (set_sz 0) ;;;
  p <- getp i ;;
  (if pgdir p =? 0 then ret tt else ext_ (vm_free (pgdir p) 4)) ;;;
  modp i (set_pgdir 0) ;;;
  modp i (set_tf 0) ;;;
  modp i (fun p => set_name (<[0%nat := 0]> (name p)) p) ;;;
  modp i (set_state UNUSED).

(** The body of [proc_alloc]'s loop once slot [i] is found UNUSED (its
    lock is held). *)
Definition proc_alloc_slot (i : nat) : M (option nat) :=
  newpid <- pid_next ;;
  modp i (set_pid newpid) ;;;
  k <- ext kalloc ;;
  modp i (set_kstack k) ;;;
  if k =? 0 then
    proc_free i ;;;
    release_slot i ;;;
    ret None
  else
    let sp := u64 (k + KSTACKSIZE) in
    let sp := u64 (sp - 8 * TF_WORDS) in
    modp i (set_tf sp) ;;;
    let sp := u64 (sp - 8 * CTX_WORDS) in
    modp i (set_context sp) ;;;
    memset0 sp CTX_WORDS ;;;
    store (sp + 8 * CTX_X30) FORKRET ;;;
    modp i (set_state EMBRYO) ;;;
    cprintf "proc_alloc: proc %d success." [newpid] ;;;
    ret (Some i).

(** [for (p = ptable.proc; p < &ptable.proc[NPROC]; ++p)]: [n] slots are
    left, [i] is the current one. *)
Fixpoint proc_alloc_scan (n i : nat) : M (option nat) :=
  match n with
  | O => ret None
  | S n' =>
      acquire_slot i ;;;
      p <- getp i ;;
      if decide (state p = UNUSED) then proc_alloc_slot i
      else release_slot i ;;; proc_alloc_scan n' (S i)
  end.

Definition proc_alloc : M (option nat) :=
  n <- gets (fun s => length (ptable s)) ;;
  proc_alloc_scan n 0.

(** Grow current process's memory by [n] bytes ([n] is an [int]). *)
Definition growproc (n : Z) : M Z :=
  p <- thisproc ;;
  pp <- getp p ;;
  let sz0 := sz pp in
  let finish (newsz : Z) : M Z :=
    modp p (set_sz newsz) ;;;
    pp <- getp p ;;
    ext_ (uvm_switch pp) ;;;
    ret 0 in
  if 0 <? n then
    newsz <- ext (uvm_alloc (pgdir pp) sz0 (u64 (sz0 + n))) ;;
    if newsz =? 0 then ret (-1) else finish newsz
  else if n <? 0 then
    newsz <- ext (uvm_dealloc (pgdir pp) sz0 (u64 (sz0 + n))) ;;
    if newsz =? 0 then ret (-1) else finish newsz
  else finish sz0.

(** file.c: increment the reference count of file [f]. *)
Definition file_dup (f : nat) : M nat :=
  acquire ftable_lock set_ftable_lock ;;;
  t <- gets ftable ;;
  match t !! f with
  | None => fault
  | Some fl =>
      if ref fl <? 1 then panic "file_dup: invalid file."
      else
        modify (set_ftable (<[f := mkFile (i32 (ref fl + 1)) (type fl) (readable fl)
                                      (writable fl) (ip fl) (off fl)]> t)) ;;;
        release set_ftable_lock ;;;
        ret f
  end.

(** [for (i = 0; i < NOFILE; ++i) if (p->ofile[i]) np->ofile[i] = file_dup(p->ofile[i]);] *)
Fixpoint fork_files (n i : nat) (p np : nat) : M unit :=
  match n with
  | O => ret tt
  | S n' =>
      pp <- getp p ;;
      match ofile pp !! i with
      | Some (Some f) =>
          f' <- file_dup f ;;
          modp np (fun q => set_ofile (<[i := Some f']> (ofile q)) q)
      | _ => ret tt
      end ;;;
      fork_files n' (S i) p np
  end.

Definition fork : M Z :=
  onp <- proc_alloc ;;
  match onp with
  | None => ret (-1)
  | Some np =>
      p <- thisproc ;;
      pp <- getp p ;;
      npp <- getp np ;;
      rc <- ext (uvm_copy (pgdir pp) (pgdir npp) (sz pp)) ;;
      if rc <? 0 then
        proc_free np ;;;
        release_slot np ;;;
        ret (-1)
      else
        pp <- getp p ;;
        modp np (set_sz (sz pp)) ;;;
        pp <- getp p ;;
        npp <- getp np ;;
        memcpy (tf npp) (tf pp) TF_WORDS ;;;
        store (tf npp + 8 * TF_X0) 0 ;;;
        pp <- getp p ;;
        fork_files (length (ofile pp)) 0 p np ;;;
        pp <- getp p ;;
        c <- ext (idup (cwd pp)) ;;
        modp np (set_cwd c) ;;;
        pp <- getp p ;;
        modp np (set_name (strncpy (name pp) (length (name pp)))) ;;;
        npp <- getp np ;;
        let pid := pid npp in
        release_slot np ;;;
        acquire wait_lock set_wait_lock ;;;
        modp np (set_parent (Some p)) ;;;
        release set_wait_lock ;;;
        acquire_slot np ;;;
        modp np (set_state RUNNABLE) ;;;
        release_slot np ;;;
        ret pid
  end.

(** The context switch [swtch(&p->context, c->scheduler)] is assembly
    outside these files: [swtch] maps the state at the switch to the state
    in which this process is next resumed. *)
Variable swtch : State -> State.

Definition sched : M unit :=
  p <- thisproc ;;
  h <- gets (slot_held p) ;;
  if negb h then panic "sched: process not locked."
  else
    pp <- getp p ;;
    if decide (state pp = RUNNING) then panic "sched: process running."
    else modify swtch.

(** [sleep(chan, &wait_lock)], the only use of [sleep] in these files. *)
Definition sleep (c : nat) : M unit :=
  p <- thisproc ;;
  acquire_slot p ;;;
  release set_wait_lock ;;;
  modp p (set_chan (Some c)) ;;;
  modp p (set_state SLEEPING) ;;;
  sched ;;;
  modp p (set_chan None) ;;;
  release_slot p ;;;
  acquire wait_lock set_wait_lock.

(** The scan of [wait] over the table: returns [Some pid] when the scan
    left the function by [return pid], else the value of [havekids]. *)
Fixpoint wait_scan (n i : nat) (p : nat) (havekids : bool) : M (option Z * bool) :=
  match n with
  | O => ret (None, havekids)
  | S n' =>
      np <- getp i ;;
      if decide (parent np = Some p) then
        if decide (state np = ZOMBIE) then
          let pid := pid np in
          proc_free i ;;;
          release set_wait_lock ;;;
          ret (Some pid, true)
        else wait_scan n' (S i) p true
      else wait_scan n' (S i) p havekids
  end.

Definition wait : M Z :=
  p <- thisproc ;;
  acquire wait_lock set_wait_lock ;;;
  forever (
    n <- gets (fun s => length (ptable s)) ;;
    r <- wait_scan n 0 p false ;;
    match r with
    | (Some pid, _) => ret (Some pid)
    | (None, havekids) =>
        pp <- getp p ;;
        if negb havekids || negb (killed pp =? 0) then
          release set_wait_lock ;;;
          ret (Some (-1))
        else
          sleep p ;;;
          ret None
    end).

(** ** syscall.c *)

(** User memory is byte addressed; an 8-byte load is little endian. *)
Fixpoint load_le (m : Z -> Z) (a : Z) (n : nat) : Z :=
  match n with
  | O => 0
  | S k => m a mod 256 + 256 * load_le m (a + 1) k
  end.

(** Output parameters: a function with an output parameter takes the
    value the variable held and returns the value it holds afterwards,
    next to the [int] result. *)

(** Fetch the int at [addr] from the current process. *)
Definition fetchint (addr : Z) (ip0 : Z) : M (Z * Z) :=
  p <- thisproc ;;
  pp <- getp p ;;
  if (sz pp <=? addr) || (sz pp <? u64 (addr + 8)) then ret (-1, ip0)
  else
    m <- gets umem ;;
    ret (0, i64 (load_le m addr 8)).

(** The loop of [fetchstr]: [s] runs from the start [pp] of the string
    up to [ep]; at a NUL byte the result is [s - pp], past the loop it is
    -1. [n] bounds the iterations left. *)
Fixpoint fetchstr_scan (m : Z -> Z) (n : nat) (pp ep s : Z) : Z :=
  match n with
  | O => -1
  | S k =>
      if s <? ep then
        if m s mod 256 =? 0 then i32 (s - pp)
        else fetchstr_scan m k pp ep (s + 1)
      else -1
  end.

(** Fetch the nul-terminated string at [addr] from the current process. *)
Definition fetchstr (addr : Z) (pp0 : Z) : M (Z * Z) :=
  p <- thisproc ;;
  pr <- getp p ;;
  if sz pr <=? addr then ret (-1, pp0)
  else
    let pp := addr in
    let ep := sz pr in
    m <- gets umem ;;
    ret (fetchstr_scan m (Z.to_nat (ep - pp)) pp ep pp, pp).

(** Fetch the nth system call argument ([n] is an [int]). *)
Definition argint (n : Z) : M (Z * Z) :=
  if 3 <? n then panic "argint: too many system call parameters."
  else
    p <- thisproc ;;
    pp <- getp p ;;
    v <- load (tf pp + 8 * (TF_X0 + 1) + 8 * n) ;;
    ret (0, v).

Definition argstr (n : Z) (pp0 : Z) : M (Z * Z) :=
  r <- argint n ;;
  if fst r <? 0 then ret (-1, pp0)
  else
    let addr := snd r in
    cprintf "argstr: n=%d addr=%lld" [n; addr] ;;;
    fetchstr addr pp0.

(** The dispatch table: entry [k] is the handler of system call [k], or
    null. The handlers return [int]. *)
Variable syscalls : list (option (M Z)).

Definition syscall1 (tfp : Z) : M Z :=
  p <- thisproc ;;
  modp p (set_tf tfp) ;;;
  sysno <- load (tfp + 8 * (TF_X0 + 8)) ;;
  pp <- getp p ;;
  match (if (0 <=? sysno) && (sysno <? Z.of_nat (length syscalls))
         then syscalls !! Z.to_nat sysno else None) with
  | Some (Some handler) =>
      cprintf "syscall: syscall %d from proc %d" [sysno; pid pp] ;;;
      r <- handler ;;
      store (tfp + 8 * TF_X0) (u64 r) ;;;
      x0 <- load (tfp + 8 * TF_X0) ;;
      ret (i32 x0)
  | _ =>
      cprintf "syscall: unknown syscall %d from proc %d" [sysno; pid pp] ;;;
      while_ (fun _ => true) (ret tt) ;;;
      ret (-1)
  end.

(** ** sysproc.c *)

(** [execve(path, argv, NULL)] lives in exec.c. *)
Variable execve : Z -> list Z -> Z -> M Z.

(** The argument loop of [sys_exec]: [for (i = 0;; ++i)]. [left] is
    [ARRAY_SIZE(argv) - i], so [i >= ARRAY_SIZE(argv)] holds exactly when
    [left] is 0. Returns the filled [argv] or the error result. *)
Fixpoint sys_exec_args (left : nat) (i : Z) (uargv : Z) (uarg : Z) (argv : list Z)
  : M (Z + list Z) :=
  match left with
  | O =>
      cprintf "sys_exec: too many arguments." [] ;;;
      ret (inl (-1))
  | S left' =>
      r <- fetchint (u64 (uargv + 8 * i)) uarg ;;
      let uarg := snd r in
      if fst r <? 0 then
        cprintf "sys_exec: failed to fetch uarg." [] ;;;
        ret (inl (-1))
      else if uarg =? 0 then
        ret (inr (<[Z.to_nat i := 0]> argv))
      else
        r <- fetchstr (u64 uarg) (default 0 (argv !! Z.to_nat i)) ;;
        let argv := <[Z.to_nat i := snd r]> argv in
        if fst r <? 0 then
          cprintf "sys_exec: failed to fetch argument." [] ;;;
          ret (inl (-1))
        else
          cprintf "sys_exec: argv[%d] = '%s'" [i; snd r] ;;;
          sys_exec_args left' (i + 1) uargv uarg argv
  end.

(** Uninitialised locals ([path], [uarg]) start at 0 in the model; each
    is written before it is read. *)
Definition sys_exec : M Z :=
  r1 <- argstr 0 0 ;;
  let path := snd r1 in
  if fst r1 <? 0 then
    cprintf "sys_exec: invalid arguments." [] ;;;
    ret (-1)
  else
    r2 <- argint 1 ;;
    let uargv := snd r2 in
    if fst r2 <? 0 then
      cprintf "sys_exec: invalid arguments." [] ;;;
      ret (-1)
    else
      cprintf "sys_exec: exec '%s' uargv %lld" [path; uargv] ;;;
      r <- sys_exec_args MAXARG 0 uargv 0 (replicate MAXARG 0) ;;
      match r with
      | inl e => ret e
      | inr argv => execve path argv 0
      end.

(** [size_t sys_brk()]: the result is a [uint64_t]. *)
Definition sys_brk : M Z :=
  r <- argint 0 ;;
  let n := snd r in
  if fst r <? 0 then ret (u64 (-1))
  else
    p <- thisproc ;;
    pp <- getp p ;;
    let addr := sz pp in
    rc <- growproc (i32 n) ;;
    if rc <? 0 then ret (u64 (-1))
    else ret addr.

(** ** Vocabulary of the statements *)

(** [k] successive calls of the PID minter, results in call order. *)
Fixpoint pid_next_n (k : nat) : M (list Z) :=
  match k with
  | O => ret []
  | S k' => bind pid_next (fun x => bind (pid_next_n k') (fun xs => ret (x :: xs)))
  end.

(** What [proc_free] does to a slot. *)
Definition freed (p : proc) : proc :=
  mkProc (lock p) UNUSED 0 None None 0 0 0 0 0 0 (context p) (ofile p) (cwd p)
    (<[0%nat := 0]> (name p)).

Definition free_world (p : proc) (w : World) : World :=
  let w := if kstack p =? 0 then w else kfree (kstack p) w in
  if pgdir p =? 0 then w else vm_free (pgdir p) 4 w.

(** The VM module reports failure to [growproc n]: [uvm_alloc] (growing)
    or [uvm_dealloc] (shrinking) returns 0. *)
Definition vm_refuses (n : Z) (p : proc) (s : State) : Prop :=
  (0 < n /\ fst (uvm_alloc (pgdir p) (sz p) (u64 (sz p + n)) (world s)) = 0)
  \/ (n < 0 /\ fst (uvm_dealloc (pgdir p) (sz p) (u64 (sz p + n)) (world s)) = 0).

(** The slot [proc_alloc] hands out: allocated from [q] with kernel stack
    [k] and PID [newpid], lock held. *)
Definition embryo (newpid k : Z) (q : proc) : proc :=
  let tfp := u64 (u64 (k + KSTACKSIZE) - 8 * TF_WORDS) in
  set_state EMBRYO
    (set_context (u64 (tfp - 8 * CTX_WORDS))
      (set_tf tfp (set_kstack k (set_pid newpid q)))).

(** Every file the process has open is a live entry of the file table
    whose reference count can take [n] more increments. *)
Definition files_live (n : nat) (pp : proc) (s : State) : Prop :=
  forall j f, ofile pp !! j = Some (Some f) ->
    exists fl, ftable s !! f = Some fl /\ 1 <= ref fl /\ ref fl + Z.of_nat n <= INT_MAX.

(** A NUL-terminated string of length [n] lies at [a], below [ep]. *)
Definition str_at (m : Z -> Z) (ep a n : Z) : Prop :=
  0 <= n /\ a + n < ep /\ m (a + n) mod 256 = 0
  /\ forall j, 0 <= j < n -> m (a + j) mod 256 <> 0.

(** Entry [j] of the user array at [uargv] can be fetched, is the
    non-null pointer [a], and [a] points to a string inside user memory. *)
Definition entry_ok (s : State) (szv uargv : Z) (j : nat) (a : Z) : Prop :=
  0 <= uargv /\ uargv + 8 * Z.of_nat j + 8 <= szv /\ szv < 2 ^ 64
  /\ load_le (umem s) (uargv + 8 * Z.of_nat j) 8 = a
  /\ a <> 0
  /\ exists n, str_at (umem s) szv a n /\ n <= INT_MAX.

(** Entry [j] can be fetched and is NULL. *)
Definition null_at (s : State) (szv uargv : Z) (j : nat) : Prop :=
  0 <= uargv /\ uargv + 8 * Z.of_nat j + 8 <= szv /\ szv < 2 ^ 64
  /\ load_le (umem s) (uargv + 8 * Z.of_nat j) 8 = 0.

(** The kernel's [argv] after the pointers [rest] were stored from
    index [i] on, followed by the terminator. *)
Fixpoint store_args (i : nat) (rest : list Z) (argv : list Z) : list Z :=
  match rest with
  | [] => <[i := 0]> argv
  | a :: r => store_args (S i) r (<[i := a]> argv)
  end.

End Kernel.

Arguments Done {E A}.
Arguments Panic {E A}.
Arguments Fault {E A}.
Arguments OutOfFuel {E A}.

(** ** The rest of the core: proc.c, file.c, sysproc.c, string.h *)

(** The inode layer and the log (fs.c, log.c) as far as file.c and
    [exit] use them. [readi] fills and [writei] reads a buffer in user
    memory. *)
Class ExternFs {E : Extern} := {
  begin_op : World -> World;
  end_op : World -> World;
  iput : Z -> World -> World;
  ilock : Z -> World -> World;
  iunlock : Z -> World -> World;
  readi : Z -> Z -> Z -> Z -> (Z -> Z) -> World -> Z * (Z -> Z) * World;
  writei : Z -> Z -> Z -> Z -> (Z -> Z) -> World -> Z * World
}.

Section Lifecycle.

Context {L : Layout} {E : Extern} {F : ExternFs}.

Notation "x <- m ;; k" := (bind m (fun x => k))
  (at level 62, m at next level, right associativity).
Notation "m ;;; k" := (bind m (fun _ => k))
  (at level 62, right associativity).

Definition set_umem (m : Z -> Z) (s : State) : State :=
  mkState (ptable s) (cur s) (nextpid s) (pid_lock s) (wait_lock s) (ftable_lock s)
    (ftable s) m (kmem s) (world s) (console s) (free_log s).

Definition set_ref (r : Z) (f : file) : file :=
  mkFile r (type f) (readable f) (writable f) (ip f) (off f).
Definition set_type (t : fdtype) (f : file) : file :=
  mkFile (ref f) t (readable f) (writable f) (ip f) (off f).
Definition set_off (o : Z) (f : file) : file :=
  mkFile (ref f) (type f) (readable f) (writable f) (ip f) o.

#[global] Instance fdtype_eq_dec : EqDecision fdtype.
Proof. solve_decision. Defined.

(** Read and write through a file pointer. *)
Definition getf (f : nat) : M file :=
  fun _ s => match ftable s !! f with
             | Some fl => Done fl s
             | None => Fault s
             end.
Definition modf (f : nat) (g : file -> file) : M unit :=
  fun _ s => match ftable s !! f with
             | Some fl => Done tt (set_ftable (<[f := g fl]> (ftable s)) s)
             | None => Fault s
             end.

(** *** syscall.c: argptr *)

(** Fetch the nth argument as a pointer to a block of [size] bytes
    ([size] is an [int], converted to [uint64_t] in the sum). *)
Definition argptr (n : Z) (pp0 : Z) (size : Z) : M (Z * Z) :=
  r <- argint n ;;
  if fst r <? 0 then ret (-1, pp0)
  else
    let i := snd r in
    p <- thisproc ;;
    pp <- getp p ;;
    if (sz pp <=? i) || (sz pp <? u64 (i + size)) then ret (-1, pp0)
    else ret (0, i).

(** *** file.c *)

(** The scan of [file_alloc], with [ftable.lock] held: [n] entries are
    left, [i] is the current one. *)
Fixpoint file_alloc_scan (n i : nat) : M (option nat) :=
  match n with
  | O =>
      release set_ftable_lock ;;;
      ret None
  | S n' =>
      fl <- getf i ;;
      if ref fl =? 0 then
        modf i (set_ref 1) ;;;
        release set_ftable_lock ;;;
        ret (Some i)
      else file_alloc_scan n' (S i)
  end.

Definition file_alloc : M (option nat) :=
  acquire ftable_lock set_ftable_lock ;;;
  n <- gets (fun s => length (ftable s)) ;;
  file_alloc_scan n 0.

(** Close file [f]: decrement the reference count, close when it
    reaches 0. *)
Definition file_close (f : nat) : M unit :=
  acquire ftable_lock set_ftable_lock ;;;
  fl <- getf f ;;
  if ref fl <? 1 then panic "file_close: invalid file."
  else
    modf f (set_ref (i32 (ref fl - 1))) ;;;
    fl <- getf f ;;
    if 0 <? ref fl then
      release set_ftable_lock ;;;
      ret tt
    else
      let ff := fl in
      modf f (set_ref 0) ;;;
      modf f (set_type FD_NONE) ;;;
      release set_ftable_lock ;;;
      if decide (type ff = FD_INODE) then
        ext_ begin_op ;;;
        ext_ (iput (ip ff)) ;;;
        ext_ end_op
      else panic "file_close: unsupported type.".

(** Read [n] bytes ([ssize_t]) from file [f] to [addr]; [r] is an
    [int], [off] a [size_t]. *)
Definition file_read (f : nat) (addr n : Z) : M Z :=
  fl <- getf f ;;
  if negb (readable fl) then ret (-1)
  else if decide (type fl = FD_INODE) then
    ext_ (ilock (ip fl)) ;;;
    fl <- getf f ;;
    r <- (fun _ s =>
            let '(r, m, w) := readi (ip fl) addr (off fl) (u64 n) (umem s) (world s) in
            Done (i32 r) (set_world w (set_umem m s))) ;;
    (if 0 <? r then
       fl <- getf f ;;
       modf f (set_off (u64 (off fl + r)))
     else ret tt) ;;;
    fl <- getf f ;;
    ext_ (iunlock (ip fl)) ;;;
    ret r
  else panic "file_read: unsupported type.".

(** [((MAXOPBLOCKS - 4) / 2) * 512] with [MAXOPBLOCKS] = 10 (fs.h). *)
Definition MAXOPBLOCKS : Z := 10.
Definition write_max : Z := ((MAXOPBLOCKS - 4) / 2) * 512.

(** One turn of the loop of [file_write], entered with [i < n]; the
    result is the new [i], or the marker that the loop was left by
    [break]. [i], [n1] and [r] are [int]. *)
Definition file_write_turn (f : nat) (addr n i : Z) : M (Z + Z) :=
  let n1 := i32 (n - i) in
  let n1 := if write_max <? n1 then write_max else n1 in
  ext_ begin_op ;;;
  fl <- getf f ;;
  ext_ (ilock (ip fl)) ;;;
  fl <- getf f ;;
  r <- (fun _ s =>
          let '(r, w) := writei (ip fl) (u64 (addr + i)) (off fl) (u64 n1)
                           (umem s) (world s) in
          Done (i32 r) (set_world w s)) ;;
  (if 0 <? r then
     fl <- getf f ;;
     modf f (set_off (u64 (off fl + r)))
   else ret tt) ;;;
  fl <- getf f ;;
  ext_ (iunlock (ip fl)) ;;;
  ext_ end_op ;;;
  if r <? 0 then ret (inr i)
  else if negb (r =? n1) then panic "file_write: partial data written."
  else ret (inl (i32 (i + r))).

(** [while (i < n) { ... }], then [return i == n ? n : -1]. *)
Fixpoint file_write_loop (f : nat) (addr n i : Z) (fuel : nat) (s : State)
  : Outcome Z :=
  if i <? n then
    match fuel with
    | O => OutOfFuel s
    | S k =>
        match file_write_turn f addr n i k s with
        | Done (inl i') s' => file_write_loop f addr n i' k s'
        | Done (inr i') s' => Done (if i' =? n then n else -1) s'
        | Panic msg s' => Panic msg s'
        | Fault s' => Fault s'
        | OutOfFuel s' => OutOfFuel s'
        end
    end
  else Done (if i =? n then n else -1) s.

Definition file_write (f : nat) (addr n : Z) : M Z :=
  fl <- getf f ;;
  if negb (writable fl) then ret (-1)
  else if decide (type fl = FD_INODE) then file_write_loop f addr n 0
  else panic "file_write: unsupported type.".

(** *** proc.c: reparent, exit, yield, wakeup *)

(** [initproc] is set once, by [user_init], before any process runs. *)
Variable initproc : option nat.

Fixpoint reparent_scan (n i : nat) (p : nat) : M unit :=
  match n with
  | O => ret tt
  | S n' =>
      pc <- getp i ;;
      (if decide (parent pc = Some p) then modp i (set_parent initproc)
       else ret tt) ;;;
      reparent_scan n' (S i) p
  end.

(** Pass [p]'s abandoned children to [initproc]. *)
Definition reparent (p : nat) : M unit :=
  n <- gets (fun s => length (ptable s)) ;;
  reparent_scan n 0 p.

(** [for (fd = 0; fd < NOFILE; ++fd)] of [exit]. *)
Fixpoint exit_files (n fd : nat) (p : nat) : M unit :=
  match n with
  | O => ret tt
  | S n' =>
      pp <- getp p ;;
      match ofile pp !! fd with
      | Some (Some f) =>
          file_close f ;;;
          modp p (fun q => set_ofile (<[fd := None]> (ofile q)) q)
      | _ => ret tt
      end ;;;
      exit_files n' (S fd) p
  end.

Variable swtch : State -> State.

(** Exit the current process. Does not return. *)
Definition exit (status : Z) : M unit :=
  p <- thisproc ;;
  if decide (Some p = initproc) then panic "exit: initproc exiting."
  else
    pp <- getp p ;;
    exit_files (length (ofile pp)) 0 p ;;;
    ext_ begin_op ;;;
    pp <- getp p ;;
    ext_ (iput (cwd pp)) ;;;
    modp p (set_cwd 0) ;;;
    ext_ end_op ;;;
    acquire wait_lock set_wait_lock ;;;
    reparent p ;;;
    acquire_slot p ;;;
    modp p (set_xstate status) ;;;
    modp p (set_state ZOMBIE) ;;;
    release set_wait_lock ;;;
    sched swtch ;;;
    panic "exit: zombie returned!".

(** Give up the CPU for one scheduling round. *)
Definition yield : M unit :=
  p <- thisproc ;;
  acquire_slot p ;;;
  modp p (set_state RUNNABLE) ;;;
  sched swtch ;;;
  release_slot p.

(** Wake up all processes sleeping on [c]. *)
Fixpoint wakeup_scan (n i : nat) (c : option nat) : M unit :=
  match n with
  | O => ret tt
  | S n' =>
      me <- thisproc ;;
      (if decide (i = me) then ret tt
       else
         acquire_slot i ;;;
         p <- getp i ;;
         (if decide (state p = SLEEPING /\ chan p = c)
          then modp i (set_state RUNNABLE) else ret tt) ;;;
         release_slot i) ;;;
      wakeup_scan n' (S i) c
  end.

Definition wakeup (c : option nat) : M unit :=
  n <- gets (fun s => length (ptable s)) ;;
  wakeup_scan n 0 c.

(** *** sysproc.c *)

Definition sys_yield : M Z :=
  yield ;;;
  ret 0.

Definition sys_clone : M Z :=
  r1 <- argint 0 ;;
  let flag := snd r1 in
  if fst r1 <? 0 then ret (-1)
  else
    r2 <- argint 1 ;;
    if fst r2 <? 0 then ret (-1)
    else if negb (flag =? 17) then
      cprintf "sys_clone: flags other than SIGCHLD are not supported." [] ;;;
      ret (-1)
    else fork.

(** The arguments are [uint64_t], so [pid != -1] compares with 2^64-1. *)
Definition sys_wait4 : M Z :=
  r1 <- argint 0 ;;
  if fst r1 <? 0 then ret (-1)
  else
    r2 <- argint 1 ;;
    if fst r2 <? 0 then ret (-1)
    else
      r3 <- argint 2 ;;
      if fst r3 <? 0 then ret (-1)
      else
        r4 <- argint 3 ;;
        if fst r4 <? 0 then ret (-1)
        else
          let pid := snd r1 in
          let wstatus := snd r2 in
          let opt := snd r3 in
          let rusage := snd r4 in
          if negb (pid =? u64 (-1)) || negb (wstatus =? 0)
             || negb (opt =? 0) || negb (rusage =? 0) then
            cprintf "sys_wait4: unimplemented. pid %d, wstatus 0x%p, opt 0x%x, rusage 0x%p"
              [pid; wstatus; opt; rusage] ;;;
            ret (-1)
          else wait swtch.

Definition sys_exit : M Z :=
  exit 0 ;;;
  ret 0.

End Lifecycle.

(** *** string.h, on byte memory *)

(** [*p = c] *)
Definition poke (m : Z -> Z) (a c : Z) : Z -> Z :=
  fun x => if x =? a then c else m x.

(** [while (n-- > 0) *d++ = *s++;] *)
Fixpoint copy_up (m : Z -> Z) (d s : Z) (n : nat) : Z -> Z :=
  match n with
  | O => m
  | S k => copy_up (poke m d (m s)) (d + 1) (s + 1) k
  end.

(** [while (n-- > 0) *--d = *--s;] *)
Fixpoint copy_down (m : Z -> Z) (d s : Z) (n : nat) : Z -> Z :=
  match n with
  | O => m
  | S k => copy_down (poke m (d - 1) (m (s - 1))) (d - 1) (s - 1) k
  end.

(** [memmove(dst, src, n)] ([n] a [size_t]); [memcpy] is the same
    function. *)
Definition memmove (m : Z -> Z) (dst src n : Z) : Z -> Z :=
  if (src <? dst) && (dst <? src + n)
  then copy_down m (dst + n) (src + n) (Z.to_nat n)
  else copy_up m dst src (Z.to_nat n).

(** [while (--m >= 0) *p++ = c;] with [m] counted down from its start
    value; the byte stored is [c] converted to [char]. *)
Fixpoint fill (m : Z -> Z) (p c : Z) (n : nat) : Z -> Z :=
  match n with
  | O => m
  | S k => fill (poke m p (c mod 256)) (p + 1) c k
  end.

(** [memset(v, c, n)]: the count is first narrowed to [int m = n]; the
    loop then runs [m] times for [m >= 0] and not at all for [m < 0],
    except that [--m] wraps around at INT_MIN and the loop runs 2^31
    times. *)
Definition memset (m : Z -> Z) (v c n : Z) : Z -> Z :=
  let m0 := i32 n in
  fill m v c (Z.to_nat (if m0 =? INT_MIN then INT_MAX + 1 else m0)).

(** [memcmp(v1, v2, n)] on [uint8_t]; [n] steps are left. *)
Fixpoint memcmp (m : Z -> Z) (s1 s2 : Z) (n : nat) : Z :=
  match n with
  | O => 0
  | S k =>
      if negb (m s1 mod 256 =? m s2 mod 256) then m s1 mod 256 - m s2 mod 256
      else memcmp m (s1 + 1) (s2 + 1) k
  end.

(** [strnlen(s, size)]: the count [n] is an [int]. *)
Fixpoint strnlen_from (m : Z -> Z) (s : Z) (size : nat) (n : Z) : Z :=
  match size with
  | O => n
  | S k => if m s mod 256 =? 0 then n else strnlen_from m (s + 1) k (i32 (n + 1))
  end.

Definition strnlen (m : Z -> Z) (s size : Z) : Z :=
  strnlen_from m s (Z.to_nat size) 0.

(** *** Vocabulary of the further statements *)

(** What [reparent p] does to a slot. *)
Definition adopt (initproc : option nat) (p : nat) (q : proc) : proc :=
  if decide (parent q = Some p) then set_parent initproc q else q.

(** What [wakeup c] does to slot [j] when called by the process in slot
    [me]. *)
Definition wake (me : nat) (c : option nat) (j : nat) (q : proc) : proc :=
  if decide (j = me) then q
  else if decide (state q = SLEEPING /\ chan q = c) then set_state RUNNABLE q
  else q.

(** The table after [wakeup c]; [i] is the index of the first slot of
    the list. *)
Fixpoint wake_from (me : nat) (c : option nat) (i : nat) (l : list proc) : list proc :=
  match l with
  | [] => []
  | q :: r => wake me c i q :: wake_from me c (S i) r
  end.

(** The number of descriptors in [l] that refer to file [f]. *)
Fixpoint opens (f : nat) (l : list (option nat)) : Z :=
  match l with
  | [] => 0
  | o :: r => (if decide (o = Some f) then 1 else 0) + opens f r
  end.

(** The descriptors in [l] can all be closed: each file they refer to is
    an inode file with at least as many references as [l] has
    descriptors for it. *)
Definition closable {E : Extern} (l : list (option nat)) (s : State) : Prop :=
  forall f, 0 < opens f l ->
    exists fl, ftable s !! f = Some fl /\ type fl = FD_INODE
               /\ opens f l <= ref fl <= INT_MAX.

(** A computation that returns in no state and with no amount of fuel. *)
Definition never_returns {E : Extern} {A} (m : M A) : Prop :=
  forall fuel s a s', m fuel s <> Done a s'.

(** ** A concrete machine for examples *)

Module Demo.

(** The trap frame as [trapframe_dump] prints it (sp_el0, spsr_el1,
    elr_el1, x0..x30); a context of the callee-saved x19..x30. *)
#[export] Instance layout : Layout := {|
  KSTACKSIZE := 4096;
  TF_WORDS := 34;
  TF_X0 := 3;
  CTX_WORDS := 12;
  CTX_X30 := 11;
  FORKRET := 524288;
  MAXARG := 32
|}.

(** A page allocator handing out a list of free pages, and a VM module
    that maps at most [limit] bytes of user memory. *)
Record world := mkWorld { free_pages : list Z; limit : Z }.

#[export] Instance extern : Extern := {|
  World := world;
  kalloc w :=
    match free_pages w with
    | pg :: rest => (pg, mkWorld rest (limit w))
    | [] => (0, w)
    end;
  kfree pg w := mkWorld (pg :: free_pages w) (limit w);
  vm_free _ _ w := w;
  uvm_copy _ _ n w := (if n <=? limit w then 0 else -1, w);
  uvm_alloc _ oldsz newsz w :=
    (if (oldsz <=? newsz) && (newsz <=? limit w) then newsz else 0, w);
  uvm_dealloc _ oldsz newsz w := (if newsz <=? oldsz then newsz else 0, w);
  uvm_switch _ w := w;
  idup i w := (i, w)
|}.

Definition proc0 : proc :=
  mkProc false UNUSED 0 None None 0 0 0 0 0 0 0 [None; None] 0 (replicate 16 0).

(** The state at boot: every slot UNUSED, [nextpid] 1, all locks free. *)
Definition boot : State :=
  mkState [proc0; proc0; proc0] 0 1 false false false []
    (fun _ => 0) (fun _ => 0) (mkWorld [65536; 69632; 73728] 1048576) [] [].

(** A running first process: slot 0, PID 1, [sz] bytes of user memory,
    its trap frame at address [TF]. *)
Definition TF : Z := 131072.

Definition init (szv : Z) : proc :=
  mkProc false RUNNING 1 None None 0 0 szv 12288 65536 TF (TF - 96)
    [None; None] 0 ([105; 110; 105; 116] ++ replicate 12 0).

(** Kernel memory holding a trap frame with the given x0, x1, x2, x8. *)
Definition frame (x0 x1 x2 x8 : Z) : Z -> Z :=
  fun a =>
    if a =? TF + 24 then x0
    else if a =? TF + 32 then x1
    else if a =? TF + 40 then x2
    else if a =? TF + 88 then x8
    else 0.

Definition machine (tbl : list proc) (um km : Z -> Z) : State :=
  mkState tbl 0 2 false false false [mkFile 1 FD_INODE true true 9 0]
    um km (mkWorld [69632; 73728] 1048576) [] [].

(** The first process inside a system call with x0 = 77, x1 = 4096,
    x2 = 0 and the unassigned system-call number 999 in x8. *)
Definition running : State :=
  machine [init 4096; proc0; proc0] (fun _ => 0) (frame 77 4096 0 999).

(** A slot in use that has a file open and a working directory. *)
Definition busy : proc :=
  mkProc true RUNNABLE 2 (Some 0%nat) None 0 0 4096 16384 69632 (TF + 4096)
    (TF + 4000) [Some 0%nat; None] 5 (replicate 16 0).

Definition with_busy : State :=
  machine [init 4096; busy; proc0] (fun _ => 0) (frame 0 0 0 0).

(** A child of the first process that has exited with status 7; its
    lock is free. *)
Definition zombie : proc :=
  mkProc false ZOMBIE 2 (Some 0%nat) None 0 7 4096 16384 69632 (TF + 4096)
    (TF + 4000) [None; None] 0 (replicate 16 0).

Definition with_zombie : State :=
  machine [init 4096; zombie; proc0] (fun _ => 0) (frame 0 0 0 0).

(** User memory for [exec]: the string "a" at address 16, and at address
    256 an array of [n] pointers to it, followed by NULL. *)
Definition argv_mem (n : Z) : Z -> Z :=
  fun a =>
    if a =? 16 then 97
    else if (256 <=? a) && (a <? 256 + 8 * n) && (a mod 8 =? 0) then 16
    else 0.

(** The first process calling [exec] with path 16 and argv 256. *)
Definition in_exec (n : Z) : State :=
  machine [init 4096; proc0; proc0] (argv_mem n) (frame 0 16 256 221).

(** Stand-ins for the parts that the statements leave open. *)
Definition execve : Z -> list Z -> Z -> M Z := fun _ _ _ => ret 0.
Definition swtch : State -> State := fun s => s.

(** A file system that accepts every write in full and has nothing to
    read. *)
#[export] Instance externfs : ExternFs := {|
  begin_op w := w;
  end_op w := w;
  iput _ w := w;
  ilock _ w := w;
  iunlock _ w := w;
  readi _ _ _ _ m w := (0, m, w);
  writei _ _ _ n _ w := (n, w)
|}.

(** The first process inside system call 1. *)
Definition calling : State :=
  machine [init 4096; proc0; proc0] (fun _ => 0) (frame 0 0 0 1).

(** A table without an UNUSED slot. *)
Definition full : State :=
  machine [init 4096; zombie] (fun _ => 0) (frame 0 0 0 0).

(** A scheduler that resumes the process at once. *)
Definition resume (s : State) : State :=
  set_ptable (alter (set_state RUNNING) (cur s) (ptable s)) s.

(** A scheduler that resumes the process after the process in slot 1
    has exited. *)
Definition child_exits (s : State) : State :=
  set_ptable (<[1%nat := zombie]> (ptable (resume s))) (resume s).

(** A child of the first process asleep on its parent's slot. *)
Definition sleeper : proc :=
  mkProc false SLEEPING 2 (Some 0%nat) (Some 0%nat) 0 0 4096 16384 69632
    (TF + 4096) (TF + 4000) [None; None] 0 (replicate 16 0).

Definition with_sleeper : State :=
  machine [init 4096; sleeper; proc0] (fun _ => 0) (frame 0 0 0 0).

(** A file table whose second entry is free. *)
Definition with_files : State :=
  set_ftable [mkFile 1 FD_INODE true true 9 0; mkFile 0 FD_NONE false false 0 0]
    running.

(** The second process running, with file 0 open on two descriptors and
    a child of its own in slot 2. *)
Definition kid : proc :=
  mkProc false RUNNING 2 (Some 0%nat) None 0 0 4096 16384 69632 (TF + 4096)
    (TF + 4000) [Some 0%nat; Some 0%nat] 5 (replicate 16 0).

Definition grandkid : proc :=
  mkProc false RUNNABLE 3 (Some 1%nat) None 0 0 4096 20480 73728 (TF + 8192)
    (TF + 8096) [None; None] 0 (replicate 16 0).

Definition in_kid : State :=
  mkState [init 4096; kid; grandkid] 1 4 false false false
    [mkFile 2 FD_INODE true true 9 0]
    (fun _ => 0) (fun _ => 0) (mkWorld [] 1048576) [] [].

(** The first process calling [clone] with the flag in x1. *)
Definition cloning (flag : Z) : State :=
  machine [init 4096; proc0; proc0] (fun _ => 0) (frame 0 flag 0 220).

(** The first process calling [wait4] with the PID in x1. *)
Definition waiting (pidv : Z) : State :=
  machine [init 4096; proc0; proc0] (fun _ => 0) (frame 0 pidv 0 260).

(** Bytes 0, 1, 2, ... *)
Definition ramp : Z -> Z := fun a => a mod 256.

End Demo.

(** ** Facts *)

Section Facts.

Context {L : Layout} {E : Extern}.

Lemma acquire_free (held : State -> bool) (set : bool -> State -> State) fuel s :
  held s = false -> acquire held set fuel s = Done tt (set true s).
Proof.
  intros H. unfold acquire, bind, modify.
  destruct fuel; simpl; rewrite H; reflexivity.
Qed.

(** A loop whose condition holds and whose body changes nothing never
    ends: it is still running when any amount of fuel is used up. *)
Lemma while_spin (cond : State -> bool) fuel s :
  cond s = true -> while_ cond (ret tt) fuel s = OutOfFuel s.
Proof.
  intros H. induction fuel as [|k IH]; simpl; rewrite H; [reflexivity|].
  unfold ret at 1. exact IH.
Qed.

Lemma acquire_held (held : State -> bool) (set : bool -> State -> State) fuel s :
  held s = true -> acquire held set fuel s = OutOfFuel s.
Proof.
  intros H. unfold acquire, bind. rewrite while_spin by exact H. reflexivity.
Qed.

(** One mint with the lock free. *)
Lemma pid_next_free fuel s :
  pid_lock s = false ->
  pid_next fuel s =
    Done (nextpid s)
      (set_pid_lock false (set_nextpid (i32 (nextpid s + 1)) (set_pid_lock true s))).
Proof.
  intros H. unfold pid_next. unfold bind at 1.
  rewrite acquire_free by exact H. reflexivity.
Qed.

Lemma i32_small z : INT_MIN <= z <= INT_MAX -> i32 z = z.
Proof.
  unfold i32, INT_MIN, INT_MAX. intros H.
  change (2 ^ 31) with 2147483648. change (2 ^ 32) with 4294967296.
  rewrite Z.mod_small by lia. lia.
Qed.

(** While [nextpid] stays within [int], [k] mints return the next [k]
    integers and leave the lock free. *)
Lemma pid_next_n_seq k : forall fuel s,
  pid_lock s = false ->
  INT_MIN <= nextpid s ->
  nextpid s + Z.of_nat k - 1 <= INT_MAX ->
  exists s', pid_next_n k fuel s = Done (seqZ (nextpid s) (Z.of_nat k)) s'
             /\ pid_lock s' = false
             /\ (nextpid s + Z.of_nat k <= INT_MAX ->
                 nextpid s' = nextpid s + Z.of_nat k).
Proof.
  induction k as [|k IH]; intros fuel s Hl Hlo Hhi.
  - exists s. cbn [pid_next_n]. unfold ret. rewrite seqZ_nil by lia.
    repeat split; [exact Hl | lia].
  - cbn [pid_next_n]. unfold bind at 1. rewrite pid_next_free by exact Hl.
    set (s1 := set_pid_lock false _).
    rewrite (seqZ_cons (nextpid s)) by lia.
    replace (Z.pred (Z.of_nat (S k))) with (Z.of_nat k) by lia.
    destruct k as [|k].
    + exists s1. cbn [pid_next_n]. unfold bind, ret.
      rewrite seqZ_nil by lia. repeat split.
      intros Hle. subst s1. cbn. rewrite i32_small; unfold INT_MIN, INT_MAX in *; lia.
    + assert (Hn1 : nextpid s1 = nextpid s + 1).
      { subst s1. cbn. apply i32_small. unfold INT_MIN, INT_MAX in *. lia. }
      destruct (IH fuel s1) as (s' & Hrun & Hl' & Hn'); [reflexivity | lia | lia |].
      exists s'. unfold bind. rewrite Hrun. unfold ret.
      rewrite Hn1. repeat split; [exact Hl' |].
      intros Hle. rewrite Hn' by lia. lia.
Qed.

(** C9 (as amended). From a state with [nextpid] positive (it is 1 at
    boot) and [pid_lock] free, as long as the counter has not passed
    INT_MAX, every call of the PID minter returns a value strictly greater
    than all values returned before, every PID is positive, and the lock
    is free again afterwards. *)
Theorem pid_next_strictly_increasing (k fuel : nat) (s : State) :
  pid_lock s = false ->
  0 < nextpid s ->
  nextpid s + Z.of_nat k - 1 <= INT_MAX ->
  exists pids s',
    pid_next_n k fuel s = Done pids s'
    /\ length pids = k
    /\ (forall i j x y, (i < j)%nat ->
          pids !! i = Some x -> pids !! j = Some y -> x < y)
    /\ (forall i x, pids !! i = Some x -> 0 < x)
    /\ pid_lock s' = false.
Proof.
  intros Hl Hpos Hhi.
  destruct (pid_next_n_seq k fuel s) as (s' & Hrun & Hl' & _);
    [exact Hl | unfold INT_MIN; lia | exact Hhi |].
  exists (seqZ (nextpid s) (Z.of_nat k)), s'.
  split; [exact Hrun|]. split; [rewrite length_seqZ; lia|].
  split; [|split; [|exact Hl']].
  - intros i j x y Hij Hx Hy.
    apply lookup_seqZ in Hx, Hy. lia.
  - intros i x Hx. apply lookup_seqZ in Hx. lia.
Qed.

(** *** Stepping through slot reads and writes *)

Ltac look H :=
  repeat first
    [ rewrite H
    | rewrite list_lookup_insert_eq
        by (rewrite ?length_insert; exact (lookup_lt_Some _ _ _ H)) ].

Ltac kunfold :=
  unfold bind, ret, gets, modify, thisproc, cprintf, ext, ext_, release,
    load, store, getp, modp, panic, fault.

Ltac ksimpl H := kunfold; cbn; repeat (progress (look H; cbn)).

(** Normal form of a state or slot expression: the constructor applied to
    the fields. *)
Ltac snorm :=
  cbv [set_ptable set_nextpid set_pid_lock set_wait_lock set_ftable_lock
       set_ftable set_kmem set_world set_console set_free_log
       ptable cur nextpid pid_lock wait_lock ftable_lock ftable umem kmem
       world console free_log
       set_lock set_state set_pid set_parent set_chan set_killed set_xstate
       set_sz set_pgdir set_kstack set_tf set_context set_ofile set_cwd set_name
       lock state pid parent chan killed xstate sz pgdir kstack tf context
       ofile cwd name].

(** *** proc_free *)

Lemma proc_free_run i fuel s p :
  ptable s !! i = Some p ->
  proc_free i fuel s =
    Done tt (set_world (free_world p (world s))
              (set_ptable (<[i := freed p]> (ptable s))
                (set_free_log ((i, lock p) :: free_log s) s))).
Proof.
  intros H. unfold proc_free, slot_held, free_world.
  ksimpl H.
  destruct (kstack p =? 0); ksimpl H;
    destruct (pgdir p =? 0); ksimpl H;
    rewrite ?list_insert_insert_eq; reflexivity.
Qed.

(** C2 (as amended). [proc_free] on a slot leaves its state UNUSED and
    clears kstack, pgdir, pid, parent, chan, killed, xstate, sz, tf and
    the first character of name; it leaves ofile, cwd and the lock as
    they were. *)
Theorem proc_free_clears (i fuel : nat) (s : State) (p : proc) :
  ptable s !! i = Some p ->
  exists s' q,
    proc_free i fuel s = Done tt s'
    /\ ptable s' !! i = Some q
    /\ state q = UNUSED /\ kstack q = 0 /\ pgdir q = 0
    /\ pid q = 0 /\ parent q = None /\ chan q = None
    /\ killed q = 0 /\ xstate q = 0 /\ sz q = 0 /\ tf q = 0
    /\ name q = <[0%nat := 0]> (name p)
    /\ ofile q = ofile p /\ cwd q = cwd p /\ lock q = lock p.
Proof.
  intros H. rewrite (proc_free_run i fuel s p H).
  eexists _, (freed p). split; [reflexivity|]. cbn. look H.
  repeat split.
Qed.

(** *** growproc and sys_brk *)

(** [growproc] returns -1 exactly when the VM module refuses, and then
    the process table is untouched; otherwise it returns 0. *)
Lemma growproc_cases n fuel s p :
  ptable s !! cur s = Some p ->
  exists r s',
    growproc n fuel s = Done r s'
    /\ cur s' = cur s
    /\ ((r = -1 /\ vm_refuses n p s /\ ptable s' = ptable s)
        \/ (r = 0 /\ ~ vm_refuses n p s)).
Proof.
  intros H. unfold growproc, vm_refuses. ksimpl H.
  destruct (0 <? n) eqn:Hpos.
  - apply Z.ltb_lt in Hpos. ksimpl H.
    destruct (uvm_alloc _ _ _ _) as [r w] eqn:Hu. cbn.
    destruct (r =? 0) eqn:Hr; ksimpl H.
    + apply Z.eqb_eq in Hr. eexists _, _. split; [reflexivity|].
      split; [reflexivity|]. left. cbn. auto.
    + apply Z.eqb_neq in Hr. eexists _, _. split; [reflexivity|].
      split; [reflexivity|]. right. split; [reflexivity|]. cbn. lia.
  - apply Z.ltb_ge in Hpos. destruct (n <? 0) eqn:Hneg.
    + apply Z.ltb_lt in Hneg. ksimpl H.
      destruct (uvm_dealloc _ _ _ _) as [r w] eqn:Hu. cbn.
      destruct (r =? 0) eqn:Hr; ksimpl H.
      * apply Z.eqb_eq in Hr. eexists _, _. split; [reflexivity|].
        split; [reflexivity|]. left. cbn. auto.
      * apply Z.eqb_neq in Hr. eexists _, _. split; [reflexivity|].
        split; [reflexivity|]. right. split; [reflexivity|]. cbn. lia.
    + apply Z.ltb_ge in Hneg. ksimpl H.
      eexists _, _. split; [reflexivity|]. split; [reflexivity|].
      right. split; [reflexivity|]. lia.
Qed.

(** C3. Whenever [growproc n] fails, that is the VM module's [uvm_alloc]
    or [uvm_dealloc] reports failure, [growproc] returns -1 and the
    current process's [sz] is unchanged. *)
Theorem growproc_failure_keeps_sz (n : Z) (fuel : nat) (s : State) (p : proc) :
  ptable s !! cur s = Some p ->
  vm_refuses n p s ->
  exists s' q,
    growproc n fuel s = Done (-1) s'
    /\ ptable s' !! cur s' = Some q
    /\ sz q = sz p.
Proof.
  intros H Hv.
  destruct (growproc_cases n fuel s p H) as (r & s' & Hrun & Hc & [(-> & _ & Ht) | (_ & Hn)]).
  - exists s', p. rewrite Hc, Ht. auto.
  - contradiction.
Qed.

(** [argint] does not check its index from below. *)
Lemma argint_le3 n fuel s p :
  n <= 3 ->
  ptable s !! cur s = Some p ->
  argint n fuel s = Done (0, u64 (kmem s (tf p + 8 * (TF_X0 + 1) + 8 * n))) s.
Proof.
  intros Hn H. unfold argint.
  destruct (3 <? n) eqn:E3; [apply Z.ltb_lt in E3; lia|].
  ksimpl H. reflexivity.
Qed.

(** C10. [sys_brk] cannot fail in fetching its argument ([argint 0] always succeeds); when
    [growproc] fails it returns -1 (as a [size_t], i.e. 2^64-1) and [sz]
    is unchanged; when [growproc] succeeds it returns the size the
    address space had before the call. *)
Theorem sys_brk_result (fuel : nat) (s : State) (p : proc) :
  ptable s !! cur s = Some p ->
  let n := i32 (u64 (kmem s (tf p + 8 * (TF_X0 + 1) + 8 * 0))) in
  exists rc r s' q,
    growproc n fuel s = Done rc s'
    /\ sys_brk fuel s = Done r s'
    /\ ptable s' !! cur s' = Some q
    /\ (rc < 0 -> r = u64 (-1) /\ sz q = sz p)
    /\ (~ rc < 0 -> r = sz p).
Proof.
  intros H n.
  destruct (growproc_cases n fuel s p H) as (rc & s' & Hrun & Hc & Hcases).
  unfold sys_brk. unfold bind at 1. rewrite (argint_le3 0 fuel s p) by (lia || exact H).
  cbn [fst snd]. change (0 <? 0) with false. cbn match.
  unfold bind at 1, thisproc, gets. unfold bind at 1, getp. rewrite H.
  unfold bind at 1. fold n. rewrite Hrun.
  destruct Hcases as [(-> & _ & Ht) | (-> & _)]; cbn.
  - exists (-1), (u64 (-1)), s', p. rewrite Hc, Ht.
    repeat split; auto; lia.
  - assert (Hq : exists q, ptable s' !! cur s' = Some q).
    { revert Hrun. unfold growproc. ksimpl H.
      destruct (0 <? n); ksimpl H.
      - destruct (uvm_alloc _ _ _ _) as [r w]. cbn.
        destruct (r =? 0); ksimpl H; intros [= <-]; cbn; look H; eauto.
      - destruct (n <? 0); ksimpl H.
        + destruct (uvm_dealloc _ _ _ _) as [r w]. cbn.
          destruct (r =? 0); ksimpl H; intros [= <-]; cbn; look H; eauto.
        + intros [= <-]; cbn; look H; eauto. }
    destruct Hq as [q Hq].
    exists 0, (sz p), s', q. repeat split; auto; lia.
Qed.

(** *** Argument fetching *)

(** C5 (what the code does below the range). For every index [n <= 3],
    negative ones included, [argint] does not panic: it returns 0 and
    yields the word at [&tf->x1 + n]. For [n = -1] that is the word in
    front of x1, for smaller [n] memory in front of the register file. *)
Theorem argint_unchecked_below (n : Z) (fuel : nat) (s : State) (p : proc) :
  n <= 3 ->
  ptable s !! cur s = Some p ->
  argint n fuel s = Done (0, u64 (kmem s (tf p + 8 * (TF_X0 + 1) + 8 * n))) s.
Proof. apply argint_le3. Qed.

(** Above the range [argint] panics. *)
Lemma argint_above_panics n fuel s :
  3 < n ->
  argint n fuel s = Panic "argint: too many system call parameters." s.
Proof.
  intros Hn. unfold argint.
  destruct (3 <? n) eqn:E3; [reflexivity | apply Z.ltb_ge in E3; lia].
Qed.

Lemma fetchint_in_bounds addr ip0 fuel s p :
  ptable s !! cur s = Some p ->
  addr < sz p -> u64 (addr + 8) <= sz p ->
  fetchint addr ip0 fuel s = Done (0, i64 (load_le (umem s) addr 8)) s.
Proof.
  intros H H1 H2. unfold fetchint. kunfold. cbn. rewrite H.
  destruct (sz p <=? addr) eqn:E1; [apply Z.leb_le in E1; lia|].
  destruct (sz p <? u64 (addr + 8)) eqn:E2; [apply Z.ltb_lt in E2; lia|].
  reflexivity.
Qed.

(** C6 (as amended). [fetchint addr] returns 0 with the 8 bytes at
    [addr] in [*ip] when [addr < sz] and [addr + 8 <= sz], so also when
    [addr + 8] equals [sz]; it returns -1 and leaves [*ip] alone when
    [addr >= sz] or [addr + 8 > sz]. The sum is taken modulo 2^64. *)
Theorem fetchint_bounds (addr ip0 : Z) (fuel : nat) (s : State) (p : proc) :
  ptable s !! cur s = Some p ->
  (addr < sz p /\ u64 (addr + 8) <= sz p ->
     fetchint addr ip0 fuel s = Done (0, i64 (load_le (umem s) addr 8)) s)
  /\ (sz p <= addr \/ sz p < u64 (addr + 8) ->
     fetchint addr ip0 fuel s = Done (-1, ip0) s)
  /\ (0 <= addr -> addr + 8 = sz p -> sz p < 2 ^ 64 ->
     fetchint addr ip0 fuel s = Done (0, i64 (load_le (umem s) addr 8)) s).
Proof.
  intros H.
  assert (Hok : addr < sz p /\ u64 (addr + 8) <= sz p ->
     fetchint addr ip0 fuel s = Done (0, i64 (load_le (umem s) addr 8)) s).
  { intros [H1 H2]. apply (fetchint_in_bounds addr ip0 fuel s p H H1 H2). }
  split; [exact Hok|]. split.
  - intros Hout. unfold fetchint. kunfold. cbn. rewrite H.
    destruct (sz p <=? addr) eqn:E1; [reflexivity|].
    destruct (sz p <? u64 (addr + 8)) eqn:E2; [reflexivity|].
    apply Z.leb_gt in E1. apply Z.ltb_ge in E2. lia.
  - intros H0 Heq Hlt. apply Hok. unfold u64.
    rewrite Z.mod_small by lia. lia.
Qed.

(** *** System-call dispatch *)

(** C4. When the system-call number in x8 is beyond the dispatch table
    or indexes a null entry, [syscall1] logs the unknown-syscall message
    and then loops: whatever the fuel, it is still looping when the fuel
    is used up, and it never returns. *)
Theorem syscall1_unknown_never_returns
    (syscalls : list (option (M Z))) (tfp : Z) (fuel : nat) (s : State) (p : proc) :
  ptable s !! cur s = Some p ->
  let sysno := u64 (kmem s (tfp + 8 * (TF_X0 + 8))) in
  (Z.of_nat (length syscalls) <= sysno \/ syscalls !! Z.to_nat sysno = Some None) ->
  exists s',
    syscall1 syscalls tfp fuel s = OutOfFuel s'
    /\ console s' =
         ("syscall: unknown syscall %d from proc %d"%string, [sysno; pid p]) :: console s
    /\ forall r s'', syscall1 syscalls tfp fuel s <> Done r s''.
Proof.
  intros H sysno Hbad.
  assert (Hrun : exists s', syscall1 syscalls tfp fuel s = OutOfFuel s'
    /\ console s' =
         ("syscall: unknown syscall %d from proc %d"%string, [sysno; pid p]) :: console s).
  { unfold syscall1. ksimpl H. fold sysno.
    assert (Hsel : (if (0 <=? sysno) && (sysno <? Z.of_nat (length syscalls))
                    then syscalls !! Z.to_nat sysno else None) = None
                   \/ (if (0 <=? sysno) && (sysno <? Z.of_nat (length syscalls))
                    then syscalls !! Z.to_nat sysno else None) = Some None).
    { destruct Hbad as [Hge | Hnull].
      - left. destruct (sysno <? Z.of_nat (length syscalls)) eqn:E1;
          [apply Z.ltb_lt in E1; lia|]. rewrite andb_false_r. reflexivity.
      - destruct ((0 <=? sysno) && (sysno <? Z.of_nat (length syscalls))); auto. }
    destruct Hsel as [-> | ->]; rewrite while_spin by reflexivity;
      eexists; split; reflexivity. }
  destruct Hrun as (s' & Hrun & Hlog). exists s'.
  split; [exact Hrun|]. split; [exact Hlog|].
  intros r s''. rewrite Hrun. discriminate.
Qed.

(** *** proc_alloc and fork *)

Lemma set_ptable_id s : set_ptable (ptable s) s = s.
Proof. destruct s; reflexivity. Qed.

Lemma set_lock_id p : set_lock (lock p) p = p.
Proof. destruct p; reflexivity. Qed.

Lemma slot_set_true i s p :
  ptable s !! i = Some p ->
  slot_set i true s = set_ptable (<[i := set_lock true p]> (ptable s)) s.
Proof. intros H. unfold slot_set. rewrite H. reflexivity. Qed.

(** Taking and releasing the lock of a slot that was free changes
    nothing. *)
Lemma slot_lock_unlock i s p :
  ptable s !! i = Some p -> lock p = false ->
  slot_set i false (slot_set i true s) = s.
Proof.
  intros H Hl. unfold slot_set. rewrite H. cbn. look H. cbn.
  rewrite list_insert_insert_eq.
  replace (set_lock false (set_lock true p)) with p
    by (rewrite <- (set_lock_id p) at 1; rewrite Hl; reflexivity).
  rewrite list_insert_id by exact H. destruct s; reflexivity.
Qed.

Local Arguments acquire : simpl never.
Local Arguments pid_next : simpl never.
Local Arguments proc_free : simpl never.

(** The scan of [proc_alloc] passes over slots in use and stops at the
    first UNUSED one, with that slot's lock taken. *)
Lemma proc_alloc_scan_first n : forall i fuel s np q0,
  (i <= np < i + n)%nat ->
  (forall j q, (i <= j < np)%nat -> ptable s !! j = Some q ->
               state q <> UNUSED /\ lock q = false) ->
  ptable s !! np = Some q0 -> state q0 = UNUSED -> lock q0 = false ->
  proc_alloc_scan n i fuel s = proc_alloc_slot np fuel (slot_set np true s).
Proof.
  induction n as [|n IH]; intros i fuel s np q0 Hi Hbusy Hnp Hst Hlk; [lia|].
  cbn [proc_alloc_scan].
  destruct (decide (i = np)) as [->|Hne].
  - unfold bind at 1. unfold acquire_slot.
    rewrite acquire_free by (unfold slot_held; rewrite Hnp; exact Hlk).
    rewrite (slot_set_true np s q0 Hnp).
    unfold bind at 1, getp. cbn. look Hnp. cbn.
    rewrite Hst. rewrite decide_True by reflexivity. reflexivity.
  - assert (Hlt : (i < length (ptable s))%nat).
    { apply lookup_lt_Some in Hnp. lia. }
    destruct (lookup_lt_is_Some_2 _ _ Hlt) as [q Hq].
    destruct (Hbusy i q ltac:(lia) Hq) as [Hqs Hql].
    unfold bind at 1. unfold acquire_slot.
    rewrite acquire_free by (unfold slot_held; rewrite Hq; exact Hql).
    unfold bind at 1, getp.
    rewrite (slot_set_true i s q Hq) at 1. cbn [ptable set_ptable].
    look Hq. cbn [state set_lock].
    rewrite decide_False by exact Hqs.
    unfold bind at 1, release_slot, release, modify.
    rewrite (slot_lock_unlock i s q Hq Hql).
    apply (IH (S i) fuel s np q0); auto; try lia.
    intros j q' Hj. apply Hbusy. lia.
Qed.

(** The scan finds nothing when no slot is UNUSED. *)
Lemma proc_alloc_scan_none n : forall i fuel s,
  (i + n = length (ptable s))%nat ->
  (forall j q, (i <= j)%nat -> ptable s !! j = Some q ->
               state q <> UNUSED /\ lock q = false) ->
  proc_alloc_scan n i fuel s = Done None s.
Proof.
  induction n as [|n IH]; intros i fuel s Hlen Hbusy; [reflexivity|].
  cbn [proc_alloc_scan].
  destruct (lookup_lt_is_Some_2 (ptable s) i ltac:(lia)) as [q Hq].
  destruct (Hbusy i q ltac:(lia) Hq) as [Hqs Hql].
  unfold bind at 1. unfold acquire_slot.
  rewrite acquire_free by (unfold slot_held; rewrite Hq; exact Hql).
  unfold bind at 1, getp.
  rewrite (slot_set_true i s q Hq) at 1. cbn [ptable set_ptable].
  look Hq. cbn [state set_lock].
  rewrite decide_False by exact Hqs.
  unfold bind at 1, release_slot, release, modify.
  rewrite (slot_lock_unlock i s q Hq Hql).
  apply IH; [lia|]. intros j q' Hj. apply Hbusy. lia.
Qed.

(** Duplicating the descriptors only touches the file table and the
    child's [ofile]. *)
Lemma fork_files_run n : forall i fuel s p np pp q,
  p <> np ->
  ptable s !! p = Some pp -> ptable s !! np = Some q ->
  ftable_lock s = false ->
  files_live n pp s ->
  exists o t,
    fork_files n i p np fuel s =
      Done tt (set_ftable t (set_ptable (<[np := set_ofile o q]> (ptable s)) s)).
Proof.
  induction n as [|n IH]; intros i fuel s p np pp q Hne Hp Hnp Hfl Hlive.
  - exists (ofile q), (ftable s). cbn. unfold ret. f_equal.
    replace (set_ofile (ofile q) q) with q by (destruct q; reflexivity).
    rewrite list_insert_id by exact Hnp. destruct s; reflexivity.
  - cbn [fork_files]. unfold bind at 1. unfold bind at 1, getp. rewrite Hp.
    assert (Hlive' : files_live n pp s).
    { intros j f Hj. destruct (Hlive j f Hj) as (fl & ? & ? & ?).
      exists fl. repeat split; auto. lia. }
    destruct (ofile pp !! i) as [[f|]|] eqn:Hof.
    + destruct (Hlive i f Hof) as (fl & Hf & Hr1 & Hr2).
      unfold bind at 1, file_dup. unfold bind at 1.
      rewrite acquire_free by exact Hfl.
      unfold bind at 1, gets. cbn [ftable set_ftable_lock]. rewrite Hf.
      destruct (ref fl <? 1) eqn:E1; [apply Z.ltb_lt in E1; lia|].
      kunfold. cbn. look Hnp. cbn.
      set (fl' := mkFile _ _ _ _ _ _).
      set (q' := set_ofile _ q).
      match goal with |- context [fork_files _ _ _ _ _ ?x] => set (s2 := x) end.
      destruct (IH (S i) fuel s2 p np pp q') as (o & t & Hrun); auto.
      * subst s2. cbn. rewrite list_lookup_insert_ne by congruence. exact Hp.
      * subst s2. cbn. look Hnp. reflexivity.
      * intros j f0 Hj. destruct (Hlive j f0 Hj) as (fl0 & Hf0 & H1 & H2).
        subst s2. cbn. destruct (decide (f = f0)) as [<-|Hff].
        -- exists fl'. rewrite list_lookup_insert_eq by (eapply lookup_lt_Some; eauto).
           split; [reflexivity|]. subst fl'. cbn.
           assert (fl0 = fl) by congruence. subst fl0.
           rewrite i32_small by (unfold INT_MIN, INT_MAX in *; lia). lia.
        -- exists fl0. rewrite list_lookup_insert_ne by congruence.
           repeat split; auto. lia.
      * exists o, t. rewrite Hrun. subst s2 q'.
        cbn [ptable set_ptable set_ftable set_ftable_lock].
        rewrite list_insert_insert_eq.
        destruct s, q; cbn in Hfl; subst; reflexivity.
    + unfold ret at 1. cbv beta iota. apply (IH (S i) fuel s p np pp q); auto.
    + unfold ret at 1. cbv beta iota. apply (IH (S i) fuel s p np pp q); auto.
Qed.



(** *** Stepping lemmas: one primitive in front of a continuation *)

Section Steps.
Context {A B : Type}.

Lemma bind_ret (a : A) (k : A -> M B) fuel s : bind (ret a) k fuel s = k a fuel s.
Proof. reflexivity. Qed.

Lemma bind_gets (f : State -> A) (k : A -> M B) fuel s :
  bind (gets f) k fuel s = k (f s) fuel s.
Proof. reflexivity. Qed.

Lemma bind_ext (f : World -> A * World) (k : A -> M B) fuel s a w :
  f (world s) = (a, w) -> bind (ext f) k fuel s = k a fuel (set_world w s).
Proof. intros H. unfold bind, ext. rewrite H. reflexivity. Qed.

End Steps.

Section StepsUnit.
Context {B : Type}.

Lemma bind_modify (f : State -> State) (k : unit -> M B) fuel s :
  bind (modify f) k fuel s = k tt fuel (f s).
Proof. reflexivity. Qed.

Lemma bind_getp i (k : proc -> M B) fuel s p :
  ptable s !! i = Some p -> bind (getp i) k fuel s = k p fuel s.
Proof. intros H. unfold bind, getp. rewrite H. reflexivity. Qed.

Lemma bind_modp i f (k : unit -> M B) fuel s p :
  ptable s !! i = Some p ->
  bind (modp i f) k fuel s = k tt fuel (set_ptable (<[i := f p]> (ptable s)) s).
Proof. intros H. unfold bind, modp. rewrite H. reflexivity. Qed.

Lemma bind_acquire held set (k : unit -> M B) fuel s :
  held s = false -> bind (acquire held set) k fuel s = k tt fuel (set true s).
Proof. intros H. unfold bind. rewrite acquire_free by exact H. reflexivity. Qed.

Lemma bind_release_slot i (k : unit -> M B) fuel s p :
  ptable s !! i = Some p ->
  bind (release_slot i) k fuel s =
    k tt fuel (set_ptable (<[i := set_lock false p]> (ptable s)) s).
Proof.
  intros H. unfold release_slot, release, bind, modify, slot_set.
  rewrite H. reflexivity.
Qed.

Lemma bind_acquire_slot i (k : unit -> M B) fuel s p :
  ptable s !! i = Some p -> lock p = false ->
  bind (acquire_slot i) k fuel s =
    k tt fuel (set_ptable (<[i := set_lock true p]> (ptable s)) s).
Proof.
  intros H Hl. unfold acquire_slot.
  rewrite bind_acquire by (unfold slot_held; rewrite H; exact Hl).
  unfold slot_set. rewrite H. reflexivity.
Qed.

Lemma bind_proc_free i (k : unit -> M B) fuel s p :
  ptable s !! i = Some p ->
  bind (proc_free i) k fuel s =
    k tt fuel (set_world (free_world p (world s))
                (set_ptable (<[i := freed p]> (ptable s))
                  (set_free_log ((i, lock p) :: free_log s) s))).
Proof. intros H. unfold bind. rewrite (proc_free_run i fuel s p H). reflexivity. Qed.

End StepsUnit.

(** Projections of updated states, and lookups in an updated table. *)
Ltac sproj :=
  cbn [ptable cur nextpid pid_lock wait_lock ftable_lock ftable umem kmem
       world console free_log
       set_ptable set_nextpid set_pid_lock set_wait_lock set_ftable_lock
       set_ftable set_kmem set_world set_console set_free_log].

Ltac sproj_in H :=
  cbn [ptable cur nextpid pid_lock wait_lock ftable_lock ftable umem kmem
       world console free_log
       set_ptable set_nextpid set_pid_lock set_wait_lock set_ftable_lock
       set_ftable set_kmem set_world set_console set_free_log] in H.

Ltac pproj :=
  cbn [lock state pid parent chan killed xstate sz pgdir kstack tf context
       ofile cwd name
       set_lock set_state set_pid set_parent set_chan set_killed set_xstate
       set_sz set_pgdir set_kstack set_tf set_context set_ofile set_cwd set_name].

(** Solve [ptable st !! i = Some ?p] for a state built from [s] by
    updates, given the slots of [s] at [cur s] and at [np]. *)
Ltac lookup2 Hc Hn Hne :=
  sproj; rewrite ?list_insert_insert_eq;
  first
    [ exact Hc | exact Hn
    | rewrite list_lookup_insert_eq
        by (rewrite ?length_insert;
            first [exact (lookup_lt_Some _ _ _ Hn) | exact (lookup_lt_Some _ _ _ Hc)]);
      reflexivity
    | rewrite !list_lookup_insert_ne by (first [exact Hne | exact (not_eq_sym Hne)]);
      first [exact Hc | exact Hn] ].

(** One step of symbolic execution. *)
Ltac kstep Hc Hn Hne :=
  first
    [ rewrite bind_ret
    | rewrite bind_gets
    | rewrite bind_modify
    | erewrite bind_getp by lookup2 Hc Hn Hne
    | erewrite bind_modp by lookup2 Hc Hn Hne
    | erewrite bind_release_slot by lookup2 Hc Hn Hne
    | erewrite bind_proc_free by lookup2 Hc Hn Hne ];
  cbv beta zeta; sproj; rewrite ?list_insert_insert_eq.

Ltac ksteps Hc Hn Hne := repeat kstep Hc Hn Hne.

(** The same when a single slot is involved. *)
Ltac kstep1 Hn := kstep Hn Hn Hn.
Ltac ksteps1 Hn := repeat kstep1 Hn.

Lemma proc_alloc_slot_ok fuel s np q k w :
  ptable s !! np = Some q -> pid_lock s = false ->
  kalloc (world s) = (k, w) -> k <> 0 ->
  exists s',
    proc_alloc_slot np fuel s = Done (Some np) s'
    /\ ptable s' = <[np := embryo (nextpid s) k q]> (ptable s)
    /\ cur s' = cur s /\ wait_lock s' = wait_lock s
    /\ ftable_lock s' = ftable_lock s /\ ftable s' = ftable s
    /\ world s' = w /\ free_log s' = free_log s.
Proof.
  intros Hn Hpl Hka Hk.
  unfold proc_alloc_slot. unfold bind at 1.
  rewrite pid_next_free by exact Hpl. cbv beta iota.
  kstep1 Hn.
  erewrite bind_ext by (sproj; exact Hka). cbv beta.
  kstep1 Hn.
  destruct (k =? 0) eqn:Ek; [apply Z.eqb_eq in Ek; lia|].
  cbv zeta.
  kstep1 Hn. kstep1 Hn.
  unfold memset0, store, cprintf.
  ksteps1 Hn.
  unfold ret. eexists. split; [reflexivity|]. sproj.
  rewrite ?list_insert_insert_eq. repeat split.
Qed.

Lemma files_live_ext n pp s s' :
  ftable s' = ftable s -> files_live n pp s -> files_live n pp s'.
Proof. intros He H j f Hj. rewrite He. exact (H j f Hj). Qed.

(** [fork] from a state in which every lock is free, the open files of
    the caller are live, slot [np] is the first UNUSED one and a kernel
    stack is available. *)
Lemma fork_run fuel s np pp q0 :
  ptable s !! cur s = Some pp -> state pp <> UNUSED ->
  ptable s !! np = Some q0 -> state q0 = UNUSED -> lock q0 = false ->
  (forall j q, (j < np)%nat -> ptable s !! j = Some q ->
               state q <> UNUSED /\ lock q = false) ->
  pid_lock s = false -> wait_lock s = false -> ftable_lock s = false ->
  files_live (length (ofile pp)) pp s ->
  fst (kalloc (world s)) <> 0 ->
  let rc := fst (uvm_copy (pgdir pp) (pgdir q0) (sz pp) (snd (kalloc (world s)))) in
  (rc < 0 ->
     exists s' c, fork fuel s = Done (-1) s'
       /\ ptable s' !! np = Some c /\ state c = UNUSED /\ lock c = false
       /\ free_log s' = (np, true) :: free_log s)
  /\ (0 <= rc ->
     exists s' c, fork fuel s = Done (pid c) s'
       /\ ptable s' !! np = Some c /\ pid c = nextpid s
       /\ u64 (kmem s' (tf c + 8 * TF_X0)) = 0
       /\ state c = RUNNABLE /\ parent c = Some (cur s) /\ lock c = false
       /\ free_log s' = free_log s).
Proof.
  intros Hc Hpst Hn Hqst Hql Hfirst Hpl Hwl Hfl Hlive Hk rc.
  assert (Hne : cur s <> np) by (intros e; rewrite e in Hc; congruence).
  assert (Hrun0 : proc_alloc fuel s = proc_alloc_slot np fuel (slot_set np true s)).
  { unfold proc_alloc. unfold bind, gets.
    apply (proc_alloc_scan_first _ 0%nat fuel s np q0); auto.
    - apply lookup_lt_Some in Hn. lia.
    - intros j q Hj. apply Hfirst. lia. }
  destruct (kalloc (world s)) as [k w1] eqn:Hka. cbn [fst snd] in Hk, rc.
  rewrite (slot_set_true np s q0 Hn) in Hrun0.
  destruct (proc_alloc_slot_ok fuel
              (set_ptable (<[np := set_lock true q0]> (ptable s)) s)
              np (set_lock true q0) k w1)
    as (sA & HrunA & HtA & HcurA & HwlA & HflA & HftA & HwA & HlogA);
    [ sproj; apply list_lookup_insert_eq; exact (lookup_lt_Some _ _ _ Hn)
    | exact Hpl | exact Hka | exact Hk |].
  sproj_in HtA; sproj_in HcurA; sproj_in HwlA; sproj_in HflA; sproj_in HftA;
    sproj_in HlogA.
  rewrite list_insert_insert_eq in HtA.
  set (cA := embryo _ k _) in HtA.
  assert (HnA : ptable sA !! np = Some cA).
  { rewrite HtA. apply list_lookup_insert_eq. exact (lookup_lt_Some _ _ _ Hn). }
  assert (HcA : ptable sA !! cur s = Some pp).
  { rewrite HtA. rewrite list_lookup_insert_ne by congruence. exact Hc. }
  rewrite HrunA in Hrun0. clear HrunA HtA.
  cut (forall R, fork fuel s = R ->
    (rc < 0 ->
       exists s' c, R = Done (-1) s'
         /\ ptable s' !! np = Some c /\ state c = UNUSED /\ lock c = false
         /\ free_log s' = (np, true) :: free_log s)
    /\ (0 <= rc ->
       exists s' c, R = Done (pid c) s'
         /\ ptable s' !! np = Some c /\ pid c = nextpid s
         /\ u64 (kmem s' (tf c + 8 * TF_X0)) = 0
         /\ state c = RUNNABLE /\ parent c = Some (cur s) /\ lock c = false
         /\ free_log s' = free_log s)).
  { intros HH. exact (HH _ eq_refl). }
  intros R. unfold fork. unfold bind at 1. rewrite Hrun0. cbv beta iota.
  unfold thisproc. rewrite bind_gets, HcurA. cbv beta.
  kstep HcA HnA Hne. kstep HcA HnA Hne.
  subst rc. change (pgdir cA) with (pgdir q0).
  destruct (uvm_copy (pgdir pp) (pgdir q0) (sz pp) w1) as [rc w2] eqn:Huc.
  cbn [fst].
  erewrite bind_ext by (rewrite HwA; exact Huc). cbv beta.
  destruct (rc <? 0) eqn:Erc.
  - apply Z.ltb_lt in Erc.
    ksteps HcA HnA Hne. unfold ret.
    intros <-. split; [intros _ | lia].
    match goal with |- exists s' c, Done _ ?st = _ /\ _ => exists st end.
    eexists. split; [reflexivity|]. split; [lookup2 HcA HnA Hne|].
    sproj. rewrite HlogA. repeat split.
  - apply Z.ltb_ge in Erc.
    ksteps HcA HnA Hne.
    unfold memcpy, store. ksteps HcA HnA Hne.
    change (tf (set_sz (sz pp) cA)) with (tf cA).
    match goal with
    | |- bind (fork_files _ _ _ _) _ fuel ?st = _ -> _ => set (s2 := st)
    end.
    set (c1 := set_sz (sz pp) cA).
    assert (H2 : ptable s2 !! np = Some c1) by (subst s2; lookup2 HcA HnA Hne).
    assert (Hc2 : ptable s2 !! cur s = Some pp) by (subst s2; lookup2 HcA HnA Hne).
    assert (Hx0 : u64 (kmem s2 (tf cA + 8 * TF_X0)) = 0).
    { subst s2. sproj. rewrite Z.eqb_refl. reflexivity. }
    assert (Hwl2 : wait_lock s2 = false) by (subst s2; sproj; congruence).
    assert (Hfl2 : ftable_lock s2 = false) by (subst s2; sproj; congruence).
    assert (Hlog2 : free_log s2 = free_log s) by (subst s2; sproj; congruence).
    assert (Hlive2 : files_live (length (ofile pp)) pp s2).
    { apply (files_live_ext _ _ s); [subst s2; sproj; exact HftA | exact Hlive]. }
    clearbody s2.
    destruct (fork_files_run (length (ofile pp)) 0%nat fuel s2 (cur s) np pp c1
                Hne Hc2 H2 Hfl2 Hlive2) as (o & t & Hff).
    unfold bind at 1. rewrite Hff. clear Hff. cbv beta iota.
    kstep Hc2 H2 Hne.
    destruct (idup (cwd pp) (world s2)) as [ci w3] eqn:Hid.
    erewrite bind_ext by (sproj; exact Hid). cbv beta.
    ksteps Hc2 H2 Hne.
    rewrite bind_acquire by (sproj; exact Hwl2). cbv beta. sproj.
    kstep Hc2 H2 Hne.
    unfold release at 1. kstep Hc2 H2 Hne.
    erewrite bind_acquire_slot; [| lookup2 Hc2 H2 Hne | reflexivity].
    cbv beta. sproj. rewrite ?list_insert_insert_eq.
    ksteps Hc2 H2 Hne. unfold ret.
    intros <-. split; [lia | intros _].
    match goal with |- exists s' c, Done _ ?st = _ /\ _ => exists st end.
    eexists. split; [|split; [lookup2 Hc2 H2 Hne|]]; [reflexivity|].
    sproj. split; [reflexivity|].
    split; [exact Hx0|]. split; [reflexivity|]. split; [reflexivity|].
    split; [reflexivity|]. exact Hlog2.
Qed.

(** With no UNUSED slot [fork] fails before any allocation. *)
Lemma fork_table_full fuel s :
  (forall j q, ptable s !! j = Some q -> state q <> UNUSED /\ lock q = false) ->
  fork fuel s = Done (-1) s.
Proof.
  intros Hbusy. unfold fork. unfold bind at 1. unfold proc_alloc.
  rewrite bind_gets.
  rewrite proc_alloc_scan_none; [reflexivity | lia |].
  intros j q _. apply Hbusy.
Qed.

(** When no kernel stack is left, [proc_alloc] frees the slot again
    while it still holds the slot's lock, and reports no slot. *)
Lemma proc_alloc_no_stack fuel s np q0 :
  ptable s !! np = Some q0 -> state q0 = UNUSED -> lock q0 = false ->
  (forall j q, (j < np)%nat -> ptable s !! j = Some q ->
               state q <> UNUSED /\ lock q = false) ->
  pid_lock s = false ->
  fst (kalloc (world s)) = 0 ->
  exists s' c,
    proc_alloc fuel s = Done None s'
    /\ ptable s' !! np = Some c /\ state c = UNUSED /\ lock c = false
    /\ free_log s' = (np, true) :: free_log s.
Proof.
  intros Hn Hqst Hql Hfirst Hpl Hk.
  assert (Hrun0 : proc_alloc fuel s = proc_alloc_slot np fuel (slot_set np true s)).
  { unfold proc_alloc. unfold bind, gets.
    apply (proc_alloc_scan_first _ 0%nat fuel s np q0); auto.
    - apply lookup_lt_Some in Hn. lia.
    - intros j q Hj. apply Hfirst. lia. }
  rewrite Hrun0, (slot_set_true np s q0 Hn).
  destruct (kalloc (world s)) as [k w1] eqn:Hka. cbn [fst] in Hk. subst k.
  unfold proc_alloc_slot. unfold bind at 1.
  rewrite pid_next_free by exact Hpl. cbv beta iota.
  sproj. rewrite ?list_insert_insert_eq.
  kstep1 Hn.
  erewrite bind_ext by (sproj; exact Hka). cbv beta.
  kstep1 Hn.
  change (0 =? 0) with true. cbv iota.
  ksteps1 Hn. unfold ret.
  eexists _, _. split; [reflexivity|]. split; [lookup2 Hn Hn Hn|].
  sproj. repeat split.
Qed.

(** C1. When [fork] goes through (a slot and a kernel stack are found
    and [uvm_copy] succeeds), the x0 of the child's saved trap frame is 0
    and [fork] returns the child's PID, the child being RUNNABLE with the
    caller as parent; when [uvm_copy] fails after the allocation, [fork]
    frees the slot under its lock and returns -1. *)
Theorem fork_returns (fuel : nat) (s : State) (np : nat) (pp q0 : proc) :
  ptable s !! cur s = Some pp -> state pp <> UNUSED ->
  ptable s !! np = Some q0 -> state q0 = UNUSED -> lock q0 = false ->
  (forall j q, (j < np)%nat -> ptable s !! j = Some q ->
               state q <> UNUSED /\ lock q = false) ->
  pid_lock s = false -> wait_lock s = false -> ftable_lock s = false ->
  files_live (length (ofile pp)) pp s ->
  fst (kalloc (world s)) <> 0 ->
  let rc := fst (uvm_copy (pgdir pp) (pgdir q0) (sz pp) (snd (kalloc (world s)))) in
  (rc < 0 ->
     exists s' c, fork fuel s = Done (-1) s'
       /\ ptable s' !! np = Some c /\ state c = UNUSED /\ lock c = false
       /\ free_log s' = (np, true) :: free_log s)
  /\ (0 <= rc ->
     exists s' c, fork fuel s = Done (pid c) s'
       /\ ptable s' !! np = Some c /\ pid c = nextpid s
       /\ u64 (kmem s' (tf c + 8 * TF_X0)) = 0
       /\ state c = RUNNABLE /\ parent c = Some (cur s) /\ lock c = false
       /\ free_log s' = free_log s).
Proof. apply fork_run. Qed.

(** *** wait *)

Section Wait.

Variable swtch : State -> State.

(** The scan of [wait] passes over slots that are not children of [p]
    and, at the first child, frees it if it is a ZOMBIE. Nothing on the
    way takes the child's lock. *)
Lemma wait_scan_zombie n : forall i fuel s p np c hk,
  (i <= np < i + n)%nat ->
  (forall j q, (i <= j < np)%nat -> ptable s !! j = Some q -> parent q <> Some p) ->
  ptable s !! np = Some c -> parent c = Some p -> state c = ZOMBIE ->
  wait_scan n i p hk fuel s =
    Done (Some (pid c), true)
      (set_wait_lock false
        (set_world (free_world c (world s))
          (set_ptable (<[np := freed c]> (ptable s))
            (set_free_log ((np, lock c) :: free_log s) s)))).
Proof.
  induction n as [|n IH]; intros i fuel s p np c hk Hi Hskip Hnp Hpar Hz; [lia|].
  cbn [wait_scan].
  destruct (decide (i = np)) as [->|Hne].
  - rewrite (bind_getp np _ fuel s c Hnp).
    rewrite decide_True by exact Hpar. rewrite decide_True by exact Hz.
    rewrite (bind_proc_free np _ fuel s c Hnp).
    unfold release. rewrite bind_modify. reflexivity.
  - assert (Hlt : (i < length (ptable s))%nat).
    { apply lookup_lt_Some in Hnp. lia. }
    destruct (lookup_lt_is_Some_2 _ _ Hlt) as [q Hq].
    rewrite (bind_getp i _ fuel s q Hq).
    rewrite decide_False by (apply (Hskip i q); [lia | exact Hq]).
    apply IH; auto; try lia.
    intros j q' Hj. apply Hskip. lia.
Qed.

(** C8 (what the code does). When the first child of the caller in the
    table is a ZOMBIE, [wait] reaps it and returns its PID, and the call
    of [proc_free] it makes finds the child's lock exactly as it was
    before [wait] was entered: [wait] holds [wait_lock] only and never
    acquires the slot's lock. *)
Theorem wait_frees_without_slot_lock
    (fuel : nat) (s : State) (np : nat) (c : proc) :
  wait_lock s = false ->
  ptable s !! np = Some c -> parent c = Some (cur s) -> state c = ZOMBIE ->
  (forall j q, (j < np)%nat -> ptable s !! j = Some q -> parent q <> Some (cur s)) ->
  exists s',
    wait swtch (S fuel) s = Done (pid c) s'
    /\ free_log s' = (np, lock c) :: free_log s
    /\ wait_lock s' = false.
Proof.
  intros Hwl Hnp Hpar Hz Hskip.
  unfold wait, thisproc. rewrite bind_gets.
  rewrite bind_acquire by exact Hwl.
  cbn [forever]. rewrite bind_gets. sproj.
  unfold bind at 1.
  rewrite (wait_scan_zombie _ 0%nat fuel (set_wait_lock true s) (cur s) np c false).
  - unfold ret. eexists. split; [reflexivity|]. sproj. split; reflexivity.
  - apply lookup_lt_Some in Hnp. sproj. lia.
  - intros j q Hj. sproj. apply Hskip. lia.
  - exact Hnp.
  - exact Hpar.
  - exact Hz.
Qed.

End Wait.

(** *** sys_exec *)

Lemma load_le_range m a n : 0 <= load_le m a n < 256 ^ Z.of_nat n.
Proof.
  revert a. induction n as [|n IH]; intros a.
  - cbn. lia.
  - cbn [load_le]. rewrite Nat2Z.inj_succ, Z.pow_succ_r by lia.
    specialize (IH (a + 1)).
    assert (0 <= m a mod 256 < 256) by (apply Z.mod_pos_bound; lia).
    nia.
Qed.

Lemma word_range m a : 0 <= load_le m a 8 < 2 ^ 64.
Proof. exact (load_le_range m a 8). Qed.

Lemma u64_small z : 0 <= z < 2 ^ 64 -> u64 z = z.
Proof. intros H. unfold u64. apply Z.mod_small. exact H. Qed.

Lemma i64_cases w :
  0 <= w < 2 ^ 64 ->
  (w < 2 ^ 63 /\ i64 w = w) \/ (2 ^ 63 <= w /\ i64 w = w - 2 ^ 64).
Proof.
  intros H. unfold i64.
  change (2 ^ 64) with 18446744073709551616 in *.
  change (2 ^ 63) with 9223372036854775808 in *.
  destruct (Z.lt_ge_cases w 9223372036854775808) as [Hlt | Hge].
  - left. split; [exact Hlt|]. rewrite Z.mod_small by lia. lia.
  - right. split; [exact Hge|].
    replace (w + 9223372036854775808)
      with ((w - 9223372036854775808) + 1 * 18446744073709551616) by lia.
    rewrite Z.mod_add by lia. rewrite Z.mod_small by lia. lia.
Qed.

Lemma u64_i64 w : 0 <= w < 2 ^ 64 -> u64 (i64 w) = w.
Proof.
  intros H. destruct (i64_cases w H) as [[Hlt ->] | [Hge ->]].
  - apply u64_small. exact H.
  - unfold u64. change (2 ^ 64) with 18446744073709551616 in *.
    change (2 ^ 63) with 9223372036854775808 in *.
    replace (w - 18446744073709551616) with (w + (-1) * 18446744073709551616) by lia.
    rewrite Z.mod_add by lia. apply Z.mod_small. lia.
Qed.

Lemma i64_zero w : 0 <= w < 2 ^ 64 -> i64 w = 0 -> w = 0.
Proof.
  intros H H0. destruct (i64_cases w H) as [[Hlt He] | [Hge He]]; rewrite He in H0.
  - exact H0.
  - change (2 ^ 64) with 18446744073709551616 in *. lia.
Qed.

Lemma fetchstr_scan_found m pp ep n cnt : forall s,
  pp <= s <= pp + n -> pp + n < ep ->
  m (pp + n) mod 256 = 0 ->
  (forall x, s <= x < pp + n -> m x mod 256 <> 0) ->
  (Z.to_nat (pp + n - s) < cnt)%nat ->
  fetchstr_scan m cnt pp ep s = i32 n.
Proof.
  induction cnt as [|cnt IH]; intros s Hs Hep Hnul Hno Hcnt; [lia|].
  cbn [fetchstr_scan].
  destruct (s <? ep) eqn:E1; [|apply Z.ltb_ge in E1; lia].
  destruct (decide (s = pp + n)) as [->|Hne].
  - rewrite Hnul. cbn. f_equal. lia.
  - destruct (m s mod 256 =? 0) eqn:E2.
    + apply Z.eqb_eq in E2. exfalso. apply (Hno s); [lia | exact E2].
    + apply IH; auto; try lia. intros x Hx. apply Hno. lia.
Qed.

Lemma fetchstr_ok a n pp0 fuel s p :
  ptable s !! cur s = Some p ->
  str_at (umem s) (sz p) a n -> n <= INT_MAX ->
  fetchstr a pp0 fuel s = Done (n, a) s.
Proof.
  intros H (Hn & Hep & Hnul & Hno) Hmax.
  unfold fetchstr, thisproc. rewrite bind_gets.
  rewrite (bind_getp _ _ fuel s p H).
  destruct (sz p <=? a) eqn:E1; [apply Z.leb_le in E1; lia|].
  cbv zeta. rewrite bind_gets. unfold ret. do 2 f_equal.
  rewrite (fetchstr_scan_found (umem s) a (sz p) n); try lia; auto.
  - apply i32_small. unfold INT_MIN, INT_MAX in *. lia.
  - intros x Hx. replace x with (a + (x - a)) by lia. apply Hno. lia.
Qed.

Lemma sys_exec_args_run s p uargv :
  ptable s !! cur s = Some p ->
  forall rest left i uarg argv c fuel,
    (forall j a, rest !! j = Some a -> entry_ok s (sz p) uargv (i + j) a) ->
    ((length rest < left)%nat ->
     null_at s (sz p) uargv (i + length rest) ->
     exists c',
       sys_exec_args left (Z.of_nat i) uargv uarg argv fuel (set_console c s) =
         Done (inr (store_args i rest argv)) (set_console c' s))
    /\ (length rest = left ->
     exists c',
       sys_exec_args left (Z.of_nat i) uargv uarg argv fuel (set_console c s) =
         Done (inl (-1)) (set_console c' s)).
Proof.
  intros H.
  induction rest as [|a rest IH]; intros left i uarg argv c fuel Hent.
  - split.
    + intros Hlen (H0 & Hb & Hsz & Hw). cbn [length] in *.
      destruct left as [|left]; [lia|]. cbn [sys_exec_args store_args].
      rewrite Nat.add_0_r in Hb, Hw.
      unfold bind at 1.
      rewrite (u64_small (uargv + 8 * Z.of_nat i)) by lia.
      rewrite (fetchint_in_bounds _ uarg fuel (set_console c s) p H);
        [| lia | rewrite u64_small by lia; lia].
      cbv beta iota zeta. cbn [fst snd]. sproj. rewrite Hw.
      change (i64 0) with 0. cbn [Z.ltb Z.eqb Z.compare].
      rewrite Nat2Z.id. exists c. reflexivity.
    + intros <-. cbn [length sys_exec_args].
      unfold cprintf. rewrite bind_modify. unfold ret. sproj.
      eexists. reflexivity.
  - assert (Ha := Hent 0%nat a eq_refl).
    destruct Ha as (H0 & Hb & Hsz & Hw & Hnz & n & Hstr & Hn).
    rewrite Nat.add_0_r in Hb, Hw.
    assert (Hwr := word_range (umem s) (uargv + 8 * Z.of_nat i)).
    rewrite Hw in Hwr.
    assert (Hstep : forall left',
      sys_exec_args (S left') (Z.of_nat i) uargv uarg argv fuel (set_console c s) =
      sys_exec_args left' (Z.of_nat (S i)) uargv (i64 a) (<[i := a]> argv) fuel
        (set_console (("sys_exec: argv[%d] = '%s'"%string, [Z.of_nat i; a]) :: c) s)).
    { intros left'. cbn [sys_exec_args].
      unfold bind at 1.
      rewrite (u64_small (uargv + 8 * Z.of_nat i)) by lia.
      rewrite (fetchint_in_bounds _ uarg fuel (set_console c s) p H);
        [| lia | rewrite u64_small by lia; lia].
      cbv beta iota zeta. cbn [fst snd]. sproj. rewrite Hw.
      change (0 <? 0) with false. cbv iota.
      destruct (i64 a =? 0) eqn:E1.
      { apply Z.eqb_eq in E1. apply i64_zero in E1; [contradiction | exact Hwr]. }
      rewrite (u64_i64 a Hwr).
      unfold bind at 1.
      rewrite (fetchstr_ok a n _ fuel (set_console c s) p H Hstr Hn).
      cbv beta iota zeta. cbn [fst snd].
      destruct Hstr as (Hn0 & _).
      destruct (n <? 0) eqn:E2; [apply Z.ltb_lt in E2; lia|].
      unfold cprintf. rewrite bind_modify. sproj.
      rewrite Nat2Z.id. rewrite Nat2Z.inj_succ. unfold Z.succ. reflexivity. }
    assert (Hent' : forall j b, rest !! j = Some b ->
                      entry_ok s (sz p) uargv (S i + j) b).
    { intros j b Hj. replace (S i + j)%nat with (i + S j)%nat by lia.
      apply Hent. exact Hj. }
    split.
    + intros Hlen Hnull. cbn [length] in *.
      destruct left as [|left]; [lia|].
      rewrite Hstep. cbn [store_args].
      apply (IH left (S i) (i64 a) (<[i := a]> argv) _ fuel Hent'); [lia|].
      replace (S i + length rest)%nat with (i + S (length rest))%nat by lia.
      exact Hnull.
    + intros Hlen. cbn [length] in Hlen. subst left.
      rewrite Hstep.
      apply (IH (length rest) (S i) (i64 a) (<[i := a]> argv) _ fuel Hent').
      reflexivity.
Qed.

Lemma store_args_fresh rest : forall pre n,
  (length rest < n)%nat ->
  store_args (length pre) rest (pre ++ replicate n 0) =
    pre ++ rest ++ replicate (n - length rest) 0.
Proof.
  induction rest as [|a rest IH]; intros pre n Hlen; cbn [store_args length app] in *.
  - rewrite Nat.sub_0_r. apply list_insert_id.
    rewrite lookup_app_r by lia. rewrite Nat.sub_diag.
    destruct n; [lia | reflexivity].
  - destruct n as [|n]; [lia|].
    rewrite insert_app_r_alt by lia. rewrite Nat.sub_diag. cbn [replicate].
    change (<[0%nat := a]> (0 :: replicate n 0)) with (a :: replicate n 0).
    replace (pre ++ a :: replicate n 0) with ((pre ++ [a]) ++ replicate n 0)
      by (rewrite <- app_assoc; reflexivity).
    replace (S (length pre)) with (length (pre ++ [a]))
      by (rewrite length_app; cbn; lia).
    rewrite IH by lia. rewrite <- app_assoc. reflexivity.
Qed.

Lemma set_console_twice a b s : set_console a (set_console b s) = set_console a s.
Proof. reflexivity. Qed.

Section Exec.

Variable execve : Z -> list Z -> Z -> M Z.

(** C7 (as amended). With a valid path, [sys_exec] accepts a
    NULL-terminated array of at most [MAXARG - 1] user string pointers:
    all of them are fetched and passed to [execve] in an [argv] of
    [MAXARG] entries whose remaining entries are NULL. An array whose
    first [MAXARG] entries are all non-null makes [sys_exec] return -1
    without calling [execve]: the terminator needs an entry of its own. *)
Theorem sys_exec_argument_limit (fuel : nat) (s : State) (p : proc) (args : list Z) :
  ptable s !! cur s = Some p ->
  let path := u64 (kmem s (tf p + 8 * (TF_X0 + 1) + 8 * 0)) in
  let uargv := u64 (kmem s (tf p + 8 * (TF_X0 + 1) + 8 * 1)) in
  (exists n, str_at (umem s) (sz p) path n /\ n <= INT_MAX) ->
  (forall j a, args !! j = Some a -> entry_ok s (sz p) uargv j a) ->
  ((length args < MAXARG)%nat -> null_at s (sz p) uargv (length args) ->
     exists c',
       sys_exec execve fuel s =
         execve path (args ++ replicate (MAXARG - length args) 0) 0 fuel
           (set_console c' s))
  /\ (length args = MAXARG ->
     exists c', sys_exec execve fuel s = Done (-1) (set_console c' s)).
Proof.
  intros H path uargv (n & Hstr & Hn) Hent.
  set (c0 := ("sys_exec: exec '%s' uargv %lld"%string, [path; uargv])
             :: ("argstr: n=%d addr=%lld"%string, [0; path]) :: console s).
  assert (Hhead : sys_exec execve fuel s =
    bind (sys_exec_args MAXARG 0 uargv 0 (replicate MAXARG 0))
         (fun r => match r with
                   | inl e => ret e
                   | inr argv => execve path argv 0
                   end) fuel (set_console c0 s)).
  { unfold sys_exec. unfold bind at 1. unfold argstr. unfold bind at 1.
    rewrite (argint_le3 0 fuel s p) by (lia || exact H).
    cbv beta iota zeta. cbn [fst snd]. change (0 <? 0) with false. cbv iota.
    unfold cprintf at 1. rewrite bind_modify.
    match goal with
    | |- context [fetchstr ?a 0 fuel ?st] =>
        rewrite (fetchstr_ok a n 0 fuel st p H Hstr Hn)
    end.
    cbv beta iota zeta. cbn [fst snd].
    destruct Hstr as (Hn0 & _).
    destruct (n <? 0) eqn:E2; [apply Z.ltb_lt in E2; lia|].
    unfold bind at 1.
    match goal with
    | |- context [argint 1 fuel ?st] =>
        rewrite (argint_le3 1 fuel st p) by (lia || exact H)
    end.
    cbv beta iota zeta. cbn [fst snd]. change (0 <? 0) with false. cbv iota.
    unfold cprintf at 1. rewrite bind_modify. sproj.
    rewrite set_console_twice. reflexivity. }
  rewrite Hhead. clear Hhead.
  destruct (sys_exec_args_run s p uargv H args MAXARG 0%nat 0 (replicate MAXARG 0)
              c0 fuel) as [Hshort Hlong].
  { intros j a Hj. cbn [Nat.add]. apply Hent. exact Hj. }
  split.
  - intros Hlen Hnull. destruct (Hshort Hlen Hnull) as [c' Hrun].
    exists c'. unfold bind. change (Z.of_nat 0) with 0 in Hrun. rewrite Hrun.
    assert (Hst := store_args_fresh args [] MAXARG Hlen).
    cbn [length app] in Hst. rewrite Hst. reflexivity.
  - intros Hlen. destruct (Hlong Hlen) as [c' Hrun].
    exists c'. unfold bind. change (Z.of_nat 0) with 0 in Hrun. rewrite Hrun.
    reflexivity.
Qed.

End Exec.

(** ** Further properties of the core *)

(** *** fetchstr and argptr *)

Lemma fetchstr_scan_none m pp ep cnt : forall s,
  (forall x, s <= x < ep -> m x mod 256 <> 0) ->
  fetchstr_scan m cnt pp ep s = -1.
Proof.
  induction cnt as [|cnt IH]; intros s Hno; [reflexivity|].
  cbn [fetchstr_scan].
  destruct (s <? ep) eqn:E1; [|reflexivity].
  apply Z.ltb_lt in E1.
  destruct (m s mod 256 =? 0) eqn:E2.
  - apply Z.eqb_eq in E2. exfalso. apply (Hno s); [lia | exact E2].
  - apply IH. intros x Hx. apply Hno. lia.
Qed.

(** X1. [fetchstr] yields the length of the string at [addr] when its
    NUL lies inside user memory; it fails without touching [*pp] when
    [addr] is not below [sz], and fails after having set [*pp] when
    there is no NUL byte between [addr] and [sz]. *)
Theorem fetchstr_result (addr pp0 : Z) (fuel : nat) (s : State) (p : proc) :
  ptable s !! cur s = Some p ->
  (sz p <= addr -> fetchstr addr pp0 fuel s = Done (-1, pp0) s)
  /\ (addr < sz p ->
      (forall x, addr <= x < sz p -> umem s x mod 256 <> 0) ->
      fetchstr addr pp0 fuel s = Done (-1, addr) s)
  /\ (forall n, str_at (umem s) (sz p) addr n -> n <= INT_MAX ->
      fetchstr addr pp0 fuel s = Done (n, addr) s).
Proof.
  intros H. split; [|split].
  - intros Hge. unfold fetchstr, thisproc. rewrite bind_gets.
    rewrite (bind_getp _ _ fuel s p H).
    destruct (sz p <=? addr) eqn:E1; [reflexivity | apply Z.leb_gt in E1; lia].
  - intros Hlt Hno. unfold fetchstr, thisproc. rewrite bind_gets.
    rewrite (bind_getp _ _ fuel s p H).
    destruct (sz p <=? addr) eqn:E1; [apply Z.leb_le in E1; lia|].
    cbv zeta. rewrite bind_gets. unfold ret.
    rewrite fetchstr_scan_none by exact Hno. reflexivity.
  - intros n Hstr Hn. apply (fetchstr_ok addr n pp0 fuel s p H Hstr Hn).
Qed.

(** X2. [argptr] accepts the pointer in argument [n] exactly when it is
    below [sz] and pointer plus size, taken modulo 2^64, does not exceed
    [sz]; the size is not checked for being negative, so a negative size
    of magnitude at most the pointer passes. *)
Theorem argptr_bounds (n pp0 size : Z) (fuel : nat) (s : State) (p : proc) :
  n <= 3 ->
  ptable s !! cur s = Some p ->
  let i := u64 (kmem s (tf p + 8 * (TF_X0 + 1) + 8 * n)) in
  (i < sz p /\ u64 (i + size) <= sz p ->
     argptr n pp0 size fuel s = Done (0, i) s)
  /\ (sz p <= i \/ sz p < u64 (i + size) ->
     argptr n pp0 size fuel s = Done (-1, pp0) s)
  /\ (size < 0 -> - size <= i < sz p ->
     argptr n pp0 size fuel s = Done (0, i) s).
Proof.
  intros Hn H i.
  assert (Hrun : argptr n pp0 size fuel s =
    if (sz p <=? i) || (sz p <? u64 (i + size)) then Done (-1, pp0) s
    else Done (0, i) s).
  { unfold argptr. unfold bind at 1. rewrite (argint_le3 n fuel s p Hn H).
    cbv beta iota zeta. cbn [fst snd]. change (0 <? 0) with false. cbv iota.
    unfold thisproc. rewrite bind_gets. rewrite (bind_getp _ _ fuel s p H).
    fold i. destruct ((sz p <=? i) || (sz p <? u64 (i + size))); reflexivity. }
  assert (Hi : 0 <= i < 2 ^ 64) by (apply Z.mod_pos_bound; lia).
  assert (Hok : i < sz p /\ u64 (i + size) <= sz p ->
                argptr n pp0 size fuel s = Done (0, i) s).
  { intros [H1 H2]. rewrite Hrun.
    destruct (sz p <=? i) eqn:E1; [apply Z.leb_le in E1; lia|].
    destruct (sz p <? u64 (i + size)) eqn:E2; [apply Z.ltb_lt in E2; lia|].
    reflexivity. }
  split; [exact Hok|]. split.
  - intros Hout. rewrite Hrun.
    destruct (sz p <=? i) eqn:E1; [reflexivity|].
    destruct (sz p <? u64 (i + size)) eqn:E2; [reflexivity|].
    apply Z.leb_gt in E1. apply Z.ltb_ge in E2. lia.
  - intros Hneg Hrange. apply Hok. split; [lia|].
    rewrite u64_small by lia. lia.
Qed.

(** *** System-call dispatch *)

Lemma i32_u64 r : INT_MIN <= r <= INT_MAX -> i32 (u64 r) = r.
Proof.
  unfold INT_MIN, INT_MAX, i32, u64. intros H.
  change (2 ^ 64) with 18446744073709551616.
  change (2 ^ 32) with 4294967296. change (2 ^ 31) with 2147483648.
  destruct (Z.lt_ge_cases r 0) as [Hneg | Hpos].
  - replace (r mod 18446744073709551616) with (r + 18446744073709551616).
    + replace (r + 18446744073709551616 + 2147483648)
        with (r + 2147483648 + 4294967296 * 4294967296) by lia.
      rewrite Z.mod_add by lia. rewrite Z.mod_small by lia. lia.
    + replace r with (r + 18446744073709551616 + (-1) * 18446744073709551616) at 2
        by lia.
      rewrite Z.mod_add by lia. rewrite Z.mod_small by lia. reflexivity.
  - rewrite (Z.mod_small r) by lia. rewrite Z.mod_small by lia. lia.
Qed.

(** X3. When x8 selects a handler of the table, [syscall1] points the
    process's [tf] at the frame, logs the call, runs the handler and
    stores its [int] result in the frame's x0, changing nothing else
    after the handler; it returns that result. *)
Theorem syscall1_dispatches
    (syscalls : list (option (M Z))) (handler : M Z) (tfp r : Z)
    (fuel : nat) (s s2 : State) (p : proc) :
  ptable s !! cur s = Some p ->
  let sysno := u64 (kmem s (tfp + 8 * (TF_X0 + 8))) in
  syscalls !! Z.to_nat sysno = Some (Some handler) ->
  let s1 := set_console
              (("syscall: syscall %d from proc %d"%string, [sysno; pid p]) :: console s)
              (set_ptable (<[cur s := set_tf tfp p]> (ptable s)) s) in
  handler fuel s1 = Done r s2 ->
  INT_MIN <= r <= INT_MAX ->
  exists s3,
    syscall1 syscalls tfp fuel s = Done r s3
    /\ kmem s3 (tfp + 8 * TF_X0) = u64 r
    /\ (forall a, a <> tfp + 8 * TF_X0 -> kmem s3 a = kmem s2 a)
    /\ ptable s3 = ptable s2 /\ world s3 = world s2 /\ console s3 = console s2.
Proof.
  intros H sysno Hsel s1 Hh Hr.
  assert (Hlt : (Z.to_nat sysno < length syscalls)%nat)
    by (eapply lookup_lt_Some; exact Hsel).
  assert (Hs : 0 <= sysno < 2 ^ 64) by (apply Z.mod_pos_bound; lia).
  unfold syscall1, thisproc. rewrite bind_gets.
  rewrite (bind_modp _ _ _ fuel s p H).
  unfold load at 1. rewrite bind_gets. sproj. fold sysno.
  erewrite bind_getp
    by (sproj; apply list_lookup_insert_eq; exact (lookup_lt_Some _ _ _ H)).
  destruct (0 <=? sysno) eqn:E0; [|apply Z.leb_gt in E0; lia].
  destruct (sysno <? Z.of_nat (length syscalls)) eqn:E1;
    [|apply Z.ltb_ge in E1; lia].
  cbn [andb]. rewrite Hsel.
  unfold cprintf. rewrite bind_modify. sproj. pproj.
  unfold bind at 1. fold s1. rewrite Hh.
  unfold store, load. rewrite bind_modify, bind_gets. sproj.
  rewrite Z.eqb_refl. unfold ret.
  eexists. split.
  - rewrite (u64_small (u64 r)) by (apply Z.mod_pos_bound; lia).
    rewrite (i32_u64 r Hr). reflexivity.
  - sproj. rewrite Z.eqb_refl. split; [reflexivity|]. split; [|repeat split].
    intros a Ha. destruct (a =? tfp + 8 * TF_X0) eqn:Ea;
      [apply Z.eqb_eq in Ea; contradiction | reflexivity].
Qed.

(** *** proc_alloc, growproc *)

(** X4. With every slot in use [proc_alloc] finds no slot and leaves the
    kernel state exactly as it was: no PID is consumed and no lock stays
    held. *)
Theorem proc_alloc_table_full (fuel : nat) (s : State) :
  (forall j q, ptable s !! j = Some q -> state q <> UNUSED /\ lock q = false) ->
  proc_alloc fuel s = Done None s.
Proof.
  intros Hbusy. unfold proc_alloc. rewrite bind_gets.
  apply proc_alloc_scan_none; [lia|].
  intros j q _. apply Hbusy.
Qed.

(** X5. [proc_alloc] hands out the first UNUSED slot with its lock
    still held, in state EMBRYO, with the PID that [nextpid] held; the
    trap frame and the context lie at the top of the new kernel stack,
    the saved x30 of the context is [forkret], the counter has moved on
    and no other slot has changed. *)
Theorem proc_alloc_first_unused (fuel : nat) (s : State) (np : nat) (q0 : proc) :
  ptable s !! np = Some q0 -> state q0 = UNUSED -> lock q0 = false ->
  (forall j q, (j < np)%nat -> ptable s !! j = Some q ->
               state q <> UNUSED /\ lock q = false) ->
  pid_lock s = false ->
  fst (kalloc (world s)) <> 0 ->
  exists s' c,
    proc_alloc fuel s = Done (Some np) s'
    /\ ptable s' = <[np := c]> (ptable s)
    /\ lock c = true /\ state c = EMBRYO /\ pid c = nextpid s
    /\ kstack c = fst (kalloc (world s))
    /\ tf c = u64 (u64 (kstack c + KSTACKSIZE) - 8 * TF_WORDS)
    /\ context c = u64 (tf c - 8 * CTX_WORDS)
    /\ kmem s' (context c + 8 * CTX_X30) = FORKRET
    /\ nextpid s' = i32 (nextpid s + 1)
    /\ pid_lock s' = false.
Proof.
  intros Hn Hqst Hql Hfirst Hpl Hk.
  assert (Hrun0 : proc_alloc fuel s = proc_alloc_slot np fuel (slot_set np true s)).
  { unfold proc_alloc. unfold bind, gets.
    apply (proc_alloc_scan_first _ 0%nat fuel s np q0); auto.
    - apply lookup_lt_Some in Hn. lia.
    - intros j q Hj. apply Hfirst. lia. }
  rewrite Hrun0, (slot_set_true np s q0 Hn).
  destruct (kalloc (world s)) as [k w1] eqn:Hka. cbn [fst] in Hk |- *.
  unfold proc_alloc_slot. unfold bind at 1.
  rewrite pid_next_free by exact Hpl. cbv beta iota.
  sproj. rewrite ?list_insert_insert_eq.
  kstep1 Hn.
  erewrite bind_ext by (sproj; exact Hka). cbv beta.
  kstep1 Hn.
  destruct (k =? 0) eqn:Ek; [apply Z.eqb_eq in Ek; lia|].
  cbv zeta.
  kstep1 Hn. kstep1 Hn.
  unfold memset0, store, cprintf.
  ksteps1 Hn. unfold ret.
  eexists _, _. split; [reflexivity|]. sproj.
  split; [reflexivity|]. pproj. rewrite Z.eqb_refl. repeat split.
Qed.

(** X6. When the VM module grants the request, [growproc] returns 0 and
    [sz] becomes the size the VM module reports; for [n = 0] it returns
    0 and [sz] stays as it is. *)
Theorem growproc_success (n : Z) (fuel : nat) (s : State) (p : proc) :
  ptable s !! cur s = Some p ->
  let newsz :=
    if 0 <? n then fst (uvm_alloc (pgdir p) (sz p) (u64 (sz p + n)) (world s))
    else if n <? 0 then fst (uvm_dealloc (pgdir p) (sz p) (u64 (sz p + n)) (world s))
    else sz p in
  newsz <> 0 \/ n = 0 ->
  exists s',
    growproc n fuel s = Done 0 s'
    /\ ptable s' = <[cur s := set_sz newsz p]> (ptable s)
    /\ cur s' = cur s.
Proof.
  intros H newsz Hok. unfold growproc, thisproc. rewrite bind_gets.
  rewrite (bind_getp _ _ fuel s p H). cbv zeta. subst newsz.
  destruct (0 <? n) eqn:Hpos.
  - apply Z.ltb_lt in Hpos.
    destruct (uvm_alloc _ _ _ _) as [r w] eqn:Hu. cbn [fst] in Hok.
    erewrite bind_ext by exact Hu. cbv beta.
    destruct (r =? 0) eqn:Hr; [apply Z.eqb_eq in Hr; lia|].
    ksteps H H H. unfold ext_. rewrite bind_modify. unfold ret.
    eexists. split; [reflexivity|]. sproj. split; reflexivity.
  - apply Z.ltb_ge in Hpos. destruct (n <? 0) eqn:Hneg.
    + apply Z.ltb_lt in Hneg.
      destruct (uvm_dealloc _ _ _ _) as [r w] eqn:Hu. cbn [fst] in Hok.
      erewrite bind_ext by exact Hu. cbv beta.
      destruct (r =? 0) eqn:Hr; [apply Z.eqb_eq in Hr; lia|].
      ksteps H H H. unfold ext_. rewrite bind_modify. unfold ret.
      eexists. split; [reflexivity|]. sproj. split; reflexivity.
    + ksteps H H H. unfold ext_. rewrite bind_modify. unfold ret.
      eexists. split; [reflexivity|]. sproj. split; reflexivity.
Qed.

(** *** wait, sleep, yield *)

Lemma set_wait_lock_back s :
  wait_lock s = false -> set_wait_lock false (set_wait_lock true s) = s.
Proof. intros H. destruct s. cbn in H. subst. reflexivity. Qed.

Section Sleeping.

Variable swtch : State -> State.

(** Without a ZOMBIE child the scan of [wait] frees nothing and reports
    whether the caller has children. *)
Lemma wait_scan_no_zombie n : forall i fuel s p hk,
  (i + n = length (ptable s))%nat ->
  (forall j q, ptable s !! j = Some q -> parent q = Some p -> state q <> ZOMBIE) ->
  exists hk',
    wait_scan n i p hk fuel s = Done (None, hk') s
    /\ ((forall j q, ptable s !! j = Some q -> parent q <> Some p) -> hk' = hk)
    /\ (forall j q, (i <= j)%nat -> ptable s !! j = Some q -> parent q = Some p ->
          hk' = true)
    /\ (hk = true -> hk' = true).
Proof.
  induction n as [|n IH]; intros i fuel s p hk Hlen Hnz.
  - exists hk. cbn. unfold ret. split; [reflexivity|]. split; [auto|].
    split; [|auto].
    intros j q Hj Hq. apply lookup_lt_Some in Hq. lia.
  - cbn [wait_scan].
    destruct (lookup_lt_is_Some_2 (ptable s) i ltac:(lia)) as [q Hq].
    rewrite (bind_getp i _ fuel s q Hq).
    destruct (decide (parent q = Some p)) as [Hpar | Hpar].
    + rewrite decide_False by (apply (Hnz i q Hq Hpar)).
      destruct (IH (S i) fuel s p true ltac:(lia) Hnz) as (hk' & Hrun & _ & _ & Ht).
      exists hk'. split; [exact Hrun|]. rewrite (Ht eq_refl).
      split; [|split; auto].
      intros Hnone. exfalso. exact (Hnone i q Hq Hpar).
    + destruct (IH (S i) fuel s p hk ltac:(lia) Hnz) as (hk' & Hrun & Hsame & Hkid & Ht).
      exists hk'. split; [exact Hrun|]. split; [exact Hsame|]. split; [|exact Ht].
      intros j q' Hj Hq' Hpar'.
      destruct (decide (j = i)) as [->|Hji]; [congruence|].
      apply (Hkid j q'); auto. lia.
Qed.

(** X7. [wait] returns -1 and leaves the kernel state as it was when no
    child is a ZOMBIE and either the caller has no children at all or the
    caller has been killed. *)
Theorem wait_without_zombie (fuel : nat) (s : State) (pp : proc) :
  wait_lock s = false ->
  ptable s !! cur s = Some pp ->
  (forall j q, ptable s !! j = Some q -> parent q = Some (cur s) -> state q <> ZOMBIE) ->
  (forall j q, ptable s !! j = Some q -> parent q <> Some (cur s)) \/ killed pp <> 0 ->
  wait swtch (S fuel) s = Done (-1) s.
Proof.
  intros Hwl Hc Hnz Hcase.
  unfold wait, thisproc. rewrite bind_gets.
  rewrite bind_acquire by exact Hwl.
  cbn [forever]. rewrite bind_gets. sproj.
  destruct (wait_scan_no_zombie (length (ptable s)) 0%nat fuel
              (set_wait_lock true s) (cur s) false eq_refl Hnz)
    as (hk' & Hrun & Hsame & _ & _).
  unfold bind at 1. rewrite Hrun.
  rewrite (bind_getp _ _ fuel (set_wait_lock true s) pp Hc).
  assert (Hgo : negb hk' || negb (killed pp =? 0) = true).
  { destruct Hcase as [Hnone | Hk].
    - rewrite (Hsame Hnone). reflexivity.
    - destruct (killed pp =? 0) eqn:Ek; [apply Z.eqb_eq in Ek; contradiction|].
      apply orb_true_r. }
  rewrite Hgo. unfold release. rewrite bind_modify. unfold ret.
  rewrite (set_wait_lock_back s Hwl). reflexivity.
Qed.

Lemma sleep_run (c fuel : nat) (s : State) (p p' : proc) :
  ptable s !! cur s = Some p -> lock p = false ->
  let asleep :=
    set_ptable (<[cur s := set_state SLEEPING (set_chan (Some c) (set_lock true p))]>
                  (ptable s))
      (set_wait_lock false s) in
  ptable (swtch asleep) !! cur s = Some p' ->
  wait_lock (swtch asleep) = false ->
  sleep swtch c fuel s =
    Done tt
      (set_wait_lock true
        (set_ptable (<[cur s := set_lock false (set_chan None p')]>
                       (ptable (swtch asleep)))
          (swtch asleep))).
Proof.
  intros H Hl asleep Hr Hwr.
  unfold sleep, thisproc. rewrite bind_gets.
  rewrite (bind_acquire_slot _ _ fuel s p H Hl).
  unfold release at 1. rewrite bind_modify.
  ksteps H H H.
  unfold sched, thisproc. unfold bind at 1. rewrite bind_gets. sproj.
  rewrite bind_gets. unfold slot_held. sproj.
  rewrite list_lookup_insert_eq by exact (lookup_lt_Some _ _ _ H).
  pproj. cbn [negb].
  kstep H H H. pproj.
  rewrite decide_False by discriminate.
  unfold modify at 1.
  match goal with |- context [swtch ?st] => change st with asleep end.
  rewrite (bind_modp _ _ _ fuel (swtch asleep) p' Hr).
  erewrite bind_release_slot
    by (sproj; apply list_lookup_insert_eq; exact (lookup_lt_Some _ _ _ Hr)).
  sproj. rewrite list_insert_insert_eq.
  rewrite acquire_free by (sproj; exact Hwr).
  reflexivity.
Qed.

(** X8. [sleep] switches away with the caller SLEEPING on the channel,
    its own lock held and [wait_lock] released, so that [sched] does not
    panic; once the process is resumed with [wait_lock] free, it clears
    the channel, releases its lock and holds [wait_lock] again. *)
Theorem sleep_protocol (c fuel : nat) (s : State) (p p' : proc) :
  ptable s !! cur s = Some p -> lock p = false ->
  let asleep :=
    set_ptable (<[cur s := set_state SLEEPING (set_chan (Some c) (set_lock true p))]>
                  (ptable s))
      (set_wait_lock false s) in
  ptable (swtch asleep) !! cur s = Some p' ->
  wait_lock (swtch asleep) = false ->
  sleep swtch c fuel s =
    Done tt
      (set_wait_lock true
        (set_ptable (<[cur s := set_lock false (set_chan None p')]>
                       (ptable (swtch asleep)))
          (swtch asleep))).
Proof. apply sleep_run. Qed.

(** X9. [yield] switches away with the caller RUNNABLE and its lock
    held, so that [sched] does not panic, and releases the lock when the
    process is resumed. *)
Theorem yield_protocol (fuel : nat) (s : State) (p p' : proc) :
  ptable s !! cur s = Some p -> lock p = false ->
  let ready :=
    set_ptable (<[cur s := set_state RUNNABLE (set_lock true p)]> (ptable s)) s in
  ptable (swtch ready) !! cur s = Some p' ->
  yield swtch fuel s =
    Done tt
      (set_ptable (<[cur s := set_lock false p']> (ptable (swtch ready)))
         (swtch ready)).
Proof.
  intros H Hl ready Hr.
  unfold yield, thisproc. rewrite bind_gets.
  rewrite (bind_acquire_slot _ _ fuel s p H Hl).
  kstep H H H.
  unfold sched, thisproc. unfold bind at 1. rewrite bind_gets. sproj.
  rewrite bind_gets. unfold slot_held. sproj.
  rewrite list_lookup_insert_eq by exact (lookup_lt_Some _ _ _ H).
  pproj. cbn [negb].
  kstep H H H. pproj.
  rewrite decide_False by discriminate.
  unfold modify at 1.
  match goal with |- context [swtch ?st] => change st with ready end.
  unfold release_slot, release, modify, slot_set. rewrite Hr. reflexivity.
Qed.

(** X10. A caller of [wait] with a living child and no ZOMBIE goes to
    sleep on its own slot; when it is resumed after the first of its
    children has become a ZOMBIE, [wait] frees that slot and returns the
    child's PID, leaving [wait_lock] free. *)
Theorem wait_sleeps_then_reaps
    (fuel : nat) (s : State) (pp p' : proc) (kid np : nat) (q c : proc) :
  wait_lock s = false ->
  ptable s !! cur s = Some pp -> lock pp = false -> killed pp = 0 ->
  (forall j q, ptable s !! j = Some q -> parent q = Some (cur s) -> state q <> ZOMBIE) ->
  ptable s !! kid = Some q -> parent q = Some (cur s) ->
  let asleep :=
    set_ptable
      (<[cur s := set_state SLEEPING (set_chan (Some (cur s)) (set_lock true pp))]>
         (ptable s))
      s in
  let resumed := swtch asleep in
  ptable resumed !! cur s = Some p' -> wait_lock resumed = false ->
  parent p' <> Some (cur s) ->
  ptable resumed !! np = Some c -> parent c = Some (cur s) -> state c = ZOMBIE ->
  (forall j q, (j < np)%nat -> ptable resumed !! j = Some q ->
               parent q <> Some (cur s)) ->
  exists s',
    wait swtch (S (S fuel)) s = Done (pid c) s'
    /\ ptable s' !! np = Some (freed c)
    /\ free_log s' = (np, lock c) :: free_log resumed
    /\ wait_lock s' = false.
Proof.
  intros Hwl Hc Hl Hk Hnz Hkid Hkpar asleep resumed Hr Hwr Hp' Hnp Hpar Hz Hfirst.
  assert (Hne : np <> cur s) by (intros ->; congruence).
  unfold wait, thisproc. rewrite bind_gets.
  rewrite bind_acquire by exact Hwl.
  cbn [forever]. rewrite bind_gets. sproj.
  destruct (wait_scan_no_zombie (length (ptable s)) 0%nat (S fuel)
              (set_wait_lock true s) (cur s) false eq_refl Hnz)
    as (hk' & Hrun & _ & Hkids & _).
  unfold bind at 1. rewrite Hrun.
  rewrite (Hkids kid q ltac:(lia) Hkid Hkpar).
  rewrite (bind_getp _ _ (S fuel) (set_wait_lock true s) pp Hc).
  rewrite Hk. cbn [negb orb Z.eqb].
  unfold bind at 1.
  pose proof (sleep_run (cur s) (S fuel) (set_wait_lock true s) pp p' Hc Hl) as Hsl.
  cbv zeta in Hsl. sproj_in Hsl.
  rewrite (set_wait_lock_back s Hwl) in Hsl.
  specialize (Hsl Hr Hwr). rewrite Hsl. clear Hsl.
  unfold ret at 1. cbv beta iota. fold asleep. fold resumed.
  rewrite bind_gets. sproj. unfold bind at 1.
  rewrite (wait_scan_zombie _ 0%nat fuel _ (cur s) np c false).
  - unfold ret. eexists. split; [reflexivity|]. sproj.
    split; [|split; reflexivity].
    apply list_lookup_insert_eq. rewrite length_insert.
    exact (lookup_lt_Some _ _ _ Hnp).
  - sproj. rewrite length_insert. apply lookup_lt_Some in Hnp. lia.
  - intros j q0 Hj. sproj. intros Hq0.
    destruct (decide (j = cur s)) as [->|Hjc].
    + rewrite list_lookup_insert_eq in Hq0 by exact (lookup_lt_Some _ _ _ Hr).
      injection Hq0 as <-. exact Hp'.
    + rewrite list_lookup_insert_ne in Hq0 by congruence.
      apply (Hfirst j q0); [lia | exact Hq0].
  - sproj. rewrite list_lookup_insert_ne by congruence. exact Hnp.
  - exact Hpar.
  - exact Hz.
Qed.

End Sleeping.

(** *** reparent and wakeup *)

Section Orphans.

Variable initproc : option nat.

Lemma reparent_scan_run rest : forall pre fuel s p,
  ptable s = pre ++ rest ->
  reparent_scan initproc (length rest) (length pre) p fuel s =
    Done tt (set_ptable (pre ++ map (adopt initproc p) rest) s).
Proof.
  induction rest as [|q rest IH]; intros pre fuel s p Hs.
  - cbn. unfold ret. rewrite <- Hs. rewrite set_ptable_id. reflexivity.
  - cbn [length reparent_scan].
    assert (Hq : ptable s !! length pre = Some q).
    { rewrite Hs. rewrite lookup_app_r by lia. rewrite Nat.sub_diag. reflexivity. }
    rewrite (bind_getp _ _ fuel s q Hq).
    assert (Hstep : forall s1, ptable s1 = (pre ++ [adopt initproc p q]) ++ rest ->
      reparent_scan initproc (length rest) (S (length pre)) p fuel s1 =
        Done tt (set_ptable ((pre ++ [adopt initproc p q]) ++ map (adopt initproc p) rest) s1)).
    { intros s1 Hs1. replace (S (length pre)) with (length (pre ++ [adopt initproc p q]))
        by (rewrite length_app; cbn; lia).
      apply IH. exact Hs1. }
    assert (Hins : <[length pre := adopt initproc p q]> (ptable s) = (pre ++ [adopt initproc p q]) ++ rest).
    { rewrite Hs. rewrite insert_app_r_alt by lia. rewrite Nat.sub_diag.
      cbn. rewrite <- app_assoc. reflexivity. }
    cbn [map]. replace (pre ++ adopt initproc p q :: map (adopt initproc p) rest)
      with ((pre ++ [adopt initproc p q]) ++ map (adopt initproc p) rest)
      by (rewrite <- app_assoc; reflexivity).
    destruct (decide (parent q = Some p)) as [Hpar | Hpar].
    + assert (Ha : adopt initproc p q = set_parent initproc q)
        by (unfold adopt; rewrite decide_True by exact Hpar; reflexivity).
      rewrite Ha in *.
      rewrite (bind_modp _ _ _ fuel s q Hq).
      rewrite Hstep by (sproj; exact Hins).
      reflexivity.
    + assert (Ha : adopt initproc p q = q)
        by (unfold adopt; rewrite decide_False by exact Hpar; reflexivity).
      rewrite Ha in *.
      rewrite bind_ret. rewrite Hstep.
      * reflexivity.
      * rewrite <- Hins. rewrite list_insert_id by exact Hq. reflexivity.
Qed.

(** X11. [reparent p] hands every slot whose parent is [p] to
    [initproc] and changes nothing else; unless [p] is [initproc] itself,
    no slot has [p] as parent afterwards. *)
Theorem reparent_adopts (p fuel : nat) (s : State) :
  exists s',
    reparent initproc p fuel s = Done tt s'
    /\ s' = set_ptable (ptable s') s
    /\ (forall j q, ptable s !! j = Some q ->
          ptable s' !! j =
            Some (if decide (parent q = Some p) then set_parent initproc q else q))
    /\ length (ptable s') = length (ptable s)
    /\ (initproc <> Some p ->
        forall j q, ptable s' !! j = Some q -> parent q <> Some p).
Proof.
  unfold reparent. rewrite bind_gets.
  pose proof (reparent_scan_run (ptable s) [] fuel s p eq_refl) as Hrun.
  cbn [length app] in Hrun. rewrite Hrun.
  eexists. split; [reflexivity|]. sproj. split; [reflexivity|].
  split; [|split].
  - intros j q Hq. rewrite list_lookup_fmap, Hq. reflexivity.
  - apply length_map.
  - intros Hinit j q Hq. rewrite list_lookup_fmap in Hq.
    destruct (ptable s !! j) as [q0|] eqn:Hq0; [|discriminate].
    injection Hq as <-. unfold adopt.
    destruct (decide (parent q0 = Some p)) as [Hpar | Hpar]; [|exact Hpar].
    cbn. congruence.
Qed.

End Orphans.

Lemma wake_from_lookup me c l : forall i k,
  wake_from me c i l !! k = wake me c (i + k) <$> l !! k.
Proof.
  induction l as [|q l IH]; intros i k; [reflexivity|].
  destruct k as [|k]; cbn.
  - rewrite Nat.add_0_r. reflexivity.
  - rewrite IH. replace (S i + k)%nat with (i + S k)%nat by lia. reflexivity.
Qed.

Lemma wake_lock me c j q : lock (wake me c j q) = lock q.
Proof. unfold wake. repeat destruct (decide _); reflexivity. Qed.

Lemma release_slot_run i fuel s p :
  ptable s !! i = Some p ->
  release_slot i fuel s = Done tt (set_ptable (<[i := set_lock false p]> (ptable s)) s).
Proof.
  intros H. unfold release_slot, release, modify, slot_set. rewrite H. reflexivity.
Qed.

Lemma modp_run i f fuel s p :
  ptable s !! i = Some p ->
  modp i f fuel s = Done tt (set_ptable (<[i := f p]> (ptable s)) s).
Proof. intros H. unfold modp. rewrite H. reflexivity. Qed.

Lemma wakeup_scan_run rest : forall pre fuel s c,
  ptable s = pre ++ rest ->
  (forall j q, ptable s !! j = Some q -> j <> cur s -> lock q = false) ->
  wakeup_scan (length rest) (length pre) c fuel s =
    Done tt (set_ptable (pre ++ wake_from (cur s) c (length pre) rest) s).
Proof.
  induction rest as [|q rest IH]; intros pre fuel s c Hs Hfree.
  - cbn. unfold ret. rewrite <- Hs. rewrite set_ptable_id. reflexivity.
  - cbn [length wakeup_scan wake_from].
    assert (Hq : ptable s !! length pre = Some q).
    { rewrite Hs. rewrite lookup_app_r by lia. rewrite Nat.sub_diag. reflexivity. }
    set (q' := wake (cur s) c (length pre) q).
    assert (Hins : <[length pre := q']> (ptable s) = (pre ++ [q']) ++ rest).
    { rewrite Hs. rewrite insert_app_r_alt by lia. rewrite Nat.sub_diag.
      cbn. rewrite <- app_assoc. reflexivity. }
    assert (Hstep : forall s1, s1 = set_ptable (<[length pre := q']> (ptable s)) s ->
      wakeup_scan (length rest) (S (length pre)) c fuel s1 =
        Done tt (set_ptable (pre ++ q' :: wake_from (cur s) c (S (length pre)) rest) s)).
    { intros s1 ->.
      replace (S (length pre)) with (length (pre ++ [q']))
        by (rewrite length_app; cbn; lia).
      rewrite (IH (pre ++ [q']) fuel _ c).
      - sproj. rewrite <- app_assoc. reflexivity.
      - sproj. exact Hins.
      - sproj. intros j q0 Hq0 Hj.
        destruct (decide (j = length pre)) as [->|Hjn].
        + rewrite list_lookup_insert_eq in Hq0 by exact (lookup_lt_Some _ _ _ Hq).
          injection Hq0 as <-. subst q'. rewrite wake_lock.
          apply (Hfree _ _ Hq Hj).
        + rewrite list_lookup_insert_ne in Hq0 by congruence.
          apply (Hfree _ _ Hq0 Hj). }
    unfold thisproc. rewrite bind_gets.
    destruct (decide (length pre = cur s)) as [Hme | Hme].
    + rewrite bind_ret. apply Hstep.
      subst q'. unfold wake. rewrite decide_True by exact Hme.
      rewrite list_insert_id by exact Hq. rewrite set_ptable_id. reflexivity.
    + assert (Hl : lock q = false) by (apply (Hfree _ _ Hq Hme)).
      unfold bind at 1.
      rewrite (bind_acquire_slot _ _ fuel s q Hq Hl).
      kstep Hq Hq Hq. pproj.
      assert (Hq' : q' = if decide (state q = SLEEPING /\ chan q = c)
                         then set_state RUNNABLE q else q).
      { subst q'. unfold wake. rewrite decide_False by exact Hme. reflexivity. }
      destruct (decide (state q = SLEEPING /\ chan q = c)) as [Hs1 | Hs1].
      * kstep Hq Hq Hq.
        erewrite release_slot_run by lookup2 Hq Hq Hq.
        cbv beta iota. sproj. rewrite list_insert_insert_eq.
        apply Hstep. rewrite Hq'. pproj.
        replace (set_lock false (set_state RUNNABLE (set_lock true q)))
          with (set_state RUNNABLE q)
          by (destruct q; cbn in Hl; subst; reflexivity).
        destruct s; reflexivity.
      * rewrite bind_ret.
        erewrite release_slot_run by lookup2 Hq Hq Hq.
        cbv beta iota. sproj. rewrite list_insert_insert_eq.
        apply Hstep. rewrite Hq'.
        replace (set_lock false (set_lock true q)) with q
          by (destruct q; cbn in Hl; subst; reflexivity).
        destruct s; reflexivity.
Qed.

(** X12. With the locks of the other slots free, [wakeup c] makes
    RUNNABLE exactly the slots other than the caller's that are SLEEPING
    on [c]; the caller's own slot, slots in other states and slots
    sleeping on other channels are left as they are, and every lock is
    free again afterwards. *)
Theorem wakeup_wakes_sleepers (c : option nat) (fuel : nat) (s : State) :
  (forall j q, ptable s !! j = Some q -> j <> cur s -> lock q = false) ->
  exists s',
    wakeup c fuel s = Done tt s'
    /\ s' = set_ptable (ptable s') s
    /\ forall j q, ptable s !! j = Some q ->
         ptable s' !! j =
           Some (if decide (j = cur s) then q
                 else if decide (state q = SLEEPING /\ chan q = c)
                      then set_state RUNNABLE q
                 else q).
Proof.
  intros Hfree. unfold wakeup. rewrite bind_gets.
  pose proof (wakeup_scan_run (ptable s) [] fuel s c eq_refl Hfree) as Hrun.
  cbn [length app] in Hrun. rewrite Hrun.
  eexists. split; [reflexivity|]. sproj. split; [reflexivity|].
  intros j q Hq. rewrite wake_from_lookup, Hq. reflexivity.
Qed.

(** *** file.c *)

Section Files.

Context {F : ExternFs}.

Lemma bind_getf {B} f (k : file -> M B) fuel s fl :
  ftable s !! f = Some fl -> bind (getf f) k fuel s = k fl fuel s.
Proof. intros H. unfold bind, getf. rewrite H. reflexivity. Qed.

Lemma bind_modf {B} f g (k : unit -> M B) fuel s fl :
  ftable s !! f = Some fl ->
  bind (modf f g) k fuel s = k tt fuel (set_ftable (<[f := g fl]> (ftable s)) s).
Proof. intros H. unfold bind, modf. rewrite H. reflexivity. Qed.

Lemma ftable_unlock t s :
  ftable_lock s = false ->
  set_ftable_lock false (set_ftable t (set_ftable_lock true s)) = set_ftable t s.
Proof. intros H. destruct s. cbn in H. subst. reflexivity. Qed.

Lemma ftable_lock_back s :
  ftable_lock s = false -> set_ftable_lock false (set_ftable_lock true s) = s.
Proof. intros H. destruct s. cbn in H. subst. reflexivity. Qed.

Lemma file_alloc_scan_found n : forall i fuel s f fl,
  (i <= f < i + n)%nat ->
  ftable_lock s = false ->
  (forall j g, (i <= j < f)%nat -> ftable s !! j = Some g -> ref g <> 0) ->
  ftable s !! f = Some fl -> ref fl = 0 ->
  file_alloc_scan n i fuel (set_ftable_lock true s) =
    Done (Some f) (set_ftable (<[f := set_ref 1 fl]> (ftable s)) s).
Proof.
  induction n as [|n IH]; intros i fuel s f fl Hi Hl Hbusy Hf Hr; [lia|].
  cbn [file_alloc_scan].
  destruct (decide (i = f)) as [->|Hne].
  - erewrite bind_getf by (sproj; exact Hf). rewrite Hr. cbn [Z.eqb].
    erewrite bind_modf by (sproj; exact Hf).
    unfold release. rewrite bind_modify. unfold ret. sproj.
    rewrite (ftable_unlock _ s Hl). reflexivity.
  - assert (Hlt : (i < length (ftable s))%nat).
    { apply lookup_lt_Some in Hf. lia. }
    destruct (lookup_lt_is_Some_2 _ _ Hlt) as [g Hg].
    erewrite bind_getf by (sproj; exact Hg).
    destruct (ref g =? 0) eqn:Eg.
    { apply Z.eqb_eq in Eg. exfalso. apply (Hbusy i g); [lia | exact Hg | exact Eg]. }
    apply IH; auto; try lia. intros j g' Hj. apply Hbusy. lia.
Qed.

Lemma file_alloc_scan_full n : forall i fuel s,
  (i + n = length (ftable s))%nat ->
  ftable_lock s = false ->
  (forall j g, ftable s !! j = Some g -> ref g <> 0) ->
  file_alloc_scan n i fuel (set_ftable_lock true s) = Done None s.
Proof.
  induction n as [|n IH]; intros i fuel s Hlen Hl Hbusy.
  - cbn [file_alloc_scan]. unfold release. rewrite bind_modify. unfold ret.
    rewrite (ftable_lock_back s Hl). reflexivity.
  - cbn [file_alloc_scan].
    destruct (lookup_lt_is_Some_2 (ftable s) i ltac:(lia)) as [g Hg].
    erewrite bind_getf by (sproj; exact Hg).
    destruct (ref g =? 0) eqn:Eg.
    { apply Z.eqb_eq in Eg. exfalso. apply (Hbusy i g Hg Eg). }
    apply IH; auto. lia.
Qed.

(** X13. [file_alloc] returns the first entry of the file table whose
    reference count is 0 and sets its count to 1, changing nothing else;
    when every entry is referenced it returns NULL and leaves the state
    as it was. In both cases [ftable.lock] is free again. *)
Theorem file_alloc_first_free (fuel : nat) (s : State) :
  ftable_lock s = false ->
  (forall f fl,
     ftable s !! f = Some fl -> ref fl = 0 ->
     (forall j g, (j < f)%nat -> ftable s !! j = Some g -> ref g <> 0) ->
     file_alloc fuel s =
       Done (Some f) (set_ftable (<[f := set_ref 1 fl]> (ftable s)) s))
  /\ ((forall j g, ftable s !! j = Some g -> ref g <> 0) ->
      file_alloc fuel s = Done None s).
Proof.
  intros Hl. split.
  - intros f fl Hf Hr Hbusy. unfold file_alloc.
    rewrite bind_acquire by exact Hl. rewrite bind_gets. sproj.
    apply file_alloc_scan_found; auto.
    + apply lookup_lt_Some in Hf. lia.
    + intros j g Hj. apply Hbusy. lia.
  - intros Hbusy. unfold file_alloc.
    rewrite bind_acquire by exact Hl. rewrite bind_gets. sproj.
    apply file_alloc_scan_full; auto.
Qed.

Lemma i32_i32_pred r : 1 <= r < INT_MAX -> i32 (i32 (r + 1) - 1) = r.
Proof.
  unfold INT_MAX. intros H.
  rewrite (i32_small (r + 1)) by (unfold INT_MIN, INT_MAX; lia).
  replace (r + 1 - 1) with r by lia.
  apply i32_small. unfold INT_MIN, INT_MAX. lia.
Qed.

Lemma file_dup_run f fuel s fl :
  ftable_lock s = false -> ftable s !! f = Some fl -> 1 <= ref fl ->
  file_dup f fuel s =
    Done f (set_ftable (<[f := set_ref (i32 (ref fl + 1)) fl]> (ftable s)) s).
Proof.
  intros Hl Hf Hr. unfold file_dup.
  rewrite bind_acquire by exact Hl. rewrite bind_gets. sproj. rewrite Hf.
  destruct (ref fl <? 1) eqn:E1; [apply Z.ltb_lt in E1; lia|].
  rewrite bind_modify. unfold release. rewrite bind_modify. unfold ret.
  rewrite (ftable_unlock _ s Hl). reflexivity.
Qed.

(** What [file_close] does to the last reference of an inode file. *)
Lemma file_close_run f fuel s fl :
  ftable_lock s = false -> ftable s !! f = Some fl -> 1 <= ref fl <= INT_MAX ->
  file_close f fuel s =
    if 1 <? ref fl then
      Done tt (set_ftable (<[f := set_ref (ref fl - 1) fl]> (ftable s)) s)
    else if decide (type fl = FD_INODE) then
      Done tt (set_world (end_op (iput (ip fl) (begin_op (world s))))
                (set_ftable (<[f := set_type FD_NONE (set_ref 0 fl)]> (ftable s)) s))
    else
      Panic "file_close: unsupported type."
        (set_ftable (<[f := set_type FD_NONE (set_ref 0 fl)]> (ftable s)) s).
Proof.
  intros Hl Hf Hr. unfold file_close.
  rewrite bind_acquire by exact Hl.
  erewrite bind_getf by (sproj; exact Hf).
  destruct (ref fl <? 1) eqn:E1; [apply Z.ltb_lt in E1; lia|].
  erewrite bind_modf by (sproj; exact Hf). sproj.
  rewrite i32_small by (unfold INT_MIN, INT_MAX in *; lia).
  erewrite bind_getf
    by (sproj; apply list_lookup_insert_eq; exact (lookup_lt_Some _ _ _ Hf)).
  cbn [ref set_ref].
  destruct (1 <? ref fl) eqn:E2.
  - apply Z.ltb_lt in E2.
    destruct (0 <? ref fl - 1) eqn:E3; [|apply Z.ltb_ge in E3; lia].
    unfold release. rewrite bind_modify. unfold ret.
    rewrite (ftable_unlock _ s Hl). reflexivity.
  - apply Z.ltb_ge in E2.
    destruct (0 <? ref fl - 1) eqn:E3; [apply Z.ltb_lt in E3; lia|].
    cbv zeta.
    erewrite bind_modf
      by (sproj; apply list_lookup_insert_eq; exact (lookup_lt_Some _ _ _ Hf)).
    sproj. rewrite list_insert_insert_eq.
    erewrite bind_modf
      by (sproj; apply list_lookup_insert_eq; exact (lookup_lt_Some _ _ _ Hf)).
    sproj. rewrite list_insert_insert_eq.
    unfold release. rewrite bind_modify.
    cbn [type set_ref ip set_type].
    match goal with
    | |- _ fuel ?st = _ =>
        replace st
          with (set_ftable (<[f := set_type FD_NONE (set_ref 0 fl)]> (ftable s)) s)
          by (destruct s; cbn in Hl |- *; subst; reflexivity)
    end.
    destruct (decide (type fl = FD_INODE)).
    + unfold ext_. rewrite !bind_modify. unfold modify. reflexivity.
    + reflexivity.
Qed.

(** X14. [file_close] of a file with several references only decrements
    the count; closing the last reference of an inode file marks the
    entry free (count 0, type FD_NONE) and puts the inode inside a log
    transaction; closing the last reference of a file of another type
    panics after the entry was marked free; and closing an entry that is
    not referenced panics. *)
Theorem file_close_cases (f fuel : nat) (s : State) (fl : file) :
  ftable_lock s = false -> ftable s !! f = Some fl -> ref fl <= INT_MAX ->
  (1 < ref fl ->
     file_close f fuel s =
       Done tt (set_ftable (<[f := set_ref (ref fl - 1) fl]> (ftable s)) s))
  /\ (ref fl = 1 -> type fl = FD_INODE ->
     file_close f fuel s =
       Done tt (set_world (end_op (iput (ip fl) (begin_op (world s))))
                 (set_ftable (<[f := set_type FD_NONE (set_ref 0 fl)]> (ftable s)) s)))
  /\ (ref fl = 1 -> type fl <> FD_INODE ->
     file_close f fuel s =
       Panic "file_close: unsupported type."
         (set_ftable (<[f := set_type FD_NONE (set_ref 0 fl)]> (ftable s)) s))
  /\ (ref fl < 1 ->
     file_close f fuel s =
       Panic "file_close: invalid file." (set_ftable_lock true s)).
Proof.
  intros Hl Hf Hmax. split; [|split; [|split]].
  - intros Hr. rewrite (file_close_run f fuel s fl Hl Hf) by lia.
    destruct (1 <? ref fl) eqn:Ec; [reflexivity | apply Z.ltb_ge in Ec; lia].
  - intros Hr Ht. rewrite (file_close_run f fuel s fl Hl Hf) by lia.
    rewrite Hr. cbn [Z.ltb Z.compare]. rewrite decide_True by exact Ht. reflexivity.
  - intros Hr Ht. rewrite (file_close_run f fuel s fl Hl Hf) by lia.
    rewrite Hr. cbn [Z.ltb Z.compare]. rewrite decide_False by exact Ht. reflexivity.
  - intros Hr. unfold file_close.
    rewrite bind_acquire by exact Hl.
    erewrite bind_getf by (sproj; exact Hf).
    destruct (ref fl <? 1) eqn:E1; [reflexivity | apply Z.ltb_ge in E1; lia].
Qed.

(** X15. Duplicating a file and closing the duplicate is a round trip:
    the kernel state afterwards is the state before. *)
Theorem file_dup_close_roundtrip (f fuel : nat) (s : State) (fl : file) :
  ftable_lock s = false -> ftable s !! f = Some fl -> 1 <= ref fl < INT_MAX ->
  bind (file_dup f) file_close fuel s = Done tt s.
Proof.
  intros Hl Hf Hr. unfold bind.
  rewrite (file_dup_run f fuel s fl Hl Hf) by lia.
  set (fl1 := set_ref (i32 (ref fl + 1)) fl).
  assert (Hr1 : ref fl1 = ref fl + 1).
  { subst fl1. cbn. apply i32_small. unfold INT_MIN, INT_MAX in *. lia. }
  rewrite (file_close_run f fuel _ fl1);
    [| exact Hl
     | sproj; apply list_lookup_insert_eq; exact (lookup_lt_Some _ _ _ Hf)
     | lia ].
  destruct (1 <? ref fl1) eqn:Ec; [|apply Z.ltb_ge in Ec; lia].
  sproj. rewrite list_insert_insert_eq. rewrite Hr1.
  replace (set_ref (ref fl + 1 - 1) fl1) with fl.
  - rewrite list_insert_id by exact Hf. destruct s; reflexivity.
  - subst fl1. unfold set_ref. cbn. replace (ref fl + 1 - 1) with (ref fl) by lia.
    destruct fl; reflexivity.
Qed.

(** One turn of the loop of [file_write] when [writei] writes all it is
    asked to. *)
Lemma file_write_turn_full f addr n i fuel s g :
  ftable s !! f = Some g ->
  0 <= i < n -> n <= INT_MAX ->
  (forall ino a o k m w, 0 < k <= write_max -> fst (writei ino a o k m w) = k) ->
  exists w',
    file_write_turn f addr n i fuel s =
      Done (inl (i + Z.min (n - i) write_max))
        (set_world w'
          (set_ftable (<[f := set_off (u64 (off g + Z.min (n - i) write_max)) g]>
                         (ftable s)) s)).
Proof.
  intros Hf Hi Hn Hfull. unfold file_write_turn.
  assert (Hmax : write_max = 1536) by reflexivity.
  rewrite (i32_small (n - i)) by (unfold INT_MIN, INT_MAX in *; lia).
  set (n1 := if write_max <? n - i then write_max else n - i).
  assert (Hn1 : n1 = Z.min (n - i) write_max).
  { subst n1. destruct (write_max <? n - i) eqn:Ec.
    - apply Z.ltb_lt in Ec. lia.
    - apply Z.ltb_ge in Ec. lia. }
  assert (Hn1r : 0 < n1 <= write_max) by lia.
  cbv zeta. unfold ext_ at 1. rewrite bind_modify.
  erewrite bind_getf by (sproj; exact Hf).
  unfold ext_ at 1. rewrite bind_modify.
  erewrite bind_getf by (sproj; exact Hf).
  unfold bind at 1. sproj.
  rewrite (u64_small n1) by (unfold INT_MAX in *; lia).
  match goal with
  | |- context [writei ?a ?b ?c ?d ?e ?w] =>
      pose proof (Hfull a b c d e w Hn1r) as Hr;
      destruct (writei a b c d e w) as [r w1]
  end.
  cbn [fst] in Hr. subst r.
  rewrite (i32_small n1) by (unfold INT_MIN, INT_MAX in *; lia).
  destruct (0 <? n1) eqn:E0; [|apply Z.ltb_ge in E0; lia].
  unfold bind at 1.
  erewrite bind_getf by (sproj; exact Hf).
  unfold modf at 1. sproj. rewrite Hf. cbv beta iota.
  erewrite bind_getf
    by (sproj; apply list_lookup_insert_eq; exact (lookup_lt_Some _ _ _ Hf)).
  unfold ext_. rewrite !bind_modify. sproj.
  destruct (n1 <? 0) eqn:E1; [apply Z.ltb_lt in E1; lia|].
  rewrite Z.eqb_refl. cbn [negb].
  rewrite (i32_small (i + n1)) by (unfold INT_MIN, INT_MAX in *; lia).
  unfold ret. rewrite <- Hn1. eexists. reflexivity.
Qed.

Lemma u64_add_l a b : u64 (u64 a + b) = u64 (a + b).
Proof. unfold u64. apply Zplus_mod_idemp_l. Qed.

Lemma file_write_loop_full f addr n fl
    (Hfull : forall ino a o k m w, 0 < k <= write_max -> fst (writei ino a o k m w) = k) :
  n <= INT_MAX ->
  forall fuel i s,
    0 <= i <= n ->
    n - i <= write_max * Z.of_nat fuel ->
    ftable s !! f = Some (set_off (u64 (off fl + i)) fl) ->
    exists w',
      file_write_loop f addr n i fuel s =
        Done n (set_world w'
                 (set_ftable (<[f := set_off (u64 (off fl + n)) fl]> (ftable s)) s)).
Proof.
  intros Hn. assert (Hmax : write_max = 1536) by reflexivity.
  induction fuel as [|k IH]; intros i s Hi Hfuel Hf.
  - assert (i = n) by lia. subst i. cbn [file_write_loop].
    rewrite Z.ltb_irrefl, Z.eqb_refl.
    exists (world s). rewrite list_insert_id by exact Hf.
    destruct s; reflexivity.
  - cbn [file_write_loop].
    destruct (i <? n) eqn:Ei.
    + apply Z.ltb_lt in Ei.
      destruct (file_write_turn_full f addr n i k s _ Hf ltac:(lia) Hn Hfull)
        as (w1 & Hturn).
      rewrite Hturn. cbn [off set_off]. rewrite u64_add_l.
      match goal with
      | |- context [file_write_loop _ _ _ _ _ ?st] => set (s1 := st)
      end.
      destruct (IH (i + Z.min (n - i) write_max) s1) as (w' & Hrun).
      * lia.
      * lia.
      * subst s1. sproj. rewrite list_lookup_insert_eq
          by exact (lookup_lt_Some _ _ _ Hf).
        f_equal. unfold set_off. cbn. f_equal. f_equal. lia.
      * exists w'. rewrite Hrun. subst s1. sproj.
        rewrite list_insert_insert_eq. reflexivity.
    + apply Z.ltb_ge in Ei. assert (i = n) by lia. subst i.
      rewrite Z.eqb_refl.
      exists (world s). rewrite list_insert_id by exact Hf.
      destruct s; reflexivity.
Qed.

(** X16. [file_write] of [n] bytes to a writable inode file, when every
    [writei] of at most 1536 bytes writes all it is asked to: it asks
    [writei] for no more than 1536 bytes at a time, returns [n] and
    advances the file offset by [n], changing nothing else of the file
    table entry. A file that is not writable is refused with -1, and
    nothing changes. *)
Theorem file_write_in_chunks (f : nat) (addr n : Z) (fuel : nat) (s : State) (fl : file) :
  ftable s !! f = Some fl ->
  (writable fl = false -> file_write f addr n fuel s = Done (-1) s)
  /\ (writable fl = true -> type fl = FD_INODE ->
      0 <= n <= INT_MAX -> 0 <= off fl < 2 ^ 64 ->
      n <= write_max * Z.of_nat fuel ->
      (forall ino a o k m w, 0 < k <= write_max -> fst (writei ino a o k m w) = k) ->
      exists w',
        file_write f addr n fuel s =
          Done n (set_world w'
                   (set_ftable (<[f := set_off (u64 (off fl + n)) fl]> (ftable s)) s))).
Proof.
  intros Hf. split.
  - intros Hw. unfold file_write. rewrite (bind_getf f _ fuel s fl Hf).
    rewrite Hw. reflexivity.
  - intros Hw Ht Hn Hoff Hfuel Hfull.
    unfold file_write. rewrite (bind_getf f _ fuel s fl Hf).
    rewrite Hw. cbn [negb]. rewrite decide_True by exact Ht.
    apply (file_write_loop_full f addr n fl Hfull); try lia.
    rewrite Z.add_0_r. rewrite u64_small by exact Hoff.
    rewrite Hf. f_equal. destruct fl; reflexivity.
Qed.

(** *** exit *)

Lemma opens_nonneg f l : 0 <= opens f l.
Proof. induction l as [|o l IH]; cbn; [lia|]. destruct (decide _); lia. Qed.

Lemma never_returns_bind {A B} (m : M A) (k : A -> M B) :
  (forall a, never_returns (k a)) -> never_returns (bind m k).
Proof.
  intros Hk fuel s b s'. unfold bind.
  destruct (m fuel s) as [a s1 | | |]; try discriminate. apply Hk.
Qed.

Lemma never_returns_panic {A} msg : never_returns (panic msg : M A).
Proof. intros fuel s a s'. discriminate. Qed.

Section Exit.

Variable initproc : option nat.
Variable swtch : State -> State.

(** X17. [exit] does not return: whatever the state, the status and the
    fuel, a run of [exit] never ends with a result, and neither does
    [sys_exit]. A call by [initproc] panics at once. *)
Theorem exit_never_returns (status : Z) :
  never_returns (exit initproc swtch status)
  /\ never_returns (sys_exit initproc swtch)
  /\ forall fuel s, initproc = Some (cur s) ->
       exit initproc swtch status fuel s = Panic "exit: initproc exiting." s.
Proof.
  assert (Hex : forall st, never_returns (exit initproc swtch st)).
  { intros st. unfold exit. apply never_returns_bind. intros p.
    destruct (decide (Some p = initproc)); [apply never_returns_panic|].
    repeat (apply never_returns_bind; intros ?).
    apply never_returns_panic. }
  split; [apply Hex|]. split.
  - unfold sys_exit. intros fuel s a s'. unfold bind.
    destruct (exit initproc swtch 0 fuel s) as [u s1 | | |] eqn:Hrun;
      try discriminate.
    exfalso. exact (Hex 0 fuel s u s1 Hrun).
  - intros fuel s Hinit. unfold exit, thisproc. rewrite bind_gets.
    rewrite decide_True by congruence. reflexivity.
Qed.

Lemma exit_files_run fuel p pp n : forall i s q,
  (i + n = length (ofile pp))%nat ->
  ptable s !! p = Some q ->
  ofile q = replicate i None ++ drop i (ofile pp) ->
  ftable_lock s = false ->
  closable (drop i (ofile pp)) s ->
  exists t w,
    exit_files n i p fuel s =
      Done tt
        (set_world w
          (set_ftable t
            (set_ptable
               (<[p := set_ofile (replicate (length (ofile pp)) None) q]> (ptable s))
               s))).
Proof.
  induction n as [|n IH]; intros i s q Hlen Hq Hof Hl Hcl.
  - exists (ftable s), (world s). cbn [exit_files]. unfold ret. f_equal.
    assert (i = length (ofile pp)) by lia. subst i.
    rewrite drop_all, app_nil_r in Hof. rewrite <- Hof.
    replace (set_ofile (ofile q) q) with q by (destruct q; reflexivity).
    rewrite list_insert_id by exact Hq. destruct s; reflexivity.
  - cbn [exit_files].
    rewrite (bind_getp p _ fuel s q Hq).
    destruct (lookup_lt_is_Some_2 (ofile pp) i ltac:(lia)) as [o Ho].
    assert (Hoq : ofile q !! i = Some o).
    { rewrite Hof. rewrite lookup_app_r by (rewrite length_replicate; lia).
      rewrite length_replicate, Nat.sub_diag. rewrite lookup_drop.
      rewrite Nat.add_0_r. exact Ho. }
    assert (Hdrop : drop i (ofile pp) = o :: drop (S i) (ofile pp)).
    { apply drop_S. exact Ho. }
    rewrite Hoq.
    assert (Hnext : forall q1,
      ofile q1 = <[i := None]> (ofile q) ->
      ofile q1 = replicate (S i) None ++ drop (S i) (ofile pp)).
    { intros q1 ->. rewrite Hof.
      rewrite insert_app_r_alt by (rewrite length_replicate; lia).
      rewrite length_replicate, Nat.sub_diag. rewrite Hdrop.
      rewrite replicate_S_end. rewrite <- app_assoc. reflexivity. }
    destruct o as [f|].
    + destruct (Hcl f) as (fl & Hf & Ht & Hr).
      { rewrite Hdrop. cbn. rewrite decide_True by reflexivity.
        pose proof (opens_nonneg f (drop (S i) (ofile pp))). lia. }
      rewrite Hdrop in Hr. cbn [opens] in Hr.
      rewrite decide_True in Hr by reflexivity.
      pose proof (opens_nonneg f (drop (S i) (ofile pp))) as Hnn.
      unfold bind at 1. unfold bind at 1.
      rewrite (file_close_run f fuel s fl Hl Hf) by lia.
      set (q1 := set_ofile (<[i := None]> (ofile q)) q).
      destruct (1 <? ref fl) eqn:E1.
      * apply Z.ltb_lt in E1.
        erewrite modp_run by (sproj; exact Hq). cbv beta iota. sproj.
        match goal with
        | |- context [exit_files n (S i) p fuel ?st] => set (s1 := st)
        end.
        destruct (IH (S i) s1 q1) as (t & w & Hrun).
        -- lia.
        -- subst s1. sproj. apply list_lookup_insert_eq.
           exact (lookup_lt_Some _ _ _ Hq).
        -- apply Hnext. reflexivity.
        -- exact Hl.
        -- intros g Hg. subst s1. sproj.
           destruct (decide (g = f)) as [->|Hgf].
           ++ eexists. rewrite list_lookup_insert_eq
                by exact (lookup_lt_Some _ _ _ Hf).
              split; [reflexivity|]. cbn. split; [exact Ht | lia].
           ++ destruct (Hcl g) as (gl & Hg1 & Hg2 & Hg3).
              { rewrite Hdrop. cbn. destruct (decide _); lia. }
              exists gl. rewrite list_lookup_insert_ne by congruence.
              split; [exact Hg1|]. split; [exact Hg2|].
              rewrite Hdrop in Hg3. cbn [opens] in Hg3.
              rewrite decide_False in Hg3 by congruence. lia.
        -- exists t, w. rewrite Hrun. subst s1 q1. sproj.
           rewrite list_insert_insert_eq. reflexivity.
      * apply Z.ltb_ge in E1. rewrite decide_True by exact Ht.
        erewrite modp_run by (sproj; exact Hq). cbv beta iota. sproj.
        match goal with
        | |- context [exit_files n (S i) p fuel ?st] => set (s1 := st)
        end.
        destruct (IH (S i) s1 q1) as (t & w & Hrun).
        -- lia.
        -- subst s1. sproj. apply list_lookup_insert_eq.
           exact (lookup_lt_Some _ _ _ Hq).
        -- apply Hnext. reflexivity.
        -- exact Hl.
        -- intros g Hg. subst s1. sproj.
           destruct (decide (g = f)) as [->|Hgf]; [lia|].
           destruct (Hcl g) as (gl & Hg1 & Hg2 & Hg3).
           { rewrite Hdrop. cbn. destruct (decide _); lia. }
           exists gl. rewrite list_lookup_insert_ne by congruence.
           split; [exact Hg1|]. split; [exact Hg2|].
           rewrite Hdrop in Hg3. cbn [opens] in Hg3.
           rewrite decide_False in Hg3 by congruence. lia.
        -- exists t, w. rewrite Hrun. subst s1 q1. sproj.
           rewrite list_insert_insert_eq. reflexivity.
    + rewrite bind_ret.
      destruct (IH (S i) s q) as (t & w & Hrun); auto; try lia.
      * rewrite Hof. rewrite Hdrop. rewrite replicate_S_end.
        rewrite <- app_assoc. reflexivity.
      * intros g Hg. destruct (Hcl g) as (gl & Hg1 & Hg2 & Hg3).
        { rewrite Hdrop. cbn. rewrite decide_False by discriminate. lia. }
        exists gl. split; [exact Hg1|]. split; [exact Hg2|].
        rewrite Hdrop in Hg3. cbn [opens] in Hg3.
        rewrite decide_False in Hg3 by discriminate. lia.
      * exists t, w. exact Hrun.
Qed.

Lemma reparent_run (p fuel : nat) (s : State) :
  reparent initproc p fuel s =
    Done tt (set_ptable (map (adopt initproc p) (ptable s)) s).
Proof.
  unfold reparent. rewrite bind_gets.
  exact (reparent_scan_run initproc (ptable s) [] fuel s p eq_refl).
Qed.

Lemma adopt_fields p q :
  lock (adopt initproc p q) = lock q
  /\ state (adopt initproc p q) = state q
  /\ xstate (adopt initproc p q) = xstate q
  /\ cwd (adopt initproc p q) = cwd q
  /\ ofile (adopt initproc p q) = ofile q.
Proof. unfold adopt. destruct (decide _); repeat split; reflexivity. Qed.

(** X18. A process other than [initproc] whose descriptors can all be
    closed hands itself to the scheduler as a ZOMBIE: its slot carries the
    exit status, has its lock held, no open file and no working
    directory, and [wait_lock] is free. Every other slot is as before,
    except that the children of the caller now belong to [initproc]; in
    particular no sleeping parent is made RUNNABLE. If the switch comes
    back, [exit] panics. *)
Theorem exit_leaves_zombie (status : Z) (fuel : nat) (s : State) (pp : proc) :
  initproc <> Some (cur s) ->
  ptable s !! cur s = Some pp -> lock pp = false ->
  wait_lock s = false -> ftable_lock s = false ->
  closable (ofile pp) s ->
  exists sz z,
    exit initproc swtch status fuel s = Panic "exit: zombie returned!" (swtch sz)
    /\ ptable sz !! cur s = Some z
    /\ state z = ZOMBIE /\ xstate z = status /\ lock z = true
    /\ cwd z = 0 /\ ofile z = replicate (length (ofile pp)) None
    /\ wait_lock sz = false
    /\ forall j q, j <> cur s -> ptable s !! j = Some q ->
         ptable sz !! j = Some (adopt initproc (cur s) q).
Proof.
  intros Hinit Hp Hlk Hwl Hfl Hcl.
  unfold exit, thisproc. rewrite bind_gets.
  rewrite decide_False by congruence.
  rewrite (bind_getp _ _ fuel s pp Hp).
  destruct (exit_files_run fuel (cur s) pp (length (ofile pp)) 0%nat s pp)
    as (t & w & Hrun); auto.
  unfold bind at 1. rewrite Hrun. clear Hrun.
  set (q0 := set_ofile (replicate (length (ofile pp)) None) pp).
  cbv beta iota.
  match goal with |- context [bind _ _ fuel ?st] => set (s1 := st) end.
  assert (Hp1 : ptable s1 !! cur s = Some q0).
  { subst s1. sproj. apply list_lookup_insert_eq. exact (lookup_lt_Some _ _ _ Hp). }
  assert (Ht1 : ptable s1 = <[cur s := q0]> (ptable s)) by reflexivity.
  assert (Hw1 : wait_lock s1 = false) by exact Hwl.
  assert (Hc1 : cur s1 = cur s) by reflexivity.
  clearbody s1.
  unfold ext_ at 1. rewrite bind_modify.
  erewrite bind_getp by (sproj; exact Hp1).
  unfold ext_ at 1. rewrite bind_modify.
  erewrite bind_modp by (sproj; exact Hp1).
  unfold ext_ at 1. rewrite bind_modify.
  rewrite bind_acquire by (sproj; exact Hw1).
  unfold bind at 1. rewrite reparent_run. sproj. cbv beta iota.
  rewrite Ht1. rewrite list_insert_insert_eq.
  set (q1 := set_cwd 0 q0).
  set (tb := map (adopt initproc (cur s)) (<[cur s := q1]> (ptable s))).
  assert (Hq : tb !! cur s = Some (adopt initproc (cur s) q1)).
  { subst tb. rewrite list_lookup_fmap.
    rewrite list_lookup_insert_eq by exact (lookup_lt_Some _ _ _ Hp).
    reflexivity. }
  assert (Hoth : forall j q, j <> cur s -> ptable s !! j = Some q ->
            tb !! j = Some (adopt initproc (cur s) q)).
  { intros j q Hj Hjq. subst tb. rewrite list_lookup_fmap.
    rewrite list_lookup_insert_ne by congruence. rewrite Hjq. reflexivity. }
  clearbody tb.
  destruct (adopt_fields (cur s) q1) as (Al & As & Ax & Ac & Ao).
  set (q2 := adopt initproc (cur s) q1) in *. clearbody q2.
  erewrite bind_acquire_slot; [| sproj; exact Hq | rewrite Al; exact Hlk].
  sproj.
  erewrite bind_modp
    by (sproj; apply list_lookup_insert_eq; exact (lookup_lt_Some _ _ _ Hq)).
  sproj. rewrite list_insert_insert_eq.
  erewrite bind_modp
    by (sproj; apply list_lookup_insert_eq; exact (lookup_lt_Some _ _ _ Hq)).
  sproj. rewrite list_insert_insert_eq.
  unfold release at 1. rewrite bind_modify. sproj.
  unfold sched, thisproc. unfold bind at 1. rewrite bind_gets. sproj.
  rewrite bind_gets. unfold slot_held. sproj. rewrite Hc1.
  rewrite list_lookup_insert_eq by exact (lookup_lt_Some _ _ _ Hq).
  pproj. cbn [negb].
  erewrite bind_getp
    by (sproj; apply list_lookup_insert_eq; exact (lookup_lt_Some _ _ _ Hq)).
  pproj. rewrite decide_False by discriminate.
  unfold modify at 1.
  match goal with |- context [swtch ?st] => exists st end.
  exists (set_state ZOMBIE (set_xstate status (set_lock true q2))).
  split; [reflexivity|]. sproj.
  split; [apply list_lookup_insert_eq; exact (lookup_lt_Some _ _ _ Hq)|].
  pproj. split; [reflexivity|]. split; [reflexivity|]. split; [reflexivity|].
  split; [rewrite Ac; reflexivity|]. split; [rewrite Ao; reflexivity|].
  split; [reflexivity|].
  intros j q Hj Hjq. rewrite list_lookup_insert_ne by congruence.
  apply Hoth; assumption.
Qed.

End Exit.

(** *** sysproc.c: sys_clone and sys_wait4 *)

Section Calls.

Variable swtch : State -> State.

Lemma bind_argint {B} n (k : Z * Z -> M B) fuel s p :
  n <= 3 -> ptable s !! cur s = Some p ->
  bind (argint n) k fuel s =
    k (0, u64 (kmem s (tf p + 8 * (TF_X0 + 1) + 8 * n))) fuel s.
Proof. intros Hn H. unfold bind. rewrite (argint_le3 n fuel s p Hn H). reflexivity. Qed.

(** X19. [sys_clone] is [fork] when its first argument is 17 (SIGCHLD),
    whatever the second argument (the child stack) is; with any other
    flag it returns -1 and only writes to the console. *)
Theorem sys_clone_only_sigchld (fuel : nat) (s : State) (p : proc) :
  ptable s !! cur s = Some p ->
  let flag := u64 (kmem s (tf p + 8 * (TF_X0 + 1) + 8 * 0)) in
  (flag = 17 -> sys_clone fuel s = fork fuel s)
  /\ (flag <> 17 ->
      sys_clone fuel s =
        Done (-1)
          (set_console
             (("sys_clone: flags other than SIGCHLD are not supported."%string, [])
                :: console s) s)).
Proof.
  intros H flag.
  assert (Hrun : sys_clone fuel s =
    (if negb (flag =? 17)
     then bind (cprintf "sys_clone: flags other than SIGCHLD are not supported." [])
            (fun _ => ret (-1))
     else fork) fuel s).
  { unfold sys_clone.
    rewrite (bind_argint 0 _ fuel s p ltac:(lia) H). cbn [fst snd].
    change (0 <? 0) with false. cbv iota.
    rewrite (bind_argint 1 _ fuel s p ltac:(lia) H). cbn [fst snd].
    change (0 <? 0) with false. cbv iota. reflexivity. }
  rewrite Hrun. split; intros Hf.
  - rewrite Hf. reflexivity.
  - destruct (flag =? 17) eqn:Ef; [apply Z.eqb_eq in Ef; contradiction|].
    reflexivity.
Qed.

(** X20. [sys_wait4] is [wait] only for the arguments (2^64-1, 0, 0, 0):
    the PID is compared as a 64-bit value, so a zero-extended 32-bit -1 is
    refused like any other PID. A refused call returns -1 and only
    writes to the console. *)
Theorem sys_wait4_any_child_only (fuel : nat) (s : State) (p : proc) :
  ptable s !! cur s = Some p ->
  let arg n := u64 (kmem s (tf p + 8 * (TF_X0 + 1) + 8 * n)) in
  (arg 0 = 2 ^ 64 - 1 -> arg 1 = 0 -> arg 2 = 0 -> arg 3 = 0 ->
   sys_wait4 swtch fuel s = wait swtch fuel s)
  /\ (~ (arg 0 = 2 ^ 64 - 1 /\ arg 1 = 0 /\ arg 2 = 0 /\ arg 3 = 0) ->
      sys_wait4 swtch fuel s =
        Done (-1)
          (set_console
             (("sys_wait4: unimplemented. pid %d, wstatus 0x%p, opt 0x%x, rusage 0x%p"%string,
               [arg 0; arg 1; arg 2; arg 3]) :: console s) s)).
Proof.
  intros H arg.
  assert (Hrun : sys_wait4 swtch fuel s =
    (if negb (arg 0 =? u64 (-1)) || negb (arg 1 =? 0)
        || negb (arg 2 =? 0) || negb (arg 3 =? 0)
     then bind (cprintf "sys_wait4: unimplemented. pid %d, wstatus 0x%p, opt 0x%x, rusage 0x%p"
                  [arg 0; arg 1; arg 2; arg 3])
            (fun _ => ret (-1))
     else wait swtch) fuel s).
  { unfold sys_wait4.
    rewrite (bind_argint 0 _ fuel s p ltac:(lia) H). cbn [fst snd].
    change (0 <? 0) with false. cbv iota.
    rewrite (bind_argint 1 _ fuel s p ltac:(lia) H). cbn [fst snd].
    change (0 <? 0) with false. cbv iota.
    rewrite (bind_argint 2 _ fuel s p ltac:(lia) H). cbn [fst snd].
    change (0 <? 0) with false. cbv iota.
    rewrite (bind_argint 3 _ fuel s p ltac:(lia) H). cbn [fst snd].
    change (0 <? 0) with false. cbv iota zeta. reflexivity. }
  rewrite Hrun. clear Hrun.
  assert (Hm : u64 (-1) = 2 ^ 64 - 1) by reflexivity.
  rewrite Hm. split.
  - intros -> -> -> ->. reflexivity.
  - intros Hn.
    destruct (arg 0 =? 2 ^ 64 - 1) eqn:E0; [|reflexivity].
    destruct (arg 1 =? 0) eqn:E1; [|reflexivity].
    destruct (arg 2 =? 0) eqn:E2; [|reflexivity].
    destruct (arg 3 =? 0) eqn:E3; [|reflexivity].
    apply Z.eqb_eq in E0, E1, E2, E3. exfalso. apply Hn. auto.
Qed.

End Calls.

End Files.

(** *** string.h *)

Ltac zcases :=
  repeat match goal with
  | |- context [?a <=? ?b] => destruct (Z.leb_spec a b)
  | |- context [?a <? ?b] => destruct (Z.ltb_spec a b)
  | |- context [?a =? ?b] => destruct (Z.eqb_spec a b)
  end; cbn [andb negb]; try lia; try (f_equal; lia); try reflexivity.

Lemma copy_up_spec n : forall m d s,
  d <= s \/ s + Z.of_nat n <= d ->
  forall x, copy_up m d s n x =
    if (d <=? x) && (x <? d + Z.of_nat n) then m (s + (x - d)) else m x.
Proof.
  induction n as [|n IH]; intros m d s Hds x.
  - cbn [copy_up]. zcases.
  - cbn [copy_up]. rewrite IH by lia. rewrite Nat2Z.inj_succ. unfold poke.
    zcases.
Qed.

Lemma copy_down_spec n : forall m d s,
  s <= d ->
  forall x, copy_down m (d + Z.of_nat n) (s + Z.of_nat n) n x =
    if (d <=? x) && (x <? d + Z.of_nat n) then m (s + (x - d)) else m x.
Proof.
  induction n as [|n IH]; intros m d s Hds x.
  - cbn [copy_down]. zcases.
  - cbn [copy_down]. rewrite Nat2Z.inj_succ.
    replace (d + Z.succ (Z.of_nat n) - 1) with (d + Z.of_nat n) by lia.
    replace (s + Z.succ (Z.of_nat n) - 1) with (s + Z.of_nat n) by lia.
    rewrite IH by lia. unfold poke. zcases.
Qed.

(** X21. [memmove] copies correctly whether or not the two areas
    overlap: afterwards each byte of the destination holds what the
    corresponding source byte held before the call, and every byte outside
    the destination is unchanged. *)
Theorem memmove_copies (m : Z -> Z) (dst src n : Z) :
  0 <= n ->
  forall x, memmove m dst src n x =
    if (dst <=? x) && (x <? dst + n) then m (src + (x - dst)) else m x.
Proof.
  intros Hn x. unfold memmove.
  destruct ((src <? dst) && (dst <? src + n)) eqn:Ec.
  - apply andb_true_iff in Ec. destruct Ec as [E1 E2].
    apply Z.ltb_lt in E1.
    pose proof (copy_down_spec (Z.to_nat n) m dst src ltac:(lia) x) as Hd.
    rewrite Z2Nat.id in Hd by lia. exact Hd.
  - pose proof (copy_up_spec (Z.to_nat n) m dst src) as Hu.
    rewrite Z2Nat.id in Hu by lia. apply Hu.
    apply andb_false_iff in Ec. destruct Ec as [E1 | E1];
      apply Z.ltb_ge in E1; lia.
Qed.

Lemma fill_spec n : forall m p c x,
  fill m p c n x =
    if (p <=? x) && (x <? p + Z.of_nat n) then c mod 256 else m x.
Proof.
  induction n as [|n IH]; intros m p c x.
  - cbn [fill]. zcases.
  - cbn [fill]. rewrite IH. rewrite Nat2Z.inj_succ. unfold poke. zcases.
Qed.

(** X22. [memset] counts with an [int]: it stores the byte [c] in the
    first [k] bytes at [v], where [k] is the count narrowed to 32 bits,
    and changes nothing else. A count up to INT_MAX is honoured; a count
    whose low 32 bits are zero or negative as an [int] stores nothing. *)
Theorem memset_counts_int (m : Z -> Z) (v c n : Z) :
  i32 n <> INT_MIN ->
  forall x, memset m v c n x =
    if (v <=? x) && (x <? v + i32 n) then c mod 256 else m x.
Proof.
  intros Hn x. unfold memset. cbv zeta.
  destruct (i32 n =? INT_MIN) eqn:En; [apply Z.eqb_eq in En; contradiction|].
  rewrite fill_spec.
  destruct (Z.le_gt_cases 0 (i32 n)) as [Hk | Hk].
  - rewrite Z2Nat.id by lia. reflexivity.
  - rewrite Z2Nat.nonpos by lia. zcases.
Qed.

(** X23. [memcmp] returns 0 exactly when the two areas agree byte for
    byte; its result is always the difference of two bytes. *)
Theorem memcmp_zero_iff (n : nat) : forall (m : Z -> Z) (s1 s2 : Z),
  (memcmp m s1 s2 n = 0 <->
   forall i, 0 <= i < Z.of_nat n -> m (s1 + i) mod 256 = m (s2 + i) mod 256)
  /\ -255 <= memcmp m s1 s2 n <= 255.
Proof.
  induction n as [|n IH]; intros m s1 s2.
  - cbn [memcmp]. split; [|lia]. split; [intros _ i Hi; lia | reflexivity].
  - cbn [memcmp].
    pose proof (Z.mod_pos_bound (m s1) 256 ltac:(lia)) as B1.
    pose proof (Z.mod_pos_bound (m s2) 256 ltac:(lia)) as B2.
    destruct (Z.eqb_spec (m s1 mod 256) (m s2 mod 256)) as [Heq | Hne];
      cbn [negb].
    + destruct (IH m (s1 + 1) (s2 + 1)) as [[H1 H2] Hb]. split; [|exact Hb].
      split.
      * intros Hz i Hi. destruct (Z.eq_dec i 0) as [-> | Hi0].
        -- rewrite !Z.add_0_r. exact Heq.
        -- specialize (H1 Hz (i - 1) ltac:(lia)).
           replace (s1 + 1 + (i - 1)) with (s1 + i) in H1 by lia.
           replace (s2 + 1 + (i - 1)) with (s2 + i) in H1 by lia.
           exact H1.
      * intros Hall. apply H2. intros i Hi.
        replace (s1 + 1 + i) with (s1 + (i + 1)) by lia.
        replace (s2 + 1 + i) with (s2 + (i + 1)) by lia.
        apply Hall. lia.
    + split; [|lia]. split.
      * intros Hz. lia.
      * intros Hall. specialize (Hall 0 ltac:(lia)).
        rewrite !Z.add_0_r in Hall. contradiction.
Qed.

Lemma strnlen_from_spec size : forall (m : Z -> Z) (s n : Z),
  0 <= n -> n + Z.of_nat size <= INT_MAX ->
  let r := strnlen_from m s size n in
  n <= r <= n + Z.of_nat size
  /\ (forall i, 0 <= i < r - n -> m (s + i) mod 256 <> 0)
  /\ (r < n + Z.of_nat size -> m (s + (r - n)) mod 256 = 0).
Proof.
  induction size as [|size IH]; intros m s n Hn Hmax; cbv zeta.
  - cbn [strnlen_from]. split; [lia|]. split; [intros i Hi; lia | intros Hr; lia].
  - cbn [strnlen_from]. rewrite Nat2Z.inj_succ in *.
    destruct (Z.eqb_spec (m s mod 256) 0) as [Hz | Hnz].
    + split; [lia|]. split; [intros i Hi; lia|].
      intros _. rewrite Z.sub_diag, Z.add_0_r. exact Hz.
    + assert (Hi32 : i32 (n + 1) = n + 1).
      { apply i32_small. unfold INT_MAX, INT_MIN in *. lia. }
      rewrite Hi32.
      destruct (IH m (s + 1) (n + 1) ltac:(lia) ltac:(lia)) as (Hb & Hpre & Hend).
      set (r := strnlen_from m (s + 1) size (n + 1)) in *.
      split; [lia|]. split.
      * intros i Hi. destruct (Z.eq_dec i 0) as [-> | Hi0].
        -- rewrite Z.add_0_r. exact Hnz.
        -- replace (s + i) with (s + 1 + (i - 1)) by lia. apply Hpre. lia.
      * intros Hr. replace (s + (r - n)) with (s + 1 + (r - (n + 1))) by lia.
        apply Hend. lia.
Qed.

(** X24. For a size up to INT_MAX, [strnlen] returns the number of bytes
    before the first NUL of the area, or the size if the area holds no
    NUL: the result is at most the size, the bytes before it are not NUL,
    and the byte at it is NUL when it is below the size. *)
Theorem strnlen_bounded (m : Z -> Z) (s size : Z) :
  0 <= size <= INT_MAX ->
  let r := strnlen m s size in
  0 <= r <= size
  /\ (forall i, 0 <= i < r -> m (s + i) mod 256 <> 0)
  /\ (r < size -> m (s + r) mod 256 = 0).
Proof.
  intros Hs. unfold strnlen.
  pose proof (strnlen_from_spec (Z.to_nat size) m s 0 ltac:(lia)) as H.
  rewrite Z2Nat.id in H by lia. cbv zeta in H.
  specialize (H ltac:(lia)).
  destruct H as (Hb & Hpre & Hend). cbv zeta. split; [lia|]. split.
  - intros i Hi. apply Hpre. lia.
  - intros Hr. specialize (Hend ltac:(lia)).
    rewrite Z.sub_0_r in Hend. exact Hend.
Qed.

Lemma strncpy_nul rest n : strncpy (0 :: rest) n = replicate n 0.
Proof. induction n as [|n IH]; [reflexivity|]. cbn. rewrite IH. reflexivity. Qed.

Lemma strncpy_length size : forall src, length (strncpy src size) = size.
Proof.
  induction size as [|size IH]; intros src; [reflexivity|].
  cbn [strncpy]. destruct src as [|c rest]; cbn [length]; rewrite IH; reflexivity.
Qed.

(** X25. [strncpy] always writes exactly [size] characters. When the
    source has its first NUL at index [k] below [size], the result is the
    [k] characters before it followed by NULs up to [size]; when the first
    [size] characters of the source hold no NUL, the result is those
    characters and no terminator is written. *)
Theorem strncpy_pads_or_truncates (src : list Z) (size : nat) :
  length (strncpy src size) = size
  /\ (forall k, (k < size)%nat -> src !! k = Some 0 ->
        (forall i c, (i < k)%nat -> src !! i = Some c -> c <> 0) ->
        strncpy src size = take k src ++ replicate (size - k) 0)
  /\ ((forall i, (i < size)%nat -> exists c, src !! i = Some c /\ c <> 0) ->
        strncpy src size = take size src).
Proof.
  split; [apply strncpy_length|]. split.
  - revert src. induction size as [|size IH]; intros src k Hk Hz Hpre; [lia|].
    destruct src as [|c rest]; [discriminate|].
    cbn [strncpy]. destruct (Z.eqb_spec c 0) as [-> | Hc].
    + destruct k as [|k].
      * cbn [take app]. rewrite strncpy_nul. reflexivity.
      * exfalso. exact (Hpre 0%nat 0 ltac:(lia) eq_refl eq_refl).
    + destruct k as [|k].
      * cbn in Hz. congruence.
      * cbn [take app]. f_equal.
        replace (S size - S k)%nat with (size - k)%nat by lia.
        apply IH; [lia | exact Hz |].
        intros i c' Hi Hl. apply (Hpre (S i) c' ltac:(lia)). exact Hl.
  - revert src. induction size as [|size IH]; intros src Hall.
    + rewrite take_0. reflexivity.
    + destruct (Hall 0%nat ltac:(lia)) as (c & Hc & Hnz).
      destruct src as [|c' rest]; [discriminate|].
      cbn in Hc. injection Hc as ->.
      cbn [strncpy take]. destruct (Z.eqb_spec c 0) as [-> | _]; [contradiction|].
      f_equal. apply IH. intros i Hi.
      destruct (Hall (S i) ltac:(lia)) as (d & Hd & Hdz). exists d. auto.
Qed.

End Facts.

(** ** Examples on the concrete machine *)

Section Examples.

#[local] Existing Instance Demo.layout.
#[local] Existing Instance Demo.extern.

Lemma pid_next_strictly_increasing_witness :
  exists pids s',
    pid_next_n 3 0%nat Demo.boot = Done pids s'
    /\ length pids = 3%nat
    /\ (forall i j x y, (i < j)%nat ->
          pids !! i = Some x -> pids !! j = Some y -> x < y)
    /\ (forall i x, pids !! i = Some x -> 0 < x)
    /\ pid_lock s' = false.
Proof.
  apply (pid_next_strictly_increasing 3 0%nat Demo.boot).
  - reflexivity.
  - simpl. lia.
  - vm_compute. discriminate.
Defined.

(** C9 (as stated) fails at the wrap-around of the [int] counter: the
    2147483647th mint after boot returns INT_MAX and the next one returns
    INT_MIN, which is neither greater nor positive. *)
Lemma pid_next_wraps :
  exists pids s1 s2 s3,
    pid_next_n (Z.to_nat 2147483646) 0%nat Demo.boot = Done pids s1
    /\ pid_next 0%nat s1 = Done 2147483647 s2
    /\ pid_next 0%nat s2 = Done (-2147483648) s3.
Proof.
  destruct (pid_next_n_seq (Z.to_nat 2147483646) 0%nat Demo.boot)
    as (s1 & Hrun & Hl & Hn).
  - reflexivity.
  - vm_compute. discriminate.
  - change (nextpid Demo.boot) with 1. rewrite Z2Nat.id by lia.
    vm_compute. discriminate.
  - change (nextpid Demo.boot) with 1 in Hn. rewrite Z2Nat.id in Hn by lia.
    specialize (Hn ltac:(vm_compute; discriminate)).
    eexists _, s1, _, _. split; [exact Hrun|].
    split.
    + rewrite pid_next_free by exact Hl. rewrite Hn. reflexivity.
    + rewrite pid_next_free by reflexivity.
      cbn [nextpid set_pid_lock set_nextpid]. reflexivity.
Qed.

(** Slot 0 of the example machines runs the first process and is the
    only slot in front of slot 1. *)
Lemma before_slot_1 (um km : Z -> Z) (rest : list proc) :
  forall j q, (j < 1)%nat ->
    ptable (Demo.machine (Demo.init 4096 :: rest) um km) !! j = Some q ->
    state q <> UNUSED /\ lock q = false.
Proof.
  intros j q Hj Hq. destruct j; [|lia].
  injection Hq as <-. split; [discriminate | reflexivity].
Qed.

Lemma no_open_files n s : files_live n (Demo.init 4096) s.
Proof. intros [|[|j]] f Hj; discriminate. Qed.

Lemma fork_returns_witness :
  exists s' c,
    fork 0%nat Demo.running = Done (pid c) s'
    /\ ptable s' !! 1%nat = Some c /\ pid c = 2
    /\ u64 (kmem s' (tf c + 8 * TF_X0)) = 0
    /\ state c = RUNNABLE /\ parent c = Some 0%nat /\ lock c = false
    /\ free_log s' = [].
Proof.
  apply (fork_returns 0%nat Demo.running 1%nat (Demo.init 4096) Demo.proc0).
  - reflexivity.
  - discriminate.
  - reflexivity.
  - reflexivity.
  - reflexivity.
  - apply before_slot_1.
  - reflexivity.
  - reflexivity.
  - reflexivity.
  - apply no_open_files.
  - vm_compute. discriminate.
  - vm_compute. discriminate.
Defined.

Lemma proc_free_clears_witness :
  exists s' q,
    proc_free 1%nat 0%nat Demo.with_busy = Done tt s'
    /\ ptable s' !! 1%nat = Some q
    /\ state q = UNUSED /\ kstack q = 0 /\ pgdir q = 0
    /\ pid q = 0 /\ parent q = None /\ chan q = None
    /\ killed q = 0 /\ xstate q = 0 /\ sz q = 0 /\ tf q = 0
    /\ name q = <[0%nat := 0]> (name Demo.busy)
    /\ ofile q = ofile Demo.busy /\ cwd q = cwd Demo.busy /\ lock q = lock Demo.busy.
Proof.
  apply (proc_free_clears 1%nat 0%nat Demo.with_busy Demo.busy). reflexivity.
Defined.

(** C2 (as stated) fails: [proc_free] on a slot with an open file and a
    working directory leaves both in place. *)
Lemma proc_free_keeps_files :
  exists s' q,
    proc_free 1%nat 0%nat Demo.with_busy = Done tt s'
    /\ ptable s' !! 1%nat = Some q
    /\ state q = UNUSED
    /\ ofile q = [Some 0%nat; None]
    /\ cwd q = 5.
Proof.
  rewrite (proc_free_run 1%nat 0%nat Demo.with_busy Demo.busy) by reflexivity.
  eexists _, _. split; [reflexivity|]. split; [reflexivity|].
  repeat split.
Qed.

Lemma growproc_failure_keeps_sz_witness :
  exists s' q,
    growproc 1073741824 0%nat Demo.running = Done (-1) s'
    /\ ptable s' !! cur s' = Some q
    /\ sz q = 4096.
Proof.
  apply (growproc_failure_keeps_sz 1073741824 0%nat Demo.running (Demo.init 4096)).
  - reflexivity.
  - left. split; [lia | vm_compute; reflexivity].
Defined.

Lemma sys_brk_result_witness :
  exists rc r s' q,
    growproc (i32 (u64 (kmem Demo.running (Demo.TF + 8 * (TF_X0 + 1) + 8 * 0))))
      0%nat Demo.running = Done rc s'
    /\ sys_brk 0%nat Demo.running = Done r s'
    /\ ptable s' !! cur s' = Some q
    /\ (rc < 0 -> r = u64 (-1) /\ sz q = 4096)
    /\ (~ rc < 0 -> r = 4096).
Proof.
  apply (sys_brk_result 0%nat Demo.running (Demo.init 4096)). reflexivity.
Defined.

Lemma argint_unchecked_below_witness :
  argint (-1) 0%nat Demo.running = Done (0, 77) Demo.running.
Proof.
  rewrite (argint_unchecked_below (-1) 0%nat Demo.running (Demo.init 4096));
    [reflexivity | lia | reflexivity].
Defined.

Lemma fetchint_bounds_witness :
  (4088 < 4096 /\ u64 (4088 + 8) <= 4096 ->
     fetchint 4088 0 0%nat Demo.running
       = Done (0, i64 (load_le (umem Demo.running) 4088 8)) Demo.running)
  /\ (4096 <= 4088 \/ 4096 < u64 (4088 + 8) ->
     fetchint 4088 0 0%nat Demo.running = Done (-1, 0) Demo.running)
  /\ (0 <= 4088 -> 4088 + 8 = 4096 -> 4096 < 2 ^ 64 ->
     fetchint 4088 0 0%nat Demo.running
       = Done (0, i64 (load_le (umem Demo.running) 4088 8)) Demo.running).
Proof.
  apply (fetchint_bounds 4088 0 0%nat Demo.running (Demo.init 4096)). reflexivity.
Defined.

(** C6 (as stated) fails: with [sz] = 4096 the address 4088 has
    [addr + 8] equal to [sz], and [fetchint] succeeds. *)
Lemma fetchint_at_end_succeeds :
  sz (Demo.init 4096) = 4088 + 8
  /\ fetchint 4088 0 0%nat Demo.running = Done (0, 0) Demo.running.
Proof.
  split; [reflexivity|].
  rewrite (fetchint_in_bounds 4088 0 0%nat Demo.running (Demo.init 4096));
    [reflexivity | reflexivity | reflexivity | vm_compute; discriminate].
Qed.

Lemma syscall1_unknown_never_returns_witness :
  exists s',
    syscall1 [Some (ret 0); None] Demo.TF 5%nat Demo.running = OutOfFuel s'
    /\ console s' =
         [("syscall: unknown syscall %d from proc %d"%string, [999; 1])]
    /\ forall r s'', syscall1 [Some (ret 0); None] Demo.TF 5%nat Demo.running
                     <> Done r s''.
Proof.
  assert (Hbad : Z.of_nat (length [Some (ret 0); None (A := M Z)])
                   <= u64 (kmem Demo.running (Demo.TF + 8 * (TF_X0 + 8)))
                 \/ [Some (ret 0); None (A := M Z)]
                      !! Z.to_nat (u64 (kmem Demo.running (Demo.TF + 8 * (TF_X0 + 8))))
                    = Some None).
  { left. vm_compute. discriminate. }
  exact (syscall1_unknown_never_returns [Some (ret 0); None] Demo.TF 5%nat
           Demo.running (Demo.init 4096) eq_refl Hbad).
Defined.

Lemma wait_frees_without_slot_lock_witness :
  exists s',
    wait Demo.swtch 1%nat Demo.with_zombie = Done 2 s'
    /\ free_log s' = [(1%nat, false)]
    /\ wait_lock s' = false.
Proof.
  apply (wait_frees_without_slot_lock Demo.swtch 0%nat Demo.with_zombie 1%nat
           Demo.zombie).
  - reflexivity.
  - reflexivity.
  - reflexivity.
  - reflexivity.
  - intros j q Hj Hq. destruct j; [|lia]. injection Hq as <-. discriminate.
Defined.

(** The string "a" of the [exec] examples. *)
Lemma demo_string n : str_at (Demo.argv_mem n) 4096 16 1.
Proof.
  unfold str_at. split; [lia|]. split; [lia|]. split; [reflexivity|].
  intros j Hj. replace j with 0 by lia. vm_compute. discriminate.
Qed.

Lemma demo_entries :
  forall j a, [16; 16; 16] !! j = Some a -> entry_ok (Demo.in_exec 3) 4096 256 j a.
Proof.
  intros j a Hj.
  assert (Hs : exists n, str_at (umem (Demo.in_exec 3)) 4096 16 n /\ n <= INT_MAX).
  { exists 1. split; [apply demo_string | vm_compute; discriminate]. }
  destruct j as [|[|[|j]]]; try discriminate; injection Hj as <-;
    (split; [lia|]; split; [cbn; lia|]; split; [reflexivity|];
     split; [vm_compute; reflexivity|]; split; [lia | exact Hs]).
Qed.

Lemma sys_exec_argument_limit_witness :
  exists c',
    sys_exec Demo.execve 0%nat (Demo.in_exec 3) =
      Demo.execve 16 ([16; 16; 16] ++ replicate 29 0) 0 0%nat
        (set_console c' (Demo.in_exec 3)).
Proof.
  assert (Hpath : exists n,
            str_at (umem (Demo.in_exec 3)) (sz (Demo.init 4096))
              (u64 (kmem (Demo.in_exec 3)
                      (tf (Demo.init 4096) + 8 * (TF_X0 + 1) + 8 * 0))) n
            /\ n <= INT_MAX).
  { exists 1. split; [apply demo_string | vm_compute; discriminate]. }
  assert (Hlen : (length [16; 16; 16] < MAXARG)%nat) by (cbn; lia).
  assert (Hnull : null_at (Demo.in_exec 3) (sz (Demo.init 4096))
            (u64 (kmem (Demo.in_exec 3)
                    (tf (Demo.init 4096) + 8 * (TF_X0 + 1) + 8 * 1)))
            (length [16; 16; 16])).
  { split; [vm_compute; discriminate|]. split; [vm_compute; discriminate|].
    split; [reflexivity | vm_compute; reflexivity]. }
  exact (proj1 (sys_exec_argument_limit Demo.execve 0%nat (Demo.in_exec 3)
                  (Demo.init 4096) [16; 16; 16] eq_refl Hpath demo_entries)
               Hlen Hnull).
Defined.

(** C7 (as stated) fails: an array of exactly [MAXARG] = 32 non-null
    string pointers followed by the NULL terminator is rejected with -1;
    [execve] is not called. *)
Lemma sys_exec_rejects_maxarg_pointers :
  MAXARG = 32%nat
  /\ (forall j, 0 <= j < 32 ->
        load_le (umem (Demo.in_exec 32)) (256 + 8 * j) 8 = 16)
  /\ load_le (umem (Demo.in_exec 32)) (256 + 8 * 32) 8 = 0
  /\ exists s', sys_exec Demo.execve 0%nat (Demo.in_exec 32) = Done (-1) s'
                /\ hd_error (console s') = Some ("sys_exec: too many arguments."%string, []).
Proof.
  split; [reflexivity|]. split.
  - intros j Hj.
    assert (Hc : In j (seqZ 0 32)).
    { apply list_elem_of_In, elem_of_seqZ. lia. }
    vm_compute in Hc.
    repeat (destruct Hc as [<- | Hc]; [vm_compute; reflexivity|]).
    contradiction.
  - split; [vm_compute; reflexivity|].
    eexists. split; vm_compute; reflexivity.
Qed.

End Examples.

(** ** Examples for the further statements *)

Section FurtherExamples.

#[local] Existing Instance Demo.layout.
#[local] Existing Instance Demo.extern.
#[local] Existing Instance Demo.externfs.

Lemma fetchstr_result_witness :
  fetchstr 16 0 0%nat (Demo.in_exec 1) = Done (1, 16) (Demo.in_exec 1)
  /\ fetchstr 4096 5 0%nat (Demo.in_exec 1) = Done (-1, 5) (Demo.in_exec 1).
Proof.
  destruct (fetchstr_result 16 0 0%nat (Demo.in_exec 1) (Demo.init 4096) eq_refl)
    as (_ & _ & Hok).
  destruct (fetchstr_result 4096 5 0%nat (Demo.in_exec 1) (Demo.init 4096) eq_refl)
    as (Hout & _ & _).
  split.
  - apply (Hok 1); [apply demo_string | vm_compute; discriminate].
  - apply Hout. simpl. lia.
Defined.

Lemma argptr_bounds_witness :
  argptr 0 0 8 0%nat (Demo.in_exec 1) = Done (0, 16) (Demo.in_exec 1)
  /\ argptr 0 0 4096 0%nat (Demo.in_exec 1) = Done (-1, 0) (Demo.in_exec 1)
  /\ argptr 0 0 (-8) 0%nat (Demo.in_exec 1) = Done (0, 16) (Demo.in_exec 1).
Proof.
  destruct (argptr_bounds 0 0 8 0%nat (Demo.in_exec 1) (Demo.init 4096)
              ltac:(lia) eq_refl) as (Hin & _ & _).
  destruct (argptr_bounds 0 0 4096 0%nat (Demo.in_exec 1) (Demo.init 4096)
              ltac:(lia) eq_refl) as (_ & Hout & _).
  destruct (argptr_bounds 0 0 (-8) 0%nat (Demo.in_exec 1) (Demo.init 4096)
              ltac:(lia) eq_refl) as (_ & _ & Hneg).
  split; [|split].
  - apply Hin. vm_compute. split; [reflexivity | discriminate].
  - apply Hout. right. vm_compute. reflexivity.
  - apply Hneg; [lia|]. vm_compute. split; [discriminate | reflexivity].
Defined.

Lemma syscall1_dispatches_witness :
  exists s3,
    syscall1 [None; Some (ret 5)] Demo.TF 0%nat Demo.calling = Done 5 s3
    /\ kmem s3 (Demo.TF + 8 * TF_X0) = u64 5.
Proof.
  assert (Hsel : [None; Some (ret 5 : M Z)]
                   !! Z.to_nat (u64 (kmem Demo.calling (Demo.TF + 8 * (TF_X0 + 8))))
                 = Some (Some (ret 5))) by (vm_compute; reflexivity).
  destruct (syscall1_dispatches [None; Some (ret 5)] (ret 5) Demo.TF 5 0%nat
              Demo.calling _ (Demo.init 4096) eq_refl Hsel eq_refl)
    as (s3 & Hrun & Hx0 & _).
  - vm_compute. split; discriminate.
  - exists s3. split; [exact Hrun | exact Hx0].
Defined.

Lemma proc_alloc_table_full_witness :
  proc_alloc 0%nat Demo.full = Done None Demo.full.
Proof.
  apply (proc_alloc_table_full 0%nat Demo.full).
  intros [|[|j]] q Hq; try discriminate; injection Hq as <-;
    (split; [discriminate | reflexivity]).
Defined.

Lemma proc_alloc_first_unused_witness :
  exists s' c,
    proc_alloc 0%nat Demo.running = Done (Some 1%nat) s'
    /\ ptable s' = <[1%nat := c]> (ptable Demo.running)
    /\ lock c = true /\ state c = EMBRYO /\ pid c = 2 /\ kstack c = 69632.
Proof.
  destruct (proc_alloc_first_unused 0%nat Demo.running 1%nat Demo.proc0)
    as (s' & c & Hrun & Ht & Hl & Hs & Hp & Hk & _).
  - reflexivity.
  - reflexivity.
  - reflexivity.
  - apply before_slot_1.
  - reflexivity.
  - vm_compute. discriminate.
  - exists s', c. repeat split; assumption.
Defined.

Lemma growproc_success_witness :
  exists s',
    growproc 4096 0%nat Demo.running = Done 0 s'
    /\ ptable s' = <[0%nat := set_sz 8192 (Demo.init 4096)]> (ptable Demo.running)
    /\ cur s' = 0%nat.
Proof.
  apply (growproc_success 4096 0%nat Demo.running (Demo.init 4096)).
  - reflexivity.
  - left. vm_compute. discriminate.
Defined.

Lemma wait_without_zombie_witness :
  wait Demo.swtch 1%nat Demo.running = Done (-1) Demo.running.
Proof.
  apply (wait_without_zombie Demo.swtch 0%nat Demo.running (Demo.init 4096)).
  - reflexivity.
  - reflexivity.
  - intros [|[|[|j]]] q Hq Hpar; try discriminate; injection Hq as <-; discriminate.
  - left. intros [|[|[|j]]] q Hq; try discriminate; injection Hq as <-; discriminate.
Defined.

Lemma sleep_protocol_witness :
  exists s',
    sleep Demo.resume 0%nat 0%nat Demo.running = Done tt s'
    /\ wait_lock s' = true
    /\ ptable s' !! 0%nat = Some (Demo.init 4096).
Proof.
  eexists. split.
  - apply (sleep_protocol Demo.resume 0%nat 0%nat Demo.running (Demo.init 4096)
             (set_state RUNNING
                (set_state SLEEPING (set_chan (Some 0%nat) (set_lock true (Demo.init 4096))))));
      reflexivity.
  - split; reflexivity.
Defined.

Lemma yield_protocol_witness :
  exists s',
    yield Demo.resume 0%nat Demo.running = Done tt s'
    /\ ptable s' !! 0%nat = Some (Demo.init 4096).
Proof.
  eexists. split.
  - apply (yield_protocol Demo.resume 0%nat Demo.running (Demo.init 4096)
             (set_state RUNNING (set_state RUNNABLE (set_lock true (Demo.init 4096)))));
      reflexivity.
  - reflexivity.
Defined.

Lemma wait_sleeps_then_reaps_witness :
  exists s',
    wait Demo.child_exits 2%nat Demo.with_busy = Done 2 s'
    /\ ptable s' !! 1%nat = Some (freed Demo.zombie)
    /\ wait_lock s' = false.
Proof.
  destruct (wait_sleeps_then_reaps Demo.child_exits 0%nat Demo.with_busy
              (Demo.init 4096)
              (set_state RUNNING
                 (set_state SLEEPING
                    (set_chan (Some 0%nat) (set_lock true (Demo.init 4096)))))
              1%nat 1%nat Demo.busy Demo.zombie)
    as (s' & Hrun & Hslot & _ & Hwl).
  - reflexivity.
  - reflexivity.
  - reflexivity.
  - reflexivity.
  - intros [|[|[|j]]] q Hq Hpar; try discriminate; injection Hq as <-; discriminate.
  - reflexivity.
  - reflexivity.
  - reflexivity.
  - reflexivity.
  - discriminate.
  - reflexivity.
  - reflexivity.
  - reflexivity.
  - intros j q Hj Hq. destruct j; [|lia]. injection Hq as <-. discriminate.
  - exists s'. split; [exact Hrun|]. split; [exact Hslot | exact Hwl].
Defined.

Lemma reparent_adopts_witness :
  exists s',
    reparent (Some 0%nat) 1%nat 0%nat Demo.in_kid = Done tt s'
    /\ ptable s' !! 2%nat = Some (set_parent (Some 0%nat) Demo.grandkid)
    /\ forall j q, ptable s' !! j = Some q -> parent q <> Some 1%nat.
Proof.
  destruct (reparent_adopts (Some 0%nat) 1%nat 0%nat Demo.in_kid)
    as (s' & Hrun & _ & Hall & _ & Hnone).
  exists s'. split; [exact Hrun|]. split.
  - rewrite (Hall 2%nat Demo.grandkid eq_refl). reflexivity.
  - apply Hnone. discriminate.
Defined.

Lemma wakeup_wakes_sleepers_witness :
  exists s',
    wakeup (Some 0%nat) 0%nat Demo.with_sleeper = Done tt s'
    /\ ptable s' !! 1%nat = Some (set_state RUNNABLE Demo.sleeper)
    /\ ptable s' !! 0%nat = Some (Demo.init 4096).
Proof.
  destruct (wakeup_wakes_sleepers (Some 0%nat) 0%nat Demo.with_sleeper)
    as (s' & Hrun & _ & Hall).
  - intros [|[|[|j]]] q Hq Hj; try discriminate; try congruence;
      injection Hq as <-; reflexivity.
  - exists s'. split; [exact Hrun|]. split.
    + rewrite (Hall 1%nat Demo.sleeper eq_refl). reflexivity.
    + rewrite (Hall 0%nat (Demo.init 4096) eq_refl). reflexivity.
Defined.

Lemma file_alloc_first_free_witness :
  file_alloc 0%nat Demo.with_files =
    Done (Some 1%nat)
      (set_ftable [mkFile 1 FD_INODE true true 9 0; mkFile 1 FD_NONE false false 0 0]
         Demo.with_files)
  /\ file_alloc 0%nat Demo.running = Done None Demo.running.
Proof.
  split.
  - apply (proj1 (file_alloc_first_free 0%nat Demo.with_files eq_refl) 1%nat
             (mkFile 0 FD_NONE false false 0 0)); [reflexivity | reflexivity |].
    intros j g Hj Hg. destruct j; [|lia]. injection Hg as <-. discriminate.
  - apply (proj2 (file_alloc_first_free 0%nat Demo.running eq_refl)).
    intros [|j] g Hg; [|discriminate]. injection Hg as <-. discriminate.
Defined.

Lemma file_close_cases_witness :
  file_close 0%nat 0%nat Demo.running =
    Done tt (set_ftable [mkFile 0 FD_NONE true true 9 0] Demo.running)
  /\ file_close 0%nat 0%nat Demo.in_kid =
       Done tt (set_ftable [mkFile 1 FD_INODE true true 9 0] Demo.in_kid)
  /\ file_close 1%nat 0%nat Demo.with_files =
       Panic "file_close: invalid file." (set_ftable_lock true Demo.with_files).
Proof.
  destruct (file_close_cases 0%nat 0%nat Demo.running (mkFile 1 FD_INODE true true 9 0)
              eq_refl eq_refl ltac:(vm_compute; discriminate))
    as (_ & Hlast & _ & _).
  destruct (file_close_cases 0%nat 0%nat Demo.in_kid (mkFile 2 FD_INODE true true 9 0)
              eq_refl eq_refl ltac:(vm_compute; discriminate))
    as (Hshared & _ & _ & _).
  destruct (file_close_cases 1%nat 0%nat Demo.with_files
              (mkFile 0 FD_NONE false false 0 0)
              eq_refl eq_refl ltac:(vm_compute; discriminate))
    as (_ & _ & _ & Hfree).
  split; [|split].
  - rewrite Hlast by reflexivity. reflexivity.
  - rewrite Hshared by reflexivity. reflexivity.
  - rewrite Hfree by reflexivity. reflexivity.
Defined.

Lemma file_dup_close_roundtrip_witness :
  bind (file_dup 0%nat) file_close 0%nat Demo.running = Done tt Demo.running.
Proof.
  apply (file_dup_close_roundtrip 0%nat 0%nat Demo.running
           (mkFile 1 FD_INODE true true 9 0));
    [reflexivity | reflexivity | vm_compute; split; [discriminate | reflexivity]].
Defined.

Lemma file_write_in_chunks_witness :
  write_max = 1536
  /\ exists w',
       file_write 0%nat 64 4000 3%nat Demo.running =
         Done 4000
           (set_world w'
              (set_ftable [mkFile 1 FD_INODE true true 9 4000] Demo.running)).
Proof.
  split; [reflexivity|].
  destruct (file_write_in_chunks 0%nat 64 4000 3%nat Demo.running
              (mkFile 1 FD_INODE true true 9 0) eq_refl)
    as (_ & Hw).
  destruct Hw as (w' & Hrun).
  - reflexivity.
  - reflexivity.
  - vm_compute. split; discriminate.
  - vm_compute. split; [discriminate | reflexivity].
  - vm_compute. discriminate.
  - intros ino a o k m w Hk. reflexivity.
  - exists w'. rewrite Hrun. reflexivity.
Defined.

Lemma exit_never_returns_witness :
  never_returns (exit (Some 0%nat) Demo.swtch 7)
  /\ exit (Some 0%nat) Demo.swtch 7 0%nat Demo.running
     = Panic "exit: initproc exiting." Demo.running.
Proof.
  destruct (exit_never_returns (Some 0%nat) Demo.swtch 7) as (Hnever & _ & Hinit).
  split; [exact Hnever|]. apply Hinit. reflexivity.
Defined.

Lemma demo_closable : closable (ofile Demo.kid) Demo.in_kid.
Proof.
  intros [|f] Hf.
  - exists (mkFile 2 FD_INODE true true 9 0).
    split; [reflexivity|]. split; [reflexivity|].
    vm_compute. split; discriminate.
  - vm_compute in Hf. discriminate.
Qed.

Lemma exit_leaves_zombie_witness :
  exists sz z,
    exit (Some 0%nat) Demo.swtch 7 0%nat Demo.in_kid
      = Panic "exit: zombie returned!" (Demo.swtch sz)
    /\ ptable sz !! 1%nat = Some z
    /\ state z = ZOMBIE /\ xstate z = 7 /\ lock z = true
    /\ cwd z = 0 /\ ofile z = [None; None]
    /\ wait_lock sz = false
    /\ ptable sz !! 2%nat = Some (set_parent (Some 0%nat) Demo.grandkid)
    /\ ptable sz !! 0%nat = Some (Demo.init 4096).
Proof.
  destruct (exit_leaves_zombie (Some 0%nat) Demo.swtch 7 0%nat Demo.in_kid Demo.kid)
    as (sz & z & Hrun & Hz & Hs & Hx & Hl & Hc & Ho & Hw & Hoth).
  - discriminate.
  - reflexivity.
  - reflexivity.
  - reflexivity.
  - reflexivity.
  - apply demo_closable.
  - exists sz, z. repeat (split; [assumption|]). split.
    + rewrite (Hoth 2%nat Demo.grandkid ltac:(discriminate) eq_refl). reflexivity.
    + rewrite (Hoth 0%nat (Demo.init 4096) ltac:(discriminate) eq_refl). reflexivity.
Defined.

Lemma sys_clone_only_sigchld_witness :
  sys_clone 0%nat (Demo.cloning 17) = fork 0%nat (Demo.cloning 17)
  /\ exists s', sys_clone 0%nat (Demo.cloning 16) = Done (-1) s'
                /\ ptable s' = ptable (Demo.cloning 16).
Proof.
  split.
  - apply (sys_clone_only_sigchld 0%nat (Demo.cloning 17) (Demo.init 4096) eq_refl).
    reflexivity.
  - eexists. split.
    + apply (sys_clone_only_sigchld 0%nat (Demo.cloning 16) (Demo.init 4096) eq_refl).
      vm_compute. discriminate.
    + reflexivity.
Defined.

Lemma sys_wait4_any_child_only_witness :
  sys_wait4 Demo.swtch 1%nat (Demo.waiting (2 ^ 64 - 1))
    = wait Demo.swtch 1%nat (Demo.waiting (2 ^ 64 - 1))
  /\ exists s', sys_wait4 Demo.swtch 1%nat (Demo.waiting (2 ^ 32 - 1)) = Done (-1) s'
                /\ ptable s' = ptable (Demo.waiting (2 ^ 32 - 1)).
Proof.
  split.
  - apply (sys_wait4_any_child_only Demo.swtch 1%nat (Demo.waiting (2 ^ 64 - 1))
             (Demo.init 4096) eq_refl); reflexivity.
  - eexists. split.
    + apply (sys_wait4_any_child_only Demo.swtch 1%nat (Demo.waiting (2 ^ 32 - 1))
               (Demo.init 4096) eq_refl).
      intros (H0 & _). vm_compute in H0. discriminate.
    + reflexivity.
Defined.

Lemma memmove_copies_witness :
  memmove Demo.ramp 10 8 4 10 = 8
  /\ memmove Demo.ramp 10 8 4 13 = 11
  /\ memmove Demo.ramp 10 8 4 9 = 9
  /\ memmove Demo.ramp 10 8 4 14 = 14.
Proof.
  pose proof (memmove_copies Demo.ramp 10 8 4 ltac:(lia)) as H.
  rewrite !H. repeat split.
Defined.

Lemma memset_counts_int_witness :
  memset Demo.ramp 100 7 3 100 = 7
  /\ memset Demo.ramp 100 7 3 102 = 7
  /\ memset Demo.ramp 100 7 3 103 = 103
  /\ memset Demo.ramp 100 7 (2 ^ 32) 100 = 100.
Proof.
  pose proof (memset_counts_int Demo.ramp 100 7 3 ltac:(vm_compute; discriminate))
    as H.
  pose proof (memset_counts_int Demo.ramp 100 7 (2 ^ 32) ltac:(vm_compute; discriminate))
    as H'.
  rewrite !H, H'. repeat split.
Defined.

Lemma memcmp_zero_iff_witness :
  memcmp Demo.ramp 0 256 2 = 0 /\ memcmp Demo.ramp 0 1 2 <> 0.
Proof.
  split.
  - apply (proj1 (memcmp_zero_iff 2 Demo.ramp 0 256)).
    intros i Hi. assert (Hc : i = 0 \/ i = 1) by lia.
    destruct Hc as [-> | ->]; reflexivity.
  - intros Hz.
    pose proof (proj1 (proj1 (memcmp_zero_iff 2 Demo.ramp 0 1)) Hz 0 ltac:(lia)) as H.
    vm_compute in H. discriminate.
Defined.

Lemma strnlen_bounded_witness :
  strnlen (Demo.argv_mem 1) 16 10 = 1.
Proof.
  pose proof (strnlen_bounded (Demo.argv_mem 1) 16 10
                ltac:(vm_compute; split; discriminate)) as H.
  cbv zeta in H. destruct H as (Hb & Hpre & Hend).
  remember (strnlen (Demo.argv_mem 1) 16 10) as r eqn:Hr. clear Hr.
  destruct (Z.eq_dec r 0) as [-> | Hn0].
  - specialize (Hend ltac:(lia)). vm_compute in Hend. discriminate.
  - destruct (Z_lt_le_dec 1 r) as [Hgt | Hle]; [|lia].
    exfalso. apply (Hpre 1 ltac:(lia)). reflexivity.
Defined.

Lemma strncpy_pads_or_truncates_witness :
  strncpy [105; 110; 105; 116; 0; 9] 8 = [105; 110; 105; 116; 0; 0; 0; 0]
  /\ strncpy [105; 110; 105; 116; 0; 9] 3 = [105; 110; 105].
Proof.
  destruct (strncpy_pads_or_truncates [105; 110; 105; 116; 0; 9] 8) as (_ & Hpad & _).
  destruct (strncpy_pads_or_truncates [105; 110; 105; 116; 0; 9] 3) as (_ & _ & Htr).
  split.
  - rewrite (Hpad 4%nat); [reflexivity | lia | reflexivity |].
    intros [|[|[|[|i]]]] c Hi Hc; try lia; injection Hc as <-; discriminate.
  - rewrite Htr; [reflexivity|].
    intros [|[|[|i]]] Hi; try lia; eexists; (split; [reflexivity | discriminate]).
Defined.

End FurtherExamples.
